(** * Authenticated, resilient API access layer of extend-challenge-demo-app

    A shallow embedding of the token lifecycle of package auth ([Token],
    the [AuthProvider] interface, [MockAuthProvider], [ClientAuthProvider],
    [PasswordAuthProvider]) and of the retrying request executor of package
    api ([HTTPAPIClient.doRequest]), with the properties the specification
    states about them.

    Go functions that talk to the outside world are written as programs over
    a small set of events (clock reads, HTTP round trips, the IAM SDK call,
    the reader/writer lock, the shared token cell).  The same program text is
    given two semantics: a deterministic sequential run against an
    environment of oracles, and an interleaving semantics for several
    goroutines.  A [context.Context] has no counterpart of its own: deadlines
    and cancellation show in what the network oracles answer.

    The file has three parts: the model, the vocabulary of the statements and
    proofs, and the lemmas and theorems. *)

From Stdlib Require Import ZArith List String Ascii Bool Lia Arith.
From Stdlib Require Import DecimalString DecimalZ.
Import ListNotations.

Set Implicit Arguments.
Set Warnings "-register-all".
Local Open Scope string_scope.
Local Open Scope Z_scope.

(* ------------------------------------------------------------------ *)
(** ** Go runtime pieces: integers, time, errors, formatting           *)
(* ------------------------------------------------------------------ *)

Module GoInt.

(** Two's complement wrap-around of a 64-bit signed integer. *)
Definition wrap64 (z : Z) : Z := (z + 2 ^ 63) mod 2 ^ 64 - 2 ^ 63.

Definition minInt64 : Z := - 2 ^ 63.
Definition maxInt64 : Z := 2 ^ 63 - 1.

Definition mul64 (a b : Z) : Z := wrap64 (a * b).

(** strconv.Itoa / the %d verb. *)
Definition Itoa (z : Z) : string := NilZero.string_of_int (Z.to_int z).

End GoInt.

Module time.

(** An instant, in nanoseconds since the Unix epoch. *)
Definition Time := Z.
(** time.Duration is an int64 count of nanoseconds. *)
Definition Duration := Z.

Definition Nanosecond : Duration := 1.
Definition Millisecond : Duration := 1000000.
Definition Second : Duration := 1000000000.
Definition Minute : Duration := 60 * Second.
Definition Hour : Duration := 60 * Minute.

Definition minDuration : Duration := GoInt.minInt64.
Definition maxDuration : Duration := GoInt.maxInt64.

(** Duration(n) * unit, an int64 multiplication. *)
Definition scale (n : Z) (unit : Duration) : Duration := GoInt.mul64 n unit.

Definition Add (t : Time) (d : Duration) : Time := t + d.
Definition After (t u : Time) : bool := u <? t.

(** Time.Sub saturates at the ends of the Duration range. *)
Definition Sub (t u : Time) : Duration :=
  let d := t - u in
  if d <? minDuration then minDuration
  else if maxDuration <? d then maxDuration
  else d.

Definition Unix (t : Time) : Z := t / Second.

End time.

(** Go's [error] values as this code builds them: [errors.New]-style
    strings and the wrapping errors [fmt.Errorf] makes for the %w verb. *)
Inductive error : Type :=
| errorString (s : string)
| wrapError (msg : string) (err : error).

Definition Error (e : error) : string :=
  match e with
  | errorString s => s
  | wrapError msg _ => msg
  end.

Definition Unwrap (e : error) : option error :=
  match e with
  | errorString _ => None
  | wrapError _ err => Some err
  end.

(** fmt.Errorf(prefix + "%w", err) *)
Definition Errorf_w (prefix : string) (err : error) : error :=
  wrapError (prefix ++ Error err) err.

(** fmt.Errorf(prefix + "%d", n) *)
Definition Errorf_d (prefix : string) (n : Z) : error :=
  errorString (prefix ++ GoInt.Itoa n).

(* ------------------------------------------------------------------ *)
(** ** Data model                                                      *)
(* ------------------------------------------------------------------ *)

(** auth.Token.  A [*Token] is an [option Token]; [None] is nil. *)
Record Token : Type := mkToken {
  AccessToken : string;
  TokenType : string;
  ExpiresAt : time.Time;
  RefreshToken : string
}.

(** What a Go function returning a token pointer and an error gives back. *)
Definition TokenResult : Type := option Token * option error.

(** *** HTTP messages *)

Inductive ReqBody : Type :=
| NoBody
| FormBody (values : list (string * string))   (* url.Values, before Encode *)
| BytesBody (bytes : string).

(** [URL] is the text the request was made from; what req.URL.String()
    gives for it is asked of the surroundings ([URL_String]). *)
Record Request : Type := mkRequest {
  Method : string;
  URL : string;
  Header : list (string * string);
  BasicAuth : option (string * string);
  Body : ReqBody
}.

Fixpoint assoc_set (k v : string) (l : list (string * string)) : list (string * string) :=
  match l with
  | [] => [(k, v)]
  | (k', v') :: l' => if String.eqb k k' then (k, v) :: l' else (k', v') :: assoc_set k v l'
  end.

Definition upper (c : ascii) : ascii :=
  let n := nat_of_ascii c in
  if andb (Nat.leb 97 n) (Nat.leb n 122) then ascii_of_nat (n - 32) else c.

Definition lower (c : ascii) : ascii :=
  let n := nat_of_ascii c in
  if andb (Nat.leb 65 n) (Nat.leb n 90) then ascii_of_nat (n + 32) else c.

Module textproto.

(** The bytes of an RFC 7230 token: letters, digits and
    ! # $ % & ' * + - . ^ _ ` | ~ *)
Definition validHeaderFieldByte (c : ascii) : bool :=
  let n := nat_of_ascii c in
  orb (orb (andb (Nat.leb 48 n) (Nat.leb n 57))
           (orb (andb (Nat.leb 65 n) (Nat.leb n 90)) (andb (Nat.leb 97 n) (Nat.leb n 122))))
      (existsb (Nat.eqb n) [33; 35; 36; 37; 38; 39; 42; 43; 45; 46; 94; 95; 96; 124; 126]%nat).

Fixpoint valid (s : string) : bool :=
  match s with
  | EmptyString => true
  | String c s' => andb (validHeaderFieldByte c) (valid s')
  end.

(** Upper case for the first letter and for a letter after a dash, lower
    case for the others. *)
Fixpoint canonical (up : bool) (s : string) : string :=
  match s with
  | EmptyString => EmptyString
  | String c s' =>
      let c := if up then upper c else lower c in
      String c (canonical (Ascii.eqb c "-") s')
  end.

(** A key with a byte that is no token byte is returned as it is. *)
Definition CanonicalMIMEHeaderKey (s : string) : string :=
  if valid s then canonical true s else s.

End textproto.

(** http.Header.Set on single-valued entries: the key is stored in its
    canonical form.  ([assoc_set] alone is url.Values.Set.) *)
Definition Header_Set (req : Request) (k v : string) : Request :=
  mkRequest req.(Method) req.(URL)
            (assoc_set (textproto.CanonicalMIMEHeaderKey k) v req.(Header))
            req.(BasicAuth) req.(Body).

(** The keys the code sets are literals: their canonical forms compute. *)
Ltac canonical_keys :=
  repeat match goal with
         | |- context [textproto.CanonicalMIMEHeaderKey ?k] =>
             let k' := eval vm_compute in (textproto.CanonicalMIMEHeaderKey k) in
             change (textproto.CanonicalMIMEHeaderKey k) with k'
         end.

Definition SetBasicAuth (req : Request) (user pass : string) : Request :=
  mkRequest req.(Method) req.(URL) req.(Header) (Some (user, pass)) req.(Body).

(** The resource API's answer: status, headers and the body bytes. *)
Record Response : Type := mkResponse {
  StatusCode : Z;
  RespHeader : list (string * string);
  RespBody : string
}.

(** *** JSON as encoding/json reads it *)

Inductive NumLit : Type :=
| IntLit (z : Z)        (* a literal strconv.ParseInt accepts *)
| OtherLit (raw : string). (* fraction or exponent *)

Inductive JSON : Type :=
| JNull
| JBool (b : bool)
| JNumber (n : NumLit)
| JString (s : string)
| JArray (elems : list JSON)
| JObject (fields : list (string * JSON)).

(** The body of a token-endpoint response: a JSON value, or bytes the decoder
    rejects with the given syntax error. *)
Inductive JSONText : Type :=
| Parsed (j : JSON)
| Malformed (syntaxErr : error).

Record IamResponse : Type := mkIamResponse {
  IamStatusCode : Z;
  IamBody : JSONText
}.

(** The anonymous [tokenResp] struct of [ClientAuthProvider]. *)
Record tokenResp : Type := mkTokenResp {
  tr_AccessToken : string;
  tr_TokenType : string;
  tr_ExpiresIn : Z;
  tr_RefreshToken : string
}.

Definition tokenResp_zero : tokenResp := mkTokenResp "" "" 0 "".

(** encoding/json matches a member name to a field when their [foldName]s
    are equal.  [foldName] puts ASCII letters in upper case and replaces
    every other rune by the least rune of its orbit under
    unicode.SimpleFold.  The only runes outside ASCII with an ASCII letter
    in their orbit are U+017F (long s, with S and s; bytes 197 191) and
    U+212A (the Kelvin sign, with K and k; bytes 226 132 170): they go to S
    and K.  The other runes outside ASCII fold to runes outside ASCII; they
    are left as they are here, which decides the comparison with an ASCII
    name, as the names of the fields are, the same way. *)
Fixpoint foldName (s : string) : string :=
  match s with
  | EmptyString => EmptyString
  | String c s1 =>
      match s1 with
      | String c1 s2 =>
          if andb (Ascii.eqb c "197") (Ascii.eqb c1 "191") then String "S" (foldName s2)
          else
            match s2 with
            | String c2 s3 =>
                if andb (Ascii.eqb c "226") (andb (Ascii.eqb c1 "132") (Ascii.eqb c2 "170"))
                then String "K" (foldName s3)
                else String (upper c) (foldName s1)
            | EmptyString => String (upper c) (foldName s1)
            end
      | EmptyString => String (upper c) EmptyString
      end
  end.

Definition EqualFold (a b : string) : bool := String.eqb (foldName a) (foldName b).

Definition typeError (what field : string) : error :=
  errorString ("json: cannot unmarshal " ++ what ++ " into Go struct field ." ++ field).

Definition kindOf (j : JSON) : string :=
  match j with
  | JNull => "null" | JBool _ => "bool" | JNumber _ => "number"
  | JString _ => "string" | JArray _ => "array" | JObject _ => "object"
  end.

Definition decodeString (field : string) (j : JSON) (old : string) : string + error :=
  match j with
  | JNull => inl old
  | JString s => inl s
  | _ => inr (typeError (kindOf j) (field ++ " of type string"))
  end.

Definition decodeInt (field : string) (j : JSON) (old : Z) : Z + error :=
  match j with
  | JNull => inl old
  | JNumber (IntLit z) =>
      if andb (GoInt.minInt64 <=? z) (z <=? GoInt.maxInt64) then inl z
      else inr (typeError "number" (field ++ " of type int"))
  | _ => inr (typeError (kindOf j) (field ++ " of type int"))
  end.

(** One object member into the struct; unknown keys are skipped, names match
    as [EqualFold] says. *)
Definition decodeField (acc : tokenResp) (kv : string * JSON) : tokenResp + error :=
  let (k, v) := kv in
  if EqualFold k "access_token" then
    match decodeString "access_token" v acc.(tr_AccessToken) with
    | inl s => inl (mkTokenResp s acc.(tr_TokenType) acc.(tr_ExpiresIn) acc.(tr_RefreshToken))
    | inr e => inr e
    end
  else if EqualFold k "token_type" then
    match decodeString "token_type" v acc.(tr_TokenType) with
    | inl s => inl (mkTokenResp acc.(tr_AccessToken) s acc.(tr_ExpiresIn) acc.(tr_RefreshToken))
    | inr e => inr e
    end
  else if EqualFold k "expires_in" then
    match decodeInt "expires_in" v acc.(tr_ExpiresIn) with
    | inl z => inl (mkTokenResp acc.(tr_AccessToken) acc.(tr_TokenType) z acc.(tr_RefreshToken))
    | inr e => inr e
    end
  else if EqualFold k "refresh_token" then
    match decodeString "refresh_token" v acc.(tr_RefreshToken) with
    | inl s => inl (mkTokenResp acc.(tr_AccessToken) acc.(tr_TokenType) acc.(tr_ExpiresIn) s)
    | inr e => inr e
    end
  else inl acc.

Fixpoint decodeFields (acc : tokenResp) (fs : list (string * JSON)) : tokenResp + error :=
  match fs with
  | [] => inl acc
  | kv :: fs' =>
      match decodeField acc kv with
      | inl acc' => decodeFields acc' fs'
      | inr e => inr e
      end
  end.

(** json.NewDecoder(resp.Body).Decode(&tokenResp), from the zero struct. *)
Definition Decode_tokenResp (body : JSONText) : tokenResp + error :=
  match body with
  | Malformed e => inr e
  | Parsed JNull => inl tokenResp_zero
  | Parsed (JObject fs) => decodeFields tokenResp_zero fs
  | Parsed j => inr (typeError (kindOf j) "")
  end.

(** *** The IAM SDK's view of a token grant ([PasswordAuthProvider]) *)

Record TransportConfig : Type := mkTransportConfig {
  Host : string;
  BasePath : string;
  Schemes : list string
}.

Record TokenGrantV3Params : Type := mkParams {
  GrantType : string;
  Username : option string;
  Password : option string;
  ParamRefreshToken : option string
}.

(** The SDK's token payload: the three required members are pointers. *)
Record TokenPayload : Type := mkPayload {
  pl_AccessToken : option string;
  pl_TokenType : option string;
  pl_ExpiresIn : option Z;      (* *int32 *)
  pl_RefreshToken : string
}.

(** *TokenGrantV3OK; [GetPayload] may be nil. *)
Record TokenGrantV3OK : Type := mkGrantOK {
  GetPayload : option TokenPayload
}.

(** *** Debug snapshots of the request executor *)

Record RequestDebugInfo : Type := mkRequestDebugInfo {
  dbg_Method : string;
  dbg_URL : string;
  dbg_Headers : list (string * string);
  dbg_Body : string
}.

Record ResponseDebugInfo : Type := mkResponseDebugInfo {
  dbg_StatusCode : Z;
  dbg_RespHeaders : list (string * string);
  dbg_RespBody : string;
  dbg_Duration : time.Duration
}.

(* ------------------------------------------------------------------ *)
(** ** Programs                                                        *)
(* ------------------------------------------------------------------ *)

(** What a goroutine can ask of its surroundings. *)
Inductive Event : Type -> Type :=
| time_Now : Event time.Time
| time_Sleep (d : time.Duration) : Event unit
| http_NewRequestWithContext (method url : string) (body : ReqBody) : Event (Request + error)
| URL_String (url : string) : Event string    (* req.URL.String() *)
| iamClient_Do (req : Request) : Event (IamResponse + error)
| OAuth20_TokenGrantV3Short (cfg : TransportConfig) (params : TokenGrantV3Params)
    (basicAuth : string * string) : Event (option TokenGrantV3OK * option error)
| apiClient_Do (req : Request) : Event (Response + error)
| mu_RLock : Event unit
| mu_RUnlock : Event unit
| mu_Lock : Event unit
| mu_Unlock : Event unit
| load_currentToken : Event (option Token)
| store_currentToken (t : option Token) : Event unit
| store_lastRequest (r : RequestDebugInfo) : Event unit
| store_lastResponse (r : ResponseDebugInfo) : Event unit.

(** A Go function body: it returns, performs an event and goes on with the
    answer, starts a goroutine ([go func() { body }()]), or panics. *)
Inductive prog : Type -> Type :=
| Ret {A : Type} (a : A) : prog A
| Vis {A X : Type} (e : Event X) (k : X -> prog A) : prog A
| Spawn {A : Type} (body : prog unit) (k : prog A) : prog A
| Throw {A : Type} (msg : string) : prog A.

Fixpoint bind {A B : Type} (p : prog A) : (A -> prog B) -> prog B :=
  match p in prog A0 return (A0 -> prog B) -> prog B with
  | Ret a => fun f => f a
  | Vis e k => fun f => Vis e (fun x => bind (k x) f)
  | Spawn body k => fun f => Spawn body (bind k f)
  | Throw msg => fun _ => Throw msg
  end.

Definition call {X : Type} (e : Event X) : prog X := Vis e (fun x => Ret x).

Declare Scope prog_scope.
Delimit Scope prog_scope with prog.
Notation "x <- p ;; q" := (bind p (fun x => q))
  (at level 61, p at next level, right associativity) : prog_scope.
Notation "p ;; q" := (bind p (fun _ => q))
  (at level 61, right associativity) : prog_scope.
Local Open Scope prog_scope.

Definition nilDeref : string := "invalid memory address or nil pointer dereference".

(* ------------------------------------------------------------------ *)
(** ** Token: IsExpired and ExpiresIn                                  *)
(* ------------------------------------------------------------------ *)

(** [IsExpired] and [ExpiresIn] accept a nil receiver. *)
Definition IsExpired (t : option Token) : prog bool :=
  match t with
  | None => Ret true
  | Some t =>
      now <- call time_Now ;;
      Ret (time.After now t.(ExpiresAt))
  end.

Definition ExpiresIn (t : option Token) : prog time.Duration :=
  match t with
  | None => Ret 0
  | Some t =>
      now <- call time_Now ;;          (* time.Until *)
      Ret (time.Sub t.(ExpiresAt) now)
  end.

(* ------------------------------------------------------------------ *)
(** ** The AuthProvider interface                                      *)
(* ------------------------------------------------------------------ *)

Module Provider.

Class AuthProvider (P : Type) : Type := {
  Authenticate : P -> prog TokenResult;
  RefreshToken : P -> option Token -> prog TokenResult;
  GetToken : P -> prog TokenResult;
  IsTokenValid : P -> option Token -> prog bool
}.

End Provider.

(* ------------------------------------------------------------------ *)
(** ** ClientAuthProvider: OAuth2 client credentials over net/http    *)
(* ------------------------------------------------------------------ *)

Module Client.

(** The configuration fields; [currentToken] and [mu] live in the shared
    state the events act on. *)
Record ClientAuthProvider : Type := NewClientAuthProvider {
  iamURL : string;
  clientID : string;
  clientSecret : string;
  namespace : string
}.

(** The [&Token{...}] that [Authenticate] and [RefreshToken] build from a
    decoded response. *)
Definition tokenOf (now : time.Time) (r : tokenResp) : Token :=
  mkToken r.(tr_AccessToken) r.(tr_TokenType)
          (time.Add now (time.scale r.(tr_ExpiresIn) time.Second))
          r.(tr_RefreshToken).

Definition Authenticate (c : ClientAuthProvider) : prog TokenResult :=
  let data := assoc_set "grant_type" "client_credentials" [] in
  let tokenURL := c.(iamURL) ++ "/v3/oauth/token" in
  r <- call (http_NewRequestWithContext "POST" tokenURL (FormBody data)) ;;
  match r with
  | inr err => Ret (None, Some (Errorf_w "create request: " err))
  | inl req =>
      let req := Header_Set req "Content-Type" "application/x-www-form-urlencoded" in
      let req := SetBasicAuth req c.(clientID) c.(clientSecret) in
      r <- call (iamClient_Do req) ;;
      match r with
      | inr err => Ret (None, Some (Errorf_w "request failed: " err))
      | inl resp =>
          if negb (resp.(IamStatusCode) =? 200) then
            Ret (None, Some (Errorf_d "authentication failed with status " resp.(IamStatusCode)))
          else
            match Decode_tokenResp resp.(IamBody) with
            | inr err => Ret (None, Some (Errorf_w "decode response: " err))
            | inl tokenResp =>
                now <- call time_Now ;;
                let token := tokenOf now tokenResp in
                call mu_Lock ;;
                call (store_currentToken (Some token)) ;;
                call mu_Unlock ;;
                Ret (Some token, None)
            end
      end
  end.

Definition RefreshToken (c : ClientAuthProvider) (token : option Token) : prog TokenResult :=
  match token with
  | None => Throw nilDeref                      (* token.RefreshToken on nil *)
  | Some tk =>
    if String.eqb tk.(RefreshToken) "" then
      Authenticate c
    else
      let data := assoc_set "grant_type" "refresh_token" [] in
      let data := assoc_set "refresh_token" tk.(RefreshToken) data in
      let tokenURL := c.(iamURL) ++ "/v3/oauth/token" in
      r <- call (http_NewRequestWithContext "POST" tokenURL (FormBody data)) ;;
      match r with
      | inr err => Ret (None, Some (Errorf_w "create refresh request: " err))
      | inl req =>
          let req := Header_Set req "Content-Type" "application/x-www-form-urlencoded" in
          let req := SetBasicAuth req c.(clientID) c.(clientSecret) in
          r <- call (iamClient_Do req) ;;
          match r with
          | inr err => Ret (None, Some (Errorf_w "refresh request failed: " err))
          | inl resp =>
              if negb (resp.(IamStatusCode) =? 200) then
                Authenticate c
              else
                match Decode_tokenResp resp.(IamBody) with
                | inr err => Ret (None, Some (Errorf_w "decode refresh response: " err))
                | inl tokenResp =>
                    now <- call time_Now ;;
                    let newToken := tokenOf now tokenResp in
                    call mu_Lock ;;
                    call (store_currentToken (Some newToken)) ;;
                    call mu_Unlock ;;
                    Ret (Some newToken, None)
                end
          end
      end
  end.

Definition GetToken (c : ClientAuthProvider) : prog TokenResult :=
  call mu_RLock ;;
  token <- call load_currentToken ;;
  call mu_RUnlock ;;
  match token with
  | None => Authenticate c
  | Some _ =>
      expired <- IsExpired token ;;
      if expired then RefreshToken c token
      else
        d <- ExpiresIn token ;;
        (if d <? 5 * time.Minute then
           Spawn (RefreshToken c token ;; Ret tt) (Ret tt)
         else Ret tt) ;;
        Ret (token, None)
  end.

Definition IsTokenValid (c : ClientAuthProvider) (token : option Token) : prog bool :=
  match token with
  | None => Ret false
  | Some _ => expired <- IsExpired token ;; Ret (negb expired)
  end.

#[global] Instance provider : Provider.AuthProvider ClientAuthProvider :=
  Provider.Build_AuthProvider Authenticate RefreshToken GetToken IsTokenValid.

End Client.

(* ------------------------------------------------------------------ *)
(** ** PasswordAuthProvider: OAuth2 password grant through the IAM SDK *)
(* ------------------------------------------------------------------ *)

Module Password.

Record PasswordAuthProvider : Type := NewPasswordAuthProvider {
  iamURL : string;
  clientID : string;
  clientSecret : string;
  namespace : string;
  email : string;
  password : string
}.

Definition slice_from (n : nat) (s : string) : string :=
  substring n (String.length s - n) s.

Definition createIAMClient (iamURL : string) : TransportConfig :=
  let '(scheme, host) :=
    if andb (Nat.ltb 8 (String.length iamURL)) (String.eqb (substring 0 8 iamURL) "https://")
    then ("https", slice_from 8 iamURL)
    else if andb (Nat.ltb 7 (String.length iamURL)) (String.eqb (substring 0 7 iamURL) "http://")
    then ("http", slice_from 7 iamURL)
    else ("https", iamURL) in
  let host :=
    if andb (Nat.ltb 4 (String.length host))
            (String.eqb (slice_from (String.length host - 4) host) "/iam")
    then substring 0 (String.length host - 4) host
    else host in
  mkTransportConfig host "" [scheme].

(** The [&Token{...}] that [Authenticate] and [RefreshToken] build from the
    SDK payload; the refresh token is copied when it is not empty. *)
Definition tokenOf (now : time.Time) (accessToken tokenType : string) (expiresIn : Z)
           (refreshToken : string) : Token :=
  mkToken accessToken tokenType
          (time.Add now (time.scale expiresIn time.Second))
          (if negb (String.eqb refreshToken "") then refreshToken else "").

Definition Authenticate (p : PasswordAuthProvider) : prog TokenResult :=
  let iamClient := createIAMClient p.(iamURL) in
  let params := mkParams "password" (Some p.(email)) (Some p.(password)) None in
  let basicAuth := (p.(clientID), p.(clientSecret)) in
  r <- call (OAuth20_TokenGrantV3Short iamClient params basicAuth) ;;
  let '(ok, err) := r in
  match err with
  | Some err => Ret (None, Some (Errorf_w "password grant failed: " err))
  | None =>
    match ok with
    | None => Ret (None, Some (errorString "empty SDK result"))
    | Some ok =>
      match ok.(GetPayload) with
      | None => Ret (None, Some (errorString "empty token response"))
      | Some tokenResp =>
        match tokenResp.(pl_AccessToken), tokenResp.(pl_TokenType), tokenResp.(pl_ExpiresIn) with
        | Some accessToken, Some tokenType, Some expiresIn =>
            now <- call time_Now ;;
            let token := tokenOf now accessToken tokenType expiresIn tokenResp.(pl_RefreshToken) in
            call mu_Lock ;;
            call (store_currentToken (Some token)) ;;
            call mu_Unlock ;;
            Ret (Some token, None)
        | _, _, _ =>
            Ret (None, Some (errorString "invalid token response: missing required fields"))
        end
      end
    end
  end.

Definition RefreshToken (p : PasswordAuthProvider) (token : option Token) : prog TokenResult :=
  match token with
  | None => Throw nilDeref                      (* token.RefreshToken on nil *)
  | Some tk =>
    if String.eqb tk.(RefreshToken) "" then
      Authenticate p
    else
      let iamClient := createIAMClient p.(iamURL) in
      let refreshToken := tk.(RefreshToken) in
      let params := mkParams "refresh_token" None None (Some refreshToken) in
      let basicAuth := (p.(clientID), p.(clientSecret)) in
      r <- call (OAuth20_TokenGrantV3Short iamClient params basicAuth) ;;
      let '(ok, err) := r in
      match err with
      | Some _ => Authenticate p
      | None =>
        match ok with
        | None => Ret (None, Some (errorString "empty SDK result"))
        | Some ok =>
          match ok.(GetPayload) with
          | None => Ret (None, Some (errorString "empty token response"))
          | Some tokenResp =>
            match tokenResp.(pl_AccessToken), tokenResp.(pl_TokenType), tokenResp.(pl_ExpiresIn) with
            | Some accessToken, Some tokenType, Some expiresIn =>
                now <- call time_Now ;;
                let newToken :=
                  tokenOf now accessToken tokenType expiresIn tokenResp.(pl_RefreshToken) in
                call mu_Lock ;;
                call (store_currentToken (Some newToken)) ;;
                call mu_Unlock ;;
                Ret (Some newToken, None)
            | _, _, _ =>
                Ret (None, Some (errorString "invalid token response: missing required fields"))
            end
          end
        end
      end
  end.

Definition GetToken (p : PasswordAuthProvider) : prog TokenResult :=
  call mu_RLock ;;
  token <- call load_currentToken ;;
  call mu_RUnlock ;;
  match token with
  | None => Authenticate p
  | Some _ =>
      expired <- IsExpired token ;;
      if expired then RefreshToken p token
      else
        d <- ExpiresIn token ;;
        (if d <? 5 * time.Minute then
           Spawn (RefreshToken p token ;; Ret tt) (Ret tt)
         else Ret tt) ;;
        Ret (token, None)
  end.

Definition IsTokenValid (p : PasswordAuthProvider) (token : option Token) : prog bool :=
  match token with
  | None => Ret false
  | Some _ => expired <- IsExpired token ;; Ret (negb expired)
  end.

#[global] Instance provider : Provider.AuthProvider PasswordAuthProvider :=
  Provider.Build_AuthProvider Authenticate RefreshToken GetToken IsTokenValid.

End Password.


(* ------------------------------------------------------------------ *)
(** ** Sequential semantics                                            *)
(* ------------------------------------------------------------------ *)

(** How a call ends: it returns, panics, or blocks for ever on the lock. *)
Inductive outcome (A : Type) : Type :=
| Returned (a : A)
| Panicked (msg : string)
| Blocked.
Arguments Panicked {A} msg.
Arguments Blocked {A}.

(** sync.RWMutex: the number of read locks held and the write lock. *)
Record RWMutex : Type := mkRWMutex {
  readers : nat;
  writer : bool
}.

Definition unlocked : RWMutex := mkRWMutex 0 false.

(** What leaves the process, in the order it happens. *)
Inductive Obs : Type :=
| ObsIam (req : Request)
| ObsSdk (cfg : TransportConfig) (params : TokenGrantV3Params) (basicAuth : string * string)
| ObsApi (req : Request)
| ObsSleep (d : time.Duration).

(** The surroundings of a run.  Each oracle answers the k-th call of its kind
    (k counted from 0). *)
Record Env : Type := mkEnv {
  clock : nat -> time.Time;
  newRequestErr : string -> string -> option error;
  urlString : string -> string;        (* url.Parse, then String, of a URL it accepts *)
  iamServer : nat -> Request -> IamResponse + error;
  sdkServer : nat -> TransportConfig -> TokenGrantV3Params -> string * string ->
              option TokenGrantV3OK * option error;
  apiServer : nat -> Request -> Response + error
}.

Record World : Type := mkWorld {
  ticks : nat;                         (* clock readings taken so far *)
  trace : list Obs;                    (* oldest first *)
  mu : RWMutex;
  currentToken : option Token;
  lastRequest : option RequestDebugInfo;
  lastResponse : option ResponseDebugInfo;
  goroutines : list (prog unit)        (* started, not yet run *)
}.

Definition tick (w : World) : World :=
  mkWorld (S w.(ticks)) w.(trace) w.(mu) w.(currentToken) w.(lastRequest) w.(lastResponse)
          w.(goroutines).
Definition log (o : Obs) (w : World) : World :=
  mkWorld w.(ticks) (w.(trace) ++ [o]) w.(mu) w.(currentToken) w.(lastRequest) w.(lastResponse)
          w.(goroutines).
Definition set_mu (m : RWMutex) (w : World) : World :=
  mkWorld w.(ticks) w.(trace) m w.(currentToken) w.(lastRequest) w.(lastResponse) w.(goroutines).
Definition set_currentToken (t : option Token) (w : World) : World :=
  mkWorld w.(ticks) w.(trace) w.(mu) t w.(lastRequest) w.(lastResponse) w.(goroutines).
Definition set_lastRequest (r : RequestDebugInfo) (w : World) : World :=
  mkWorld w.(ticks) w.(trace) w.(mu) w.(currentToken) (Some r) w.(lastResponse) w.(goroutines).
Definition set_lastResponse (r : ResponseDebugInfo) (w : World) : World :=
  mkWorld w.(ticks) w.(trace) w.(mu) w.(currentToken) w.(lastRequest) (Some r) w.(goroutines).
Definition start (body : prog unit) (w : World) : World :=
  mkWorld w.(ticks) w.(trace) w.(mu) w.(currentToken) w.(lastRequest) w.(lastResponse)
          (w.(goroutines) ++ [body]).

Definition isIam (o : Obs) : bool := match o with ObsIam _ => true | _ => false end.
Definition isSdk (o : Obs) : bool := match o with ObsSdk _ _ _ => true | _ => false end.
Definition isApi (o : Obs) : bool := match o with ObsApi _ => true | _ => false end.
Definition isSleep (o : Obs) : bool := match o with ObsSleep _ => true | _ => false end.

Definition count (f : Obs -> bool) (l : list Obs) : nat := List.length (filter f l).

Definition handle (env : Env) {X : Type} (e : Event X) (w : World) : outcome X * World :=
  match e in Event X0 return outcome X0 * World with
  | time_Now => (Returned (env.(clock) w.(ticks)), tick w)
  | time_Sleep d => (Returned tt, log (ObsSleep d) w)
  | http_NewRequestWithContext method url body =>
      match env.(newRequestErr) method url with
      | Some err => (Returned (inr err), w)
      | None => (Returned (inl (mkRequest method url [] None body)), w)
      end
  | URL_String url => (Returned (env.(urlString) url), w)
  | iamClient_Do req =>
      (Returned (env.(iamServer) (count isIam w.(trace)) req), log (ObsIam req) w)
  | OAuth20_TokenGrantV3Short cfg params basicAuth =>
      (Returned (env.(sdkServer) (count isSdk w.(trace)) cfg params basicAuth),
       log (ObsSdk cfg params basicAuth) w)
  | apiClient_Do req =>
      (Returned (env.(apiServer) (count isApi w.(trace)) req), log (ObsApi req) w)
  | mu_RLock =>
      if w.(mu).(writer) then (Blocked, w)
      else (Returned tt, set_mu (mkRWMutex (S w.(mu).(readers)) false) w)
  | mu_RUnlock =>
      match w.(mu).(readers) with
      | O => (Panicked "sync: RUnlock of unlocked RWMutex", w)
      | S n => (Returned tt, set_mu (mkRWMutex n w.(mu).(writer)) w)
      end
  | mu_Lock =>
      if orb w.(mu).(writer) (negb (Nat.eqb w.(mu).(readers) 0)) then (Blocked, w)
      else (Returned tt, set_mu (mkRWMutex 0 true) w)
  | mu_Unlock =>
      if w.(mu).(writer) then (Returned tt, set_mu (mkRWMutex w.(mu).(readers) false) w)
      else (Panicked "sync: Unlock of unlocked RWMutex", w)
  | load_currentToken => (Returned w.(currentToken), w)
  | store_currentToken t => (Returned tt, set_currentToken t w)
  | store_lastRequest r => (Returned tt, set_lastRequest r w)
  | store_lastResponse r => (Returned tt, set_lastResponse r w)
  end.

Fixpoint run (env : Env) {A : Type} (p : prog A) (w : World) : outcome A * World :=
  match p with
  | Ret a => (Returned a, w)
  | Vis e k =>
      match handle env e w with
      | (Returned x, w') => run env (k x) w'
      | (Panicked msg, w') => (Panicked msg, w')
      | (Blocked, w') => (Blocked, w')
      end
  | Spawn body k => run env k (start body w)
  | Throw msg => (Panicked msg, w)
  end.

(** Running a started goroutine to its end, its result dropped. *)
Definition run_goroutine (env : Env) (body : prog unit) (w : World) : outcome unit * World :=
  run env body w.

Definition andThen {A B : Type} (r : outcome A * World) (f : A -> World -> outcome B * World)
  : outcome B * World :=
  match r with
  | (Returned a, w) => f a w
  | (Panicked msg, w) => (Panicked msg, w)
  | (Blocked, w) => (Blocked, w)
  end.

Lemma run_bind (env : Env) {A B : Type} (p : prog A) (f : A -> prog B) (w : World) :
  run env (bind p f) w = andThen (run env p w) (fun a w' => run env (f a) w').
Proof.
  revert f w.
  induction p as [A a | A X e k IH | A body _ k IH | A msg]; intros f w; simpl.
  - reflexivity.
  - destruct (handle env e w) as [[x | msg | ] w']; simpl; auto.
  - apply IH.
  - reflexivity.
Qed.

(* ------------------------------------------------------------------ *)
(** ** Standard-library encoders the mock token is built with          *)
(* ------------------------------------------------------------------ *)

(** A Go string is a sequence of bytes; so is a [string] here. *)
Definition byte (c : ascii) : Z := Z.of_N (N_of_ascii c).

Fixpoint take (n : nat) (s : string) : string :=      (* s[:n] *)
  match n, s with
  | S n', String c s' => String c (take n' s')
  | _, _ => EmptyString
  end.

Fixpoint drop (n : nat) (s : string) : string :=      (* s[n:] *)
  match n, s with
  | S n', String _ s' => drop n' s'
  | _, _ => s
  end.

Definition index_or_nul (table : string) (i : Z) : ascii :=
  match String.get (Z.to_nat i) table with
  | Some c => c
  | None => "000"%char
  end.

Module base64.

Definition encodeURL : string :=
  "ABCDEFGHIJKLMNOPQRSTUVWXYZabcdefghijklmnopqrstuvwxyz0123456789-_".

Definition enc (i : Z) : ascii := index_or_nul encodeURL i.

(** RawURLEncoding.EncodeToString: three bytes to four characters, the last
    one or two bytes to two or three characters, no padding. *)
Fixpoint EncodeToString (src : string) : string :=
  match src with
  | String a (String b (String c rest)) =>
      let val := Z.lor (Z.lor (Z.shiftl (byte a) 16) (Z.shiftl (byte b) 8)) (byte c) in
      String (enc (Z.land (Z.shiftr val 18) 63))
        (String (enc (Z.land (Z.shiftr val 12) 63))
          (String (enc (Z.land (Z.shiftr val 6) 63))
            (String (enc (Z.land val 63)) (EncodeToString rest))))
  | String a (String b EmptyString) =>
      let val := Z.lor (Z.shiftl (byte a) 16) (Z.shiftl (byte b) 8) in
      String (enc (Z.land (Z.shiftr val 18) 63))
        (String (enc (Z.land (Z.shiftr val 12) 63))
          (String (enc (Z.land (Z.shiftr val 6) 63)) EmptyString))
  | String a EmptyString =>
      let val := Z.shiftl (byte a) 16 in
      String (enc (Z.land (Z.shiftr val 18) 63))
        (String (enc (Z.land (Z.shiftr val 12) 63)) EmptyString)
  | EmptyString => EmptyString
  end.

End base64.

Module utf8.

Definition RuneError : Z := 65533.      (* U+FFFD *)
Definition RuneSelf : Z := 128.
Definition UTFMax : nat := 4.

(** The [first] table: what a leading byte announces. *)
Inductive lead : Type :=
| as_ascii
| xx                                  (* never starts a sequence *)
| multi (size : nat) (lo hi : Z).     (* length and the range of the second byte *)

Definition first (b : Z) : lead :=
  if b <? 128 then as_ascii
  else if b <? 194 then xx
  else if b <? 224 then multi 2 128 191
  else if b =? 224 then multi 3 160 191
  else if b <? 237 then multi 3 128 191
  else if b =? 237 then multi 3 128 159
  else if b <? 240 then multi 3 128 191
  else if b =? 240 then multi 4 144 191
  else if b <? 244 then multi 4 128 191
  else if b =? 244 then multi 4 128 143
  else xx.

Definition locb : Z := 128.
Definition hicb : Z := 191.
Definition maskx : Z := 63.
Definition mask2 : Z := 31.
Definition mask3 : Z := 15.
Definition mask4 : Z := 7.

Definition DecodeRuneInString (s : string) : Z * nat :=
  match s with
  | EmptyString => (RuneError, O)
  | String c0 t0 =>
    let s0 := byte c0 in
    match first s0 with
    | as_ascii => (s0, 1%nat)
    | xx => (RuneError, 1%nat)
    | multi sz lo hi =>
      if Nat.ltb (String.length s) sz then (RuneError, 1%nat) else
      match t0 with
      | EmptyString => (RuneError, 1%nat)
      | String c1 t1 =>
        let s1 := byte c1 in
        if orb (s1 <? lo) (hi <? s1) then (RuneError, 1%nat) else
        if Nat.leb sz 2 then
          (Z.lor (Z.shiftl (Z.land s0 mask2) 6) (Z.land s1 maskx), 2%nat)
        else
        match t1 with
        | EmptyString => (RuneError, 1%nat)
        | String c2 t2 =>
          let s2 := byte c2 in
          if orb (s2 <? locb) (hicb <? s2) then (RuneError, 1%nat) else
          if Nat.leb sz 3 then
            (Z.lor (Z.lor (Z.shiftl (Z.land s0 mask3) 12) (Z.shiftl (Z.land s1 maskx) 6))
                   (Z.land s2 maskx), 3%nat)
          else
          match t2 with
          | EmptyString => (RuneError, 1%nat)
          | String c3 _ =>
            let s3 := byte c3 in
            if orb (s3 <? locb) (hicb <? s3) then (RuneError, 1%nat) else
            (Z.lor (Z.lor (Z.lor (Z.shiftl (Z.land s0 mask4) 18)
                                 (Z.shiftl (Z.land s1 maskx) 12))
                          (Z.shiftl (Z.land s2 maskx) 6))
                   (Z.land s3 maskx), 4%nat)
          end
        end
      end
    end
  end.

(** utf8.ValidString: no position decodes to the one-byte error rune. *)
Fixpoint validLoop (fuel : nat) (s : string) : bool :=
  match fuel with
  | O => true
  | S fuel' =>
    match s with
    | EmptyString => true
    | String c _ =>
      if byte c <? RuneSelf then validLoop fuel' (drop 1 s)
      else
        let '(r, size) := DecodeRuneInString s in
        if andb (r =? RuneError) (Nat.eqb size 1) then false
        else validLoop fuel' (drop size s)
    end
  end.

Definition ValidString (s : string) : bool := validLoop (String.length s) s.

End utf8.

Module json.

Definition hex : string := "0123456789abcdef".
Definition quote : ascii := "034"%char.
Definition backslash : ascii := "092"%char.

(** htmlSafeSet: the ASCII bytes written as they are. *)
Definition htmlSafe (b : Z) : bool :=
  andb (andb (32 <=? b) (b <? 128))
       (negb (orb (orb (b =? 34) (b =? 38)) (orb (orb (b =? 60) (b =? 62)) (b =? 92)))).

(** The escape of an ASCII byte outside the safe set. *)
Definition escapeByte (c : ascii) : string :=
  let b := byte c in
  if orb (b =? 92) (b =? 34) then String backslash (String c EmptyString)
  else if b =? 8 then String backslash "b"
  else if b =? 12 then String backslash "f"
  else if b =? 10 then String backslash "n"
  else if b =? 13 then String backslash "r"
  else if b =? 9 then String backslash "t"
  else String backslash "u00" ++ String (index_or_nul hex (Z.shiftr b 4))
                   (String (index_or_nul hex (Z.land b 15)) EmptyString).

(** The loop of [appendString] (escapeHTML on, short escapes as of Go 1.22)
    over what is left of [src]; every turn consumes at least one byte, so
    [len(src)] turns are enough. *)
Fixpoint appendLoop (fuel : nat) (src : string) : string :=
  match fuel with
  | O => EmptyString
  | S fuel' =>
    match src with
    | EmptyString => EmptyString
    | String c rest =>
      let b := byte c in
      if b <? utf8.RuneSelf then
        if htmlSafe b then String c (appendLoop fuel' rest)
        else escapeByte c ++ appendLoop fuel' rest
      else
        let '(r, size) := utf8.DecodeRuneInString (take utf8.UTFMax src) in
        if andb (r =? utf8.RuneError) (Nat.eqb size 1) then
          String backslash "ufffd" ++ appendLoop fuel' (drop size src)
        else if orb (r =? 8232) (r =? 8233) then
          String backslash "u202" ++ String (index_or_nul hex (Z.land r 15)) (appendLoop fuel' (drop size src))
        else
          take size src ++ appendLoop fuel' (drop size src)
    end
  end.

Definition appendString (src : string) : string :=
  String quote (appendLoop (String.length src) src ++ String quote EmptyString).

(** The values stored in the [map[string]interface{}] literals. *)
Inductive GoAny : Type :=
| AnyString (s : string)
| AnyInt64 (n : Z).

Definition marshalValue (v : GoAny) : string :=
  match v with
  | AnyString s => appendString s
  | AnyInt64 n => GoInt.Itoa n
  end.

Fixpoint insertByKey (kv : string * GoAny) (l : list (string * GoAny)) : list (string * GoAny) :=
  match l with
  | [] => [kv]
  | kv' :: l' => if String.leb (fst kv) (fst kv') then kv :: l else kv' :: insertByKey kv l'
  end.

Definition sortByKey (m : list (string * GoAny)) : list (string * GoAny) :=
  fold_right insertByKey [] m.

Fixpoint members (l : list (string * GoAny)) : string :=
  match l with
  | [] => EmptyString
  | [(k, v)] => appendString k ++ ":" ++ marshalValue v
  | (k, v) :: l' => appendString k ++ ":" ++ marshalValue v ++ "," ++ members l'
  end.

(** json.Marshal of a map: members in the order of their keys. *)
Definition Marshal (m : list (string * GoAny)) : string :=
  "{" ++ members (sortByKey m) ++ "}".

End json.

(* ------------------------------------------------------------------ *)
(** ** HTTPAPIClient: the request executor                             *)
(* ------------------------------------------------------------------ *)

Module api.

(** A request body ([interface{}]) as [json.Marshal] sees it: a value with a
    JSON text, or one it rejects. *)
Inductive GoValue : Type :=
| Marshalable (jsonBytes : string)
| Unmarshalable (err : error).

Definition json_Marshal (v : GoValue) : string + error :=
  match v with
  | Marshalable b => inl b
  | Unmarshalable e => inr e
  end.

(** [lastRequest] and [lastResponse] live in the shared state. *)
Record HTTPAPIClient (P : Type) : Type := NewHTTPAPIClient {
  baseURL : string;
  authProvider : P;
  userID : string
}.

Definition DoResult : Type := option Response * option error.

Definition recordRequest (req : Request) (body : string) : prog unit :=
  url <- call (URL_String req.(URL)) ;;
  call (store_lastRequest (mkRequestDebugInfo req.(Method) url req.(Header) body)).

(** The body is read to its end and put back as an equal reader. *)
Definition recordResponse (resp : Response) (duration : time.Duration) : prog Response :=
  let bodyBytes := resp.(RespBody) in
  let resp := mkResponse resp.(StatusCode) resp.(RespHeader) bodyBytes in
  call (store_lastResponse
          (mkResponseDebugInfo resp.(StatusCode) resp.(RespHeader) bodyBytes duration)) ;;
  Ret resp.

Definition maxRetries : Z := 3.

(** time.Duration(1<<uint(attempt-1)) * time.Second *)
Definition backoff (attempt : Z) : time.Duration :=
  time.scale (GoInt.wrap64 (Z.shiftl 1 (attempt - 1))) time.Second.

(** fmt.Errorf("request failed after %d attempts: %w", maxRetries, lastErr) *)
Definition exhausted (lastErr : option error) : error :=
  let prefix := "request failed after " ++ GoInt.Itoa maxRetries ++ " attempts: " in
  match lastErr with
  | Some e => wrapError (prefix ++ Error e) e
  | None => errorString (prefix ++ "%!w(<nil>)")
  end.

(** The [for attempt := ...; attempt < maxRetries; attempt++] loop, with
    [left] iterations to go. *)
Fixpoint retryLoop (left : nat) (attempt : Z) (req : Request) (lastErr : option error)
  : prog DoResult :=
  match left with
  | O => Ret (None, Some (exhausted lastErr))
  | S left' =>
      (if 0 <? attempt then call (time_Sleep (backoff attempt)) else Ret tt) ;;
      startTime <- call time_Now ;;
      r <- call (apiClient_Do req) ;;
      now <- call time_Now ;;                     (* time.Since(startTime) *)
      let duration := time.Sub now startTime in
      match r with
      | inr err => retryLoop left' (attempt + 1) req (Some err)
      | inl resp =>
          resp <- recordResponse resp duration ;;
          if 500 <=? resp.(StatusCode) then
            retryLoop left' (attempt + 1) req
                      (Some (Errorf_d "server error: status " resp.(StatusCode)))
          else
            Ret (Some resp, None)
      end
  end.

Definition doRequest {P : Type} `{Provider.AuthProvider P} (c : HTTPAPIClient P)
           (method path : string) (body : option GoValue) : prog DoResult :=
  let url := c.(baseURL) ++ path in
  match
    match body with
    | None => inl (NoBody, "")
    | Some v =>
        match json_Marshal v with
        | inr err => inr (Errorf_w "marshal request body: " err)
        | inl jsonBytes => inl (BytesBody jsonBytes, jsonBytes)
        end
    end
  with
  | inr err => Ret (None, Some err)
  | inl (reqBody, bodyStr) =>
      r <- call (http_NewRequestWithContext method url reqBody) ;;
      match r with
      | inr err => Ret (None, Some (Errorf_w "create request: " err))
      | inl req =>
          let req := Header_Set req "Content-Type" "application/json" in
          let req := Header_Set req "Accept" "application/json" in
          let req := if negb (String.eqb c.(userID) "")
                     then Header_Set req "x-mock-user-id" c.(userID) else req in
          r <- Provider.GetToken c.(authProvider) ;;
          let '(token, err) := r in
          match err with
          | Some err => Ret (None, Some (Errorf_w "get auth token: " err))
          | None =>
              match token with
              | None => Throw nilDeref              (* token.AccessToken on nil *)
              | Some token =>
                  let req := Header_Set req "Authorization" ("Bearer " ++ token.(AccessToken)) in
                  recordRequest req bodyStr ;;
                  retryLoop (Z.to_nat (maxRetries - 0)) 0 req None
              end
          end
      end
  end.

(** fmt.Errorf("HTTP %d: %s", resp.StatusCode, body) for a status outside 200..299. *)
Definition checkStatusCode (resp : Response) : option error :=
  if andb (200 <=? resp.(StatusCode)) (resp.(StatusCode) <? 300) then None
  else Some (errorString ("HTTP " ++ GoInt.Itoa resp.(StatusCode) ++ ": " ++ resp.(RespBody))).

(** *** The models of the Challenge Service API (models.go) *)

Record Requirement : Type := mkRequirement {
  req_StatCode : string;
  req_Operator : string;
  req_TargetValue : Z            (* int32 *)
}.

Record Reward : Type := mkReward {
  rew_Type : string;
  rew_RewardID : string;
  rew_Quantity : Z               (* int32 *)
}.

Record Goal : Type := mkGoal {
  goal_ID : string;
  goal_Name : string;
  goal_Description : string;
  goal_Requirement : Requirement;
  goal_Reward : Reward;
  goal_Prerequisites : list string;
  goal_Progress : Z;             (* int32 *)
  goal_Status : string;
  goal_Locked : bool;
  goal_CompletedAt : string;
  goal_ClaimedAt : string;
  goal_IsActive : bool
}.

Record Challenge : Type := mkChallenge {
  ch_ID : string;
  ch_Name : string;
  ch_Description : string;
  ch_Goals : list Goal
}.

Record GetChallengesResponse : Type := mkGetChallengesResponse {
  Challenges : list Challenge
}.

Record ClaimResult : Type := mkClaimResult {
  cr_GoalID : string;
  cr_Status : string;
  cr_Reward : Reward;
  cr_ClaimedAt : string
}.

Record AssignedGoal : Type := mkAssignedGoal {
  ag_ChallengeID : string;
  ag_GoalID : string;
  ag_Name : string;
  ag_Description : string;
  ag_IsActive : bool;
  ag_AssignedAt : string;
  ag_ExpiresAt : string;
  ag_Progress : Z;
  ag_Target : Z;
  ag_Status : string
}.

Record InitializeResponse : Type := mkInitializeResponse {
  AssignedGoals : list AssignedGoal;
  NewAssignments : Z;
  TotalActive : Z
}.

Record SetGoalActiveResponse : Type := mkSetGoalActiveResponse {
  sga_ChallengeID : string;
  sga_GoalID : string;
  sga_IsActive : bool;
  sga_AssignedAt : string;
  sga_Message : string
}.

(** A nil slice and an empty one marshal differently: [None] is nil. *)
Record BatchSelectRequest : Type := mkBatchSelectRequest {
  GoalIDs : option (list string);
  bs_ReplaceExisting : bool
}.

Record BatchSelectResponse : Type := mkBatchSelectResponse {
  bs_SelectedGoals : list Goal;
  bs_ChallengeID : string;
  bs_TotalActiveGoals : Z;
  bs_ReplacedGoals : list string
}.

Record RandomSelectRequest : Type := mkRandomSelectRequest {
  Count : Z;                     (* int *)
  rs_ReplaceExisting : bool;
  ExcludeActive : bool
}.

Record RandomSelectResponse : Type := mkRandomSelectResponse {
  rs_SelectedGoals : list Goal;
  rs_ChallengeID : string;
  rs_TotalActiveGoals : Z;
  rs_ReplacedGoals : list string
}.

(** *** What json.Marshal writes for the request bodies *)

Definition marshalBool (b : bool) : string := if b then "true" else "false".

Fixpoint marshalElems (l : list string) : string :=
  match l with
  | [] => EmptyString
  | [x] => json.appendString x
  | x :: l' => json.appendString x ++ "," ++ marshalElems l'
  end.

(** A []string: null when nil, the quoted elements in brackets otherwise. *)
Definition marshalStrings (l : option (list string)) : string :=
  match l with
  | None => "null"
  | Some l => "[" ++ marshalElems l ++ "]"
  end.

(** map[string]bool{"isActive": isActive} *)
Definition marshalIsActive (isActive : bool) : string :=
  "{" ++ json.appendString "isActive" ++ ":" ++ marshalBool isActive ++ "}".

(** A request pointer handed over as [interface{}]: the interface is not nil
    even when the pointer is, and a nil pointer marshals as null. *)
Definition marshalBatchSelectRequest (req : option BatchSelectRequest) : string :=
  match req with
  | None => "null"
  | Some r =>
      "{" ++ json.appendString "goal_ids" ++ ":" ++ marshalStrings r.(GoalIDs) ++ "," ++
      json.appendString "replace_existing" ++ ":" ++ marshalBool r.(bs_ReplaceExisting) ++ "}"
  end.

Definition marshalRandomSelectRequest (req : option RandomSelectRequest) : string :=
  match req with
  | None => "null"
  | Some r =>
      "{" ++ json.appendString "count" ++ ":" ++ GoInt.Itoa r.(Count) ++ "," ++
      json.appendString "replace_existing" ++ ":" ++ marshalBool r.(rs_ReplaceExisting) ++ "," ++
      json.appendString "exclude_active" ++ ":" ++ marshalBool r.(ExcludeActive) ++ "}"
  end.

(** *** The endpoints *)

(** json.NewDecoder(resp.Body).Decode(&v) for a target of type [T] that starts
    as the zero value: what the decoder makes of the body bytes. *)
Class Decoder (T : Type) : Type := Decode : string -> T + error.

Section Endpoints.

Context {P : Type} `{Provider.AuthProvider P}.
Context `{Decoder GetChallengesResponse} `{Decoder Challenge} `{Decoder ClaimResult}
        `{Decoder InitializeResponse} `{Decoder SetGoalActiveResponse}
        `{Decoder BatchSelectResponse} `{Decoder RandomSelectResponse}.

Definition ListChallenges (c : HTTPAPIClient P) : prog (list Challenge * option error) :=
  r <- doRequest c "GET" "/v1/challenges" None ;;
  let '(resp, err) := r in
  match err with
  | Some err => Ret ([], Some (Errorf_w "list challenges: " err))
  | None =>
    match resp with
    | None => Throw nilDeref                    (* resp.Body on nil *)
    | Some resp =>
      match checkStatusCode resp with
      | Some err => Ret ([], Some err)
      | None =>
        match Decode resp.(RespBody) with
        | inr err => Ret ([], Some (Errorf_w "decode response: " err))
        | inl response => Ret (response.(Challenges), None)
        end
      end
    end
  end.

Definition GetChallenge (c : HTTPAPIClient P) (challengeID : string)
  : prog (option Challenge * option error) :=
  let path := "/v1/challenges/" ++ challengeID in
  r <- doRequest c "GET" path None ;;
  let '(resp, err) := r in
  match err with
  | Some err => Ret (None, Some (Errorf_w "get challenge: " err))
  | None =>
    match resp with
    | None => Throw nilDeref
    | Some resp =>
      match checkStatusCode resp with
      | Some err => Ret (None, Some err)
      | None =>
        match Decode resp.(RespBody) with
        | inr err => Ret (None, Some (Errorf_w "decode response: " err))
        | inl challenge => Ret (Some challenge, None)
        end
      end
    end
  end.

Definition ClaimReward (c : HTTPAPIClient P) (challengeID goalID : string)
  : prog (option ClaimResult * option error) :=
  let path := "/v1/challenges/" ++ challengeID ++ "/goals/" ++ goalID ++ "/claim" in
  r <- doRequest c "POST" path (Some (Marshalable (json.Marshal []))) ;;
  let '(resp, err) := r in
  match err with
  | Some err => Ret (None, Some (Errorf_w "claim reward: " err))
  | None =>
    match resp with
    | None => Throw nilDeref
    | Some resp =>
      match checkStatusCode resp with
      | Some err => Ret (None, Some err)
      | None =>
        match Decode resp.(RespBody) with
        | inr err => Ret (None, Some (Errorf_w "decode response: " err))
        | inl result => Ret (Some result, None)
        end
      end
    end
  end.

Definition InitializePlayer (c : HTTPAPIClient P)
  : prog (option InitializeResponse * option error) :=
  let emptyBody := Marshalable (json.Marshal []) in
  r <- doRequest c "POST" "/v1/challenges/initialize" (Some emptyBody) ;;
  let '(resp, err) := r in
  match err with
  | Some err => Ret (None, Some (Errorf_w "initialize player: " err))
  | None =>
    match resp with
    | None => Throw nilDeref
    | Some resp =>
      match checkStatusCode resp with
      | Some err => Ret (None, Some err)
      | None =>
        match Decode resp.(RespBody) with
        | inr err => Ret (None, Some (Errorf_w "decode response: " err))
        | inl result => Ret (Some result, None)
        end
      end
    end
  end.

Definition SetGoalActive (c : HTTPAPIClient P) (challengeID goalID : string) (isActive : bool)
  : prog (option SetGoalActiveResponse * option error) :=
  let path := "/v1/challenges/" ++ challengeID ++ "/goals/" ++ goalID ++ "/active" in
  let body := Marshalable (marshalIsActive isActive) in
  r <- doRequest c "PUT" path (Some body) ;;
  let '(resp, err) := r in
  match err with
  | Some err => Ret (None, Some (Errorf_w "set goal active: " err))
  | None =>
    match resp with
    | None => Throw nilDeref
    | Some resp =>
      match checkStatusCode resp with
      | Some err => Ret (None, Some err)
      | None =>
        match Decode resp.(RespBody) with
        | inr err => Ret (None, Some (Errorf_w "decode response: " err))
        | inl result => Ret (Some result, None)
        end
      end
    end
  end.

Definition BatchSelectGoals (c : HTTPAPIClient P) (challengeID : string)
           (req : option BatchSelectRequest)
  : prog (option BatchSelectResponse * option error) :=
  let path := "/v1/challenges/" ++ challengeID ++ "/goals/batch-select" in
  r <- doRequest c "POST" path (Some (Marshalable (marshalBatchSelectRequest req))) ;;
  let '(resp, err) := r in
  match err with
  | Some err => Ret (None, Some (Errorf_w "batch select goals: " err))
  | None =>
    match resp with
    | None => Throw nilDeref
    | Some resp =>
      match checkStatusCode resp with
      | Some err => Ret (None, Some err)
      | None =>
        match Decode resp.(RespBody) with
        | inr err => Ret (None, Some (Errorf_w "decode response: " err))
        | inl result => Ret (Some result, None)
        end
      end
    end
  end.

Definition RandomSelectGoals (c : HTTPAPIClient P) (challengeID : string)
           (req : option RandomSelectRequest)
  : prog (option RandomSelectResponse * option error) :=
  let path := "/v1/challenges/" ++ challengeID ++ "/goals/random-select" in
  r <- doRequest c "POST" path (Some (Marshalable (marshalRandomSelectRequest req))) ;;
  let '(resp, err) := r in
  match err with
  | Some err => Ret (None, Some (Errorf_w "random select goals: " err))
  | None =>
    match resp with
    | None => Throw nilDeref
    | Some resp =>
      match checkStatusCode resp with
      | Some err => Ret (None, Some err)
      | None =>
        match Decode resp.(RespBody) with
        | inr err => Ret (None, Some (Errorf_w "decode response: " err))
        | inl result => Ret (Some result, None)
        end
      end
    end
  end.

Definition ListChallengesWithFilter (c : HTTPAPIClient P) (activeOnly : bool)
  : prog (list Challenge * option error) :=
  let path := "/v1/challenges" in
  let path := if activeOnly then path ++ "?active_only=true" else path in
  r <- doRequest c "GET" path None ;;
  let '(resp, err) := r in
  match err with
  | Some err => Ret ([], Some (Errorf_w "list challenges: " err))
  | None =>
    match resp with
    | None => Throw nilDeref
    | Some resp =>
      match checkStatusCode resp with
      | Some err => Ret ([], Some err)
      | None =>
        match Decode resp.(RespBody) with
        | inr err => Ret ([], Some (Errorf_w "decode response: " err))
        | inl response => Ret (response.(Challenges), None)
        end
      end
    end
  end.

End Endpoints.

End api.

(* ------------------------------------------------------------------ *)
(** ** MockAuthProvider and generateMockJWT                            *)
(* ------------------------------------------------------------------ *)

Module Mock.

(** [token] lives in the shared state; there is no lock. *)
Record MockAuthProvider : Type := mkMockAuthProvider {
  userID : string;
  namespace : string
}.

Definition mockJWT (userID namespace : string) (iat exp : Z) : string :=
  let header := [("alg", json.AnyString "HS256"); ("typ", json.AnyString "JWT")] in
  let payload := [("sub", json.AnyString userID);
                  ("namespace", json.AnyString namespace);
                  ("iat", json.AnyInt64 iat);
                  ("exp", json.AnyInt64 exp)] in
  let headerJSON := json.Marshal header in
  let payloadJSON := json.Marshal payload in
  let headerB64 := base64.EncodeToString headerJSON in
  let payloadB64 := base64.EncodeToString payloadJSON in
  headerB64 ++ "." ++ payloadB64 ++ ".mock-signature".

Definition generateMockJWT (userID namespace : string) : prog string :=
  t1 <- call time_Now ;;
  t2 <- call time_Now ;;
  Ret (mockJWT userID namespace (time.Unix t1) (time.Unix (time.Add t2 (1 * time.Hour)))).

Definition NewMockAuthProvider (userID namespace : string) : prog MockAuthProvider :=
  jwt <- generateMockJWT userID namespace ;;
  now <- call time_Now ;;
  let token := mkToken jwt "Bearer" (time.Add now (1 * time.Hour)) "" in
  call (store_currentToken (Some token)) ;;
  Ret (mkMockAuthProvider userID namespace).

Definition Authenticate (p : MockAuthProvider) : prog TokenResult :=
  token <- call load_currentToken ;;
  Ret (token, None).

Definition RefreshToken (p : MockAuthProvider) (token : option Token) : prog TokenResult :=
  jwt <- generateMockJWT p.(userID) p.(namespace) ;;
  now <- call time_Now ;;
  let newToken := mkToken jwt "Bearer" (time.Add now (1 * time.Hour)) "" in
  call (store_currentToken (Some newToken)) ;;
  Ret (Some newToken, None).

Definition GetToken (p : MockAuthProvider) : prog TokenResult :=
  token <- call load_currentToken ;;
  expired <- IsExpired token ;;
  if expired then
    token <- call load_currentToken ;;
    RefreshToken p token
  else
    token <- call load_currentToken ;;
    Ret (token, None).

Definition IsTokenValid (p : MockAuthProvider) (token : option Token) : prog bool :=
  match token with
  | None => Ret false
  | Some _ => expired <- IsExpired token ;; Ret (negb expired)
  end.

#[global] Instance provider : Provider.AuthProvider MockAuthProvider :=
  Provider.Build_AuthProvider Authenticate RefreshToken GetToken IsTokenValid.

End Mock.

(* ------------------------------------------------------------------ *)
(** ** Interleaving semantics                                          *)
(* ------------------------------------------------------------------ *)

Module Conc.

(** The shared reference: whole, or in the middle of being written. *)
Inductive cell : Type :=
| Whole (t : option Token)
| Torn.

Record Shared : Type := mkShared {
  sh_mu : RWMutex;
  sh_cell : cell
}.

(** A goroutine: running a program, or half-way through a store. *)
Inductive thread : Type :=
| Running (p : prog unit)
| Storing (t : option Token) (k : unit -> prog unit).

Inductive config : Type :=
| Cfg (sh : Shared) (threads : list thread)
| Race.

(** How an event concerns the lock and the cell. *)
Inductive kind : Type := KRLock | KRUnlock | KLock | KUnlock | KLoad | KStore | KOutside.

Definition kind_of {X : Type} (e : Event X) : kind :=
  match e with
  | mu_RLock => KRLock
  | mu_RUnlock => KRUnlock
  | mu_Lock => KLock
  | mu_Unlock => KUnlock
  | load_currentToken => KLoad
  | store_currentToken _ => KStore
  | _ => KOutside
  end.

(** One step of one goroutine: the shared state and the goroutine after it,
    and the goroutines it started.  The answers of the clock, the network and
    the other outside events are arbitrary. *)
Inductive tstep : Shared -> thread -> Shared -> thread -> list thread -> Prop :=
| t_outside : forall sh X (e : Event X) (k : X -> prog unit) (x : X),
    kind_of e = KOutside ->
    tstep sh (Running (Vis e k)) sh (Running (k x)) []
| t_rlock : forall n c k,
    tstep (mkShared (mkRWMutex n false) c) (Running (Vis mu_RLock k))
          (mkShared (mkRWMutex (S n) false) c) (Running (k tt)) []
| t_runlock : forall n b c k,
    tstep (mkShared (mkRWMutex (S n) b) c) (Running (Vis mu_RUnlock k))
          (mkShared (mkRWMutex n b) c) (Running (k tt)) []
| t_lock : forall c k,
    tstep (mkShared (mkRWMutex 0 false) c) (Running (Vis mu_Lock k))
          (mkShared (mkRWMutex 0 true) c) (Running (k tt)) []
| t_unlock : forall n c k,
    tstep (mkShared (mkRWMutex n true) c) (Running (Vis mu_Unlock k))
          (mkShared (mkRWMutex n false) c) (Running (k tt)) []
| t_load : forall m v k,
    tstep (mkShared m (Whole v)) (Running (Vis load_currentToken k))
          (mkShared m (Whole v)) (Running (k v)) []
| t_store_begin : forall m v t k,
    tstep (mkShared m (Whole v)) (Running (Vis (store_currentToken t) k))
          (mkShared m Torn) (Storing t k) []
| t_store_end : forall m c t k,
    tstep (mkShared m c) (Storing t k)
          (mkShared m (Whole t)) (Running (k tt)) []
| t_spawn : forall sh body k,
    tstep sh (Running (Spawn body k)) sh (Running k) [Running body].

(** A goroutine touches the reference while another one is writing it. *)
Inductive races : Shared -> thread -> Prop :=
| r_load : forall m k, races (mkShared m Torn) (Running (Vis load_currentToken k))
| r_store : forall m t k, races (mkShared m Torn) (Running (Vis (store_currentToken t) k)).

Inductive step : config -> config -> Prop :=
| s_thread : forall sh l1 th l2 sh' th' new,
    tstep sh th sh' th' new ->
    step (Cfg sh (l1 ++ th :: l2)) (Cfg sh' (l1 ++ th' :: l2 ++ new))
| s_race : forall sh l1 th l2,
    races sh th ->
    step (Cfg sh (l1 ++ th :: l2)) Race.

Inductive reachable (c0 : config) : config -> Prop :=
| reach_refl : reachable c0 c0
| reach_step : forall c c', reachable c0 c -> step c c' -> reachable c0 c'.

(** *** The locking discipline *)

Inductive mode : Type := U | R | W.     (* no lock, read lock, write lock held *)

Definition after (k : kind) (m : mode) : option mode :=
  match k, m with
  | KRLock, U => Some R
  | KRUnlock, R => Some U
  | KLock, U => Some W
  | KUnlock, W => Some U
  | KLoad, R => Some R
  | KLoad, W => Some W
  | KStore, W => Some W
  | KOutside, m => Some m
  | _, _ => None
  end.

(** [disciplined m p]: started with the lock held as [m] says, [p] takes and
    releases the lock in pairs, touches the reference only under it, writes
    only under the write lock, and ends holding nothing. *)
Fixpoint disciplined {A : Type} (m : mode) (p : prog A) : Prop :=
  match p with
  | Ret _ => m = U
  | Throw _ => m = U
  | Vis e k => exists m', after (kind_of e) m = Some m' /\ forall x, disciplined m' (k x)
  | Spawn body k => disciplined U body /\ disciplined m k
  end.

Definition thread_mode (m : mode) (th : thread) : Prop :=
  match th with
  | Running p => disciplined m p
  | Storing _ k => m = W /\ disciplined W (k tt)
  end.

Definition isR (m : mode) : bool := match m with R => true | _ => false end.
Definition isW (m : mode) : bool := match m with W => true | _ => false end.
Definition isStoring (th : thread) : bool :=
  match th with Storing _ _ => true | Running _ => false end.

Definition holders (f : mode -> bool) (ms : list mode) : nat := List.length (filter f ms).

(** The invariant of a pool of disciplined goroutines: the lock's counters
    are the goroutines' modes, the write lock excludes every other holder, and
    the reference is torn exactly while its one writer is storing. *)
Definition coherent (sh : Shared) (threads : list thread) : Prop :=
  exists ms : list mode,
    Forall2 thread_mode ms threads /\
    sh.(sh_mu).(readers) = holders isR ms /\
    (if sh.(sh_mu).(writer) then holders isW ms = 1%nat /\ holders isR ms = 0%nat
     else holders isW ms = 0%nat) /\
    (match sh.(sh_cell) with
     | Whole _ => List.length (filter isStoring threads) = 0%nat
     | Torn => List.length (filter isStoring threads) = 1%nat
     end).

(** The calls a networked provider offers, as goroutine bodies. *)
Inductive provider_call : prog unit -> Prop :=
| call_Client_GetToken : forall c, provider_call (Client.GetToken c ;; Ret tt)
| call_Client_Authenticate : forall c, provider_call (Client.Authenticate c ;; Ret tt)
| call_Client_RefreshToken : forall c tk, provider_call (Client.RefreshToken c tk ;; Ret tt)
| call_Password_GetToken : forall p, provider_call (Password.GetToken p ;; Ret tt)
| call_Password_Authenticate : forall p, provider_call (Password.Authenticate p ;; Ret tt)
| call_Password_RefreshToken : forall p tk, provider_call (Password.RefreshToken p tk ;; Ret tt).

End Conc.

(* ------------------------------------------------------------------ *)
(** ** More of the Go runtime: slicing, integer division, strings.Repeat *)
(* ------------------------------------------------------------------ *)

Definition len (s : string) : Z := Z.of_nat (String.length s).

(** A pure Go function that may panic: [Blocked] does not occur. *)
Definition bindOutcome {A B : Type} (r : outcome A) (f : A -> outcome B) : outcome B :=
  match r with
  | Returned a => f a
  | Panicked msg => Panicked msg
  | Blocked => Blocked
  end.

(** s[:hi] *)
Definition slice_to (s : string) (hi : Z) : outcome string :=
  if andb (0 <=? hi) (hi <=? len s) then Returned (take (Z.to_nat hi) s)
  else Panicked "slice bounds out of range".

(** l[i] *)
Definition index {A : Type} (l : list A) (i : Z) : outcome A :=
  if andb (0 <=? i) (i <? Z.of_nat (List.length l)) then
    match nth_error l (Z.to_nat i) with
    | Some a => Returned a
    | None => Panicked "index out of range"
    end
  else Panicked "index out of range".

(** x / y on int for y <> 0: the quotient is truncated toward zero, and
    the one overflow (the least int by -1) wraps. *)
Definition quot64 (x y : Z) : Z := GoInt.wrap64 (Z.quot x y).

Fixpoint replicate (n : nat) (s : string) : string :=
  match n with
  | O => EmptyString
  | S n' => s ++ replicate n' s
  end.

Module strings.

Definition Repeat (s : string) (count : Z) : outcome string :=
  if count <? 0 then Panicked "strings: negative Repeat count"
  else if GoInt.maxInt64 <? len s * count then Panicked "strings: Repeat output length overflow"
  else Returned (replicate (Z.to_nat count) s).

(** strings.HasSuffix *)
Definition HasSuffix (s suffix : string) : bool :=
  andb (len suffix <=? len s)
       (String.eqb (drop (String.length s - String.length suffix) s) suffix).

End strings.

(* ------------------------------------------------------------------ *)
(** ** Reward verification: package ags                                *)
(* ------------------------------------------------------------------ *)

Module ags.

(** *** verifier.go: the domain models *)

Record Entitlement : Type := mkEntitlement {
  EntitlementID : string;
  ItemID : string;
  ent_Namespace : string;
  ent_Status : string;
  Quantity : Z;                  (* int32 *)
  GrantedAt : time.Time
}.

Record Wallet : Type := mkWallet {
  WalletID : string;
  CurrencyCode : string;
  wal_Namespace : string;
  Balance : Z;                   (* int64 *)
  wal_Status : string
}.

(** *** mock_verifier.go *)

(** The slices hold pointers; [None] is a nil entry. *)
Record MockRewardVerifier : Type := mkMockRewardVerifier {
  Entitlements : list (option Entitlement);
  Wallets : list (option Wallet);
  mock_Error : option error
}.

Definition NewMockRewardVerifier : prog MockRewardVerifier :=
  t1 <- call time_Now ;;
  t2 <- call time_Now ;;
  Ret (mkMockRewardVerifier
         [Some (mkEntitlement "ent-mock-1" "winter_sword" "demo" "ACTIVE" 1
                              (time.Add t1 (-24 * time.Hour)));
          Some (mkEntitlement "ent-mock-2" "bronze_shield" "demo" "ACTIVE" 2
                              (time.Add t2 (-48 * time.Hour)))]
         [Some (mkWallet "wallet-mock-1" "GOLD" "demo" 150 "ACTIVE");
          Some (mkWallet "wallet-mock-2" "GEMS" "demo" 25 "ACTIVE")]
         None).

(** for _, ent := range m.Entitlements { if ent.ItemID == itemID { return ent, nil } } *)
Fixpoint findEntitlement (itemID : string) (l : list (option Entitlement))
  : outcome (option Entitlement) :=
  match l with
  | [] => Returned None
  | None :: _ => Panicked nilDeref
  | Some ent :: l' =>
      if String.eqb ent.(ItemID) itemID then Returned (Some ent)
      else findEntitlement itemID l'
  end.

Definition GetUserEntitlement (m : MockRewardVerifier) (itemID : string)
  : outcome (option Entitlement * option error) :=
  match m.(mock_Error) with
  | Some err => Returned (None, Some err)
  | None =>
      bindOutcome (findEntitlement itemID m.(Entitlements)) (fun found =>
      match found with
      | Some ent => Returned (Some ent, None)
      | None => Returned (None, Some (errorString ("entitlement not found for item: " ++ itemID)))
      end)
  end.

(** A map[string]string, read by key. *)
Definition Filters : Type := list (string * string).

Fixpoint lookup (key : string) (filters : Filters) : option string :=
  match filters with
  | [] => None
  | (k, v) :: rest => if String.eqb k key then Some v else lookup key rest
  end.

Fixpoint filterByStatus (status : string) (l : list (option Entitlement))
  : outcome (list (option Entitlement)) :=
  match l with
  | [] => Returned []
  | None :: _ => Panicked nilDeref
  | Some ent :: l' =>
      bindOutcome (filterByStatus status l') (fun rest =>
      Returned (if String.eqb ent.(ent_Status) status then Some ent :: rest else rest))
  end.

Definition QueryUserEntitlements (m : MockRewardVerifier) (filters : Filters)
  : outcome (list (option Entitlement) * option error) :=
  match m.(mock_Error) with
  | Some err => Returned ([], Some err)
  | None =>
      match lookup "status" filters with
      | Some status =>
          bindOutcome (filterByStatus status m.(Entitlements)) (fun filtered => Returned (filtered, None))
      | None => Returned (m.(Entitlements), None)
      end
  end.

Fixpoint findWallet (currencyCode : string) (l : list (option Wallet))
  : outcome (option Wallet) :=
  match l with
  | [] => Returned None
  | None :: _ => Panicked nilDeref
  | Some wallet :: l' =>
      if String.eqb wallet.(CurrencyCode) currencyCode then Returned (Some wallet)
      else findWallet currencyCode l'
  end.

Definition GetUserWallet (m : MockRewardVerifier) (currencyCode : string)
  : outcome (option Wallet * option error) :=
  match m.(mock_Error) with
  | Some err => Returned (None, Some err)
  | None =>
      bindOutcome (findWallet currencyCode m.(Wallets)) (fun found =>
      match found with
      | Some wallet => Returned (Some wallet, None)
      | None => Returned (None, Some (errorString ("wallet not found for currency: " ++ currencyCode)))
      end)
  end.

Definition QueryUserWallets (m : MockRewardVerifier)
  : list (option Wallet) * option error :=
  match m.(mock_Error) with
  | Some err => ([], Some err)
  | None => (m.(Wallets), None)
  end.

(** *** ags_verifier.go: which errors are worth another try *)

(** The loop of [containsImpl], at index [i] with [left] turns to go. *)
Fixpoint containsLoop (left i : nat) (s substr : string) : bool :=
  match left with
  | O => false
  | S left' =>
      if String.eqb (substring i (String.length substr) s) substr then true
      else containsLoop left' (S i) s substr
  end.

(** for i := 0; i <= len(s)-len(substr); i++ *)
Definition containsImpl (s substr : string) : bool :=
  containsLoop (Z.to_nat (len s - len substr + 1)) 0 s substr.

Definition contains (s substr : string) : bool :=
  andb (len substr <=? len s)
       (orb (String.eqb s substr)
            (andb (0 <? len substr) (containsImpl s substr))).

Definition isRetryable (err : option error) : bool :=
  match err with
  | None => false
  | Some err =>
      let errStr := Error err in
      if orb (contains errStr "timeout") (contains errStr "deadline exceeded") then true
      else if orb (contains errStr "connection refused") (contains errStr "no such host") then true
      else if orb (orb (contains errStr "500") (contains errStr "502"))
                  (orb (contains errStr "503") (contains errStr "504")) then true
      else if orb (contains errStr "429") (contains errStr "rate limit") then true
      else false
  end.

(** *** ags_verifier.go: the wallets of a user, through the Platform SDK *)

(** What the code reads of the SDK's models; every member is a pointer. *)
Record WalletInfo : Type := mkWalletInfo {
  wi_ID : option string;
  wi_Status : option string
}.

Record CurrencyWallet : Type := mkCurrencyWallet {
  cw_CurrencyCode : option string;
  cw_Balance : option Z;
  WalletInfos : list (option WalletInfo)
}.

Record AGSRewardVerifier : Type := mkAGSRewardVerifier {
  userID : string;
  namespace : string;
  maxRetries : Z;
  initialRetryDelay : time.Duration
}.

Definition NewAGSRewardVerifier (userID namespace : string) : AGSRewardVerifier :=
  mkAGSRewardVerifier userID namespace 3 (500 * time.Millisecond).

(** What the verifier asks of its surroundings. *)
Inductive Event : Type -> Type :=
| time_Sleep (d : time.Duration) : Event unit
| QueryUserCurrencyWalletsShort (namespace userID : string)
    : Event (list (option CurrencyWallet) * option error).

Inductive io : Type -> Type :=
| Done {A : Type} (a : A) : io A
| Do {A X : Type} (e : Event X) (k : X -> io A) : io A.

Fixpoint bind {A B : Type} (p : io A) : (A -> io B) -> io B :=
  match p in io A0 return (A0 -> io B) -> io B with
  | Done a => fun f => f a
  | Do e k => fun f => Do e (fun x => bind (k x) f)
  end.

Definition perform {X : Type} (e : Event X) : io X := Do e (fun x => Done x).

Declare Scope io_scope.
Delimit Scope io_scope with io.
Notation "x <- p ;; q" := (bind p (fun x => q))
  (at level 61, p at next level, right associativity) : io_scope.
Notation "p ;; q" := (bind p (fun _ => q))
  (at level 61, right associativity) : io_scope.

(** One SDK wallet as the domain model. *)
Definition toWallet (v : AGSRewardVerifier) (w : CurrencyWallet) : Wallet :=
  let currencyCode := match w.(cw_CurrencyCode) with Some c => c | None => "" end in
  let balance := match w.(cw_Balance) with Some b => b | None => 0 end in
  let '(walletID, status) :=
    match w.(WalletInfos) with
    | Some info :: _ =>
        (match info.(wi_ID) with Some id => id | None => "" end,
         match info.(wi_Status) with Some st => st | None => "" end)
    | _ => ("", "")
    end in
  mkWallet walletID currencyCode v.(namespace) balance status.

(** for _, w := range resp { if w == nil { continue } ... append } *)
Fixpoint toWallets (v : AGSRewardVerifier) (resp : list (option CurrencyWallet)) : list Wallet :=
  match resp with
  | [] => []
  | None :: rest => toWallets v rest
  | Some w :: rest => toWallet v w :: toWallets v rest
  end.

Definition doQueryUserWallets (v : AGSRewardVerifier) : io (list Wallet * option error) :=
  (r <- perform (QueryUserCurrencyWalletsShort v.(namespace) v.(userID)) ;;
   let '(resp, err) := r in
   match err with
   | Some err => Done ([], Some (Errorf_w "query wallets failed: " err))
   | None => Done (toWallets v resp, None)
   end)%io.

Definition doGetUserWallet (v : AGSRewardVerifier) (currencyCode : string)
  : io (option Wallet * option error) :=
  (r <- doQueryUserWallets v ;;
   let '(wallets, err) := r in
   match err with
   | Some err => Done (None, Some (Errorf_w "query wallets failed: " err))
   | None =>
       match find (fun w => String.eqb w.(CurrencyCode) currencyCode) wallets with
       | Some w => Done (Some w, None)
       | None =>
           Done (None, Some (errorString
                               ("wallet with currency code " ++ currencyCode ++ " not found")))
       end
   end)%io.

(** fmt.Errorf("failed after %d retries: %w", v.maxRetries, lastErr) *)
Definition failedAfter (maxRetries : Z) (lastErr : option error) : error :=
  let prefix := "failed after " ++ GoInt.Itoa maxRetries ++ " retries: " in
  match lastErr with
  | Some e => wrapError (prefix ++ Error e) e
  | None => errorString (prefix ++ "%!w(<nil>)")
  end.

(** The sleep at the head of a turn, and the delay of the next one. *)
Definition backoff (attempt : Z) (retryDelay : time.Duration) : io time.Duration :=
  (if 0 <? attempt then
     perform (time_Sleep retryDelay) ;;
     Done (GoInt.mul64 retryDelay 2)
   else Done retryDelay)%io.

(** The loop [for attempt := ...; attempt <= v.maxRetries; attempt++] of
    getUserWalletWithRetry, with [left] turns to go. *)
Fixpoint getUserWalletLoop (left : nat) (v : AGSRewardVerifier) (currencyCode : string)
         (attempt : Z) (retryDelay : time.Duration) (lastErr : option error)
  : io (option Wallet * option error) :=
  match left with
  | O => Done (None, Some (failedAfter v.(maxRetries) lastErr))
  | S left' =>
      (retryDelay <- backoff attempt retryDelay ;;
       r <- doGetUserWallet v currencyCode ;;
       let '(w, err) := r in
       match err with
       | None => Done (w, None)
       | Some e =>
           if negb (isRetryable err) then Done (None, err)
           else getUserWalletLoop left' v currencyCode (attempt + 1) retryDelay (Some e)
       end)%io
  end.

Definition getUserWalletWithRetry (v : AGSRewardVerifier) (currencyCode : string)
  : io (option Wallet * option error) :=
  getUserWalletLoop (Z.to_nat (v.(maxRetries) + 1)) v currencyCode 0 v.(initialRetryDelay) None.

(** The same loop in queryUserWalletsWithRetry. *)
Fixpoint queryUserWalletsLoop (left : nat) (v : AGSRewardVerifier)
         (attempt : Z) (retryDelay : time.Duration) (lastErr : option error)
  : io (list Wallet * option error) :=
  match left with
  | O => Done ([], Some (failedAfter v.(maxRetries) lastErr))
  | S left' =>
      (retryDelay <- backoff attempt retryDelay ;;
       r <- doQueryUserWallets v ;;
       let '(wallets, err) := r in
       match err with
       | None => Done (wallets, None)
       | Some e =>
           if negb (isRetryable err) then Done ([], err)
           else queryUserWalletsLoop left' v (attempt + 1) retryDelay (Some e)
       end)%io
  end.

Definition queryUserWalletsWithRetry (v : AGSRewardVerifier) : io (list Wallet * option error) :=
  queryUserWalletsLoop (Z.to_nat (v.(maxRetries) + 1)) v 0 v.(initialRetryDelay) None.

Definition AGS_GetUserWallet (v : AGSRewardVerifier) (currencyCode : string)
  : io (option Wallet * option error) :=
  getUserWalletWithRetry v currencyCode.

Definition AGS_QueryUserWallets (v : AGSRewardVerifier) : io (list Wallet * option error) :=
  queryUserWalletsWithRetry v.

(** *** Running the verifier against a platform *)

Inductive Obs : Type :=
| ObsSleep (d : time.Duration)
| ObsQuery (namespace userID : string).

Definition isQuery (o : Obs) : bool := match o with ObsQuery _ _ => true | _ => false end.

(** The platform answers the k-th query (k counted from 0). *)
Definition Platform : Type :=
  nat -> string -> string -> list (option CurrencyWallet) * option error.

Definition queries (log : list Obs) : nat := List.length (filter isQuery log).

Definition handle (platform : Platform) {X : Type} (e : Event X) (log : list Obs)
  : X * list Obs :=
  match e in Event X0 return X0 * list Obs with
  | time_Sleep d => (tt, (log ++ [ObsSleep d])%list)
  | QueryUserCurrencyWalletsShort ns uid =>
      (platform (queries log) ns uid, (log ++ [ObsQuery ns uid])%list)
  end.

Fixpoint exec (platform : Platform) {A : Type} (p : io A) (log : list Obs) : A * list Obs :=
  match p with
  | Done a => (a, log)
  | Do e k => let '(x, log') := handle platform e log in exec platform (k x) log'
  end.

End ags.

(* ------------------------------------------------------------------ *)
(** ** Command-line helpers: package commands                          *)
(* ------------------------------------------------------------------ *)

Module commands.

Definition truncate (s : string) (maxLen : Z) : outcome string :=
  if len s <=? maxLen then Returned s
  else if maxLen <=? 3 then slice_to s maxLen
  else bindOutcome (slice_to s (maxLen - 3)) (fun head => Returned (head ++ "...")).

End commands.

(* ------------------------------------------------------------------ *)
(** ** The challenge dashboard: package tui                            *)
(* ------------------------------------------------------------------ *)

Module tui.

(** The block characters of the progress bar, as their UTF-8 bytes. *)
Definition fullBlock : string := String "226" (String "150" (String "136" EmptyString)).
Definition lightShade : string := String "226" (String "150" (String "145" EmptyString)).

(** [int] is taken as 64 bits wide. *)
Definition renderProgressBar (current target width : Z) : outcome string :=
  if target =? 0 then
    bindOutcome (strings.Repeat lightShade width) (fun cells => Returned ("[" ++ cells ++ "]"))
  else
    let filled := quot64 (GoInt.mul64 current width) target in
    let filled := if width <? filled then width else filled in
    bindOutcome (strings.Repeat fullBlock filled) (fun done =>
    bindOutcome (strings.Repeat lightShade (GoInt.wrap64 (width - filled))) (fun todo =>
    Returned ("[" ++ done ++ todo ++ "]"))).

Inductive ViewMode : Type := ViewModeList | ViewModeDetail.

(** The messages the dashboard tells apart; [KeyMsg] carries msg.String(). *)
Inductive Msg : Type :=
| KeyMsg (key : string)
| ChallengesLoadedMsg (challenges : list api.Challenge) (err : option error)
| ClaimGoalMsg (result : option api.ClaimResult) (err : option error)
| OtherMsg.

(** The commands it hands back, by what they will run. *)
Inductive Cmd : Type :=
| loadChallengesCmd
| claimGoalCmd (challengeID goalID : string).

Record DashboardModel : Type := mkDashboardModel {
  challenges : list api.Challenge;
  viewMode : ViewMode;
  challengeCursor : Z;
  goalCursor : Z;
  loading : bool;
  claiming : bool;
  successMsg : string;
  errorMsg : string
}.

Definition NewDashboardModel : DashboardModel :=
  mkDashboardModel [] ViewModeList 0 0 false false "" "".

Definition Init (m : DashboardModel) : DashboardModel * option Cmd :=
  (mkDashboardModel m.(challenges) m.(viewMode) m.(challengeCursor) m.(goalCursor)
                    true m.(claiming) m.(successMsg) m.(errorMsg),
   Some loadChallengesCmd).

Definition isList (v : ViewMode) : bool :=
  match v with ViewModeList => true | ViewModeDetail => false end.

Definition set_challengeCursor (m : DashboardModel) (i : Z) : DashboardModel :=
  mkDashboardModel m.(challenges) m.(viewMode) i m.(goalCursor)
                   m.(loading) m.(claiming) m.(successMsg) m.(errorMsg).

Definition set_goalCursor (m : DashboardModel) (i : Z) : DashboardModel :=
  mkDashboardModel m.(challenges) m.(viewMode) m.(challengeCursor) i
                   m.(loading) m.(claiming) m.(successMsg) m.(errorMsg).

(** The check mark of the success message, as its UTF-8 bytes. *)
Definition checkMark : string := String "226" (String "156" (String "147" EmptyString)).

Definition Update (m : DashboardModel) (msg : Msg) : outcome (DashboardModel * option Cmd) :=
  let n := Z.of_nat (List.length m.(challenges)) in
  match msg with
  | KeyMsg key =>
      if orb (String.eqb key "up") (String.eqb key "k") then
        if isList m.(viewMode) then
          Returned (if 0 <? m.(challengeCursor)
                    then set_challengeCursor m (m.(challengeCursor) - 1) else m, None)
        else
          Returned (if 0 <? m.(goalCursor)
                    then set_goalCursor m (m.(goalCursor) - 1) else m, None)
      else if orb (String.eqb key "down") (String.eqb key "j") then
        if isList m.(viewMode) then
          Returned (if m.(challengeCursor) <? n - 1
                    then set_challengeCursor m (m.(challengeCursor) + 1) else m, None)
        else
          if m.(challengeCursor) <? n then
            bindOutcome (index m.(challenges) m.(challengeCursor)) (fun challenge =>
            Returned (if m.(goalCursor) <? Z.of_nat (List.length challenge.(api.ch_Goals)) - 1
                      then set_goalCursor m (m.(goalCursor) + 1) else m, None))
          else Returned (m, None)
      else if String.eqb key "enter" then
        if andb (isList m.(viewMode)) (0 <? n) then
          Returned (mkDashboardModel m.(challenges) ViewModeDetail m.(challengeCursor) 0
                                     m.(loading) m.(claiming) m.(successMsg) m.(errorMsg), None)
        else Returned (m, None)
      else if String.eqb key "esc" then
        if isList m.(viewMode) then Returned (m, None)
        else
          Returned (mkDashboardModel m.(challenges) ViewModeList m.(challengeCursor)
                                     m.(goalCursor) m.(loading) m.(claiming)
                                     m.(successMsg) m.(errorMsg), None)
      else if String.eqb key "r" then
        Returned (mkDashboardModel m.(challenges) m.(viewMode) m.(challengeCursor)
                                   m.(goalCursor) true m.(claiming) "" m.(errorMsg),
                  Some loadChallengesCmd)
      else if String.eqb key "c" then
        if andb (negb (isList m.(viewMode))) (m.(challengeCursor) <? n) then
          bindOutcome (index m.(challenges) m.(challengeCursor)) (fun challenge =>
          if m.(goalCursor) <? Z.of_nat (List.length challenge.(api.ch_Goals)) then
            bindOutcome (index challenge.(api.ch_Goals) m.(goalCursor)) (fun goal =>
            if String.eqb goal.(api.goal_Status) "completed" then
              Returned (mkDashboardModel m.(challenges) m.(viewMode) m.(challengeCursor)
                                         m.(goalCursor) m.(loading) true "" "",
                        Some (claimGoalCmd challenge.(api.ch_ID) goal.(api.goal_ID)))
            else Returned (m, None))
          else Returned (m, None))
        else Returned (m, None)
      else Returned (m, None)
  | ChallengesLoadedMsg loaded err =>
      match err with
      | Some err =>
          Returned (mkDashboardModel m.(challenges) m.(viewMode) m.(challengeCursor)
                                     m.(goalCursor) false m.(claiming) m.(successMsg)
                                     ("Failed to load challenges: " ++ Error err), None)
      | None =>
          let cursor := if Z.of_nat (List.length loaded) <=? m.(challengeCursor)
                        then 0 else m.(challengeCursor) in
          Returned (mkDashboardModel loaded m.(viewMode) cursor m.(goalCursor)
                                     false m.(claiming) m.(successMsg) "", None)
      end
  | ClaimGoalMsg _ err =>
      match err with
      | Some err =>
          Returned (mkDashboardModel m.(challenges) m.(viewMode) m.(challengeCursor)
                                     m.(goalCursor) m.(loading) false ""
                                     ("Failed to claim reward: " ++ Error err), None)
      | None =>
          Returned (mkDashboardModel m.(challenges) m.(viewMode) m.(challengeCursor)
                                     m.(goalCursor) true false
                                     (checkMark ++ " Reward claimed successfully!") "",
                    Some loadChallengesCmd)
      end
  | OtherMsg => Returned (m, None)
  end.

End tui.

(* ------------------------------------------------------------------ *)
(** ** Vocabulary of the statements *)
(* ------------------------------------------------------------------ *)

(** The four cases of [GetToken], for a provider [p] called in [w]: [now1]
    and [now2] are the first and second clock readings the call takes. *)
Definition four_branches {P : Type} `{Provider.AuthProvider P} (env : Env) (w : World) (p : P)
  : Prop :=
  let now1 := env.(clock) w.(ticks) in
  let now2 := env.(clock) (S w.(ticks)) in
  (* never obtained: authenticate, synchronously *)
  (w.(currentToken) = None ->
   run env (Provider.GetToken p) w = run env (Provider.Authenticate p) w) /\
  (* expiry passed: refresh with the current token, synchronously *)
  (forall t, w.(currentToken) = Some t -> t.(ExpiresAt) < now1 ->
   run env (Provider.GetToken p) w = run env (Provider.RefreshToken p (Some t)) (tick w)) /\
  (* expires within five minutes: the current token, and a goroutine started *)
  (forall t, w.(currentToken) = Some t -> now1 <= t.(ExpiresAt) ->
   t.(ExpiresAt) - now2 < 5 * time.Minute ->
   run env (Provider.GetToken p) w =
   (Returned (Some t, None),
    start (Provider.RefreshToken p (Some t) ;; Ret tt) (tick (tick w)))) /\
  (* otherwise: the current token, nothing else *)
  (forall t, w.(currentToken) = Some t -> now1 <= t.(ExpiresAt) ->
   5 * time.Minute <= t.(ExpiresAt) - now2 ->
   run env (Provider.GetToken p) w = (Returned (Some t, None), tick (tick w))).

(** The round trips the providers make. *)
Definition tokenEndpointRequest (c : Client.ClientAuthProvider) (data : list (string * string))
  : Request :=
  mkRequest "POST" (Client.iamURL c ++ "/v3/oauth/token")
            [("Content-Type", "application/x-www-form-urlencoded")]
            (Some (Client.clientID c, Client.clientSecret c))
            (FormBody data).

Definition clientGrant (c : Client.ClientAuthProvider) : Request :=
  tokenEndpointRequest c [("grant_type", "client_credentials")].

Definition clientRefresh (c : Client.ClientAuthProvider) (t : Token) : Request :=
  tokenEndpointRequest c [("grant_type", "refresh_token"); ("refresh_token", t.(RefreshToken))].

Definition passwordGrant (p : Password.PasswordAuthProvider) : Obs :=
  ObsSdk (Password.createIAMClient (Password.iamURL p))
         (mkParams "password" (Some (Password.email p)) (Some (Password.password p)) None)
         (Password.clientID p, Password.clientSecret p).

Definition passwordRefresh (p : Password.PasswordAuthProvider) (t : Token) : Obs :=
  ObsSdk (Password.createIAMClient (Password.iamURL p))
         (mkParams "refresh_token" None None (Some t.(RefreshToken)))
         (Password.clientID p, Password.clientSecret p).

(** The answer the token endpoint gives to the next call, made in [w]. *)
Definition iamAnswer (env : Env) (w : World) (req : Request) : IamResponse + error :=
  env.(iamServer) (count isIam w.(trace)) req.

Definition sdkAnswer (env : Env) (w : World) (o : Obs) : option TokenGrantV3OK * option error :=
  match o with
  | ObsSdk cfg params basicAuth => env.(sdkServer) (count isSdk w.(trace)) cfg params basicAuth
  | _ => (None, None)
  end.

(** The answer the resource API gives to the next call, made in [w]. *)
Definition apiAnswer (env : Env) (w : World) (req : Request) : Response + error :=
  env.(apiServer) (count isApi w.(trace)) req.

(** No member of the object is named [name], as encoding/json matches names:
    in any letter case, the long s and the Kelvin sign standing for s and k. *)
Definition lacks (name : string) (fields : list (string * JSON)) : Prop :=
  forall k v, In (k, v) fields -> EqualFold k name = false.

(** The call returns, with the lock released and no goroutine started. *)
Definition returns {A : Type} (w : World) (r : outcome A * World) : Prop :=
  exists a w', r = (Returned a, w') /\ w'.(mu) = unlocked /\ w'.(goroutines) = w.(goroutines).

(** [GetToken] returns, and whatever goroutine it started is a
    [RefreshToken] on a token that is there, which returns when it is run. *)
Definition GetToken_passes_a_token {P : Type} `{Provider.AuthProvider P}
           (env : Env) (w : World) (p : P) : Prop :=
  exists r w' new,
    run env (Provider.GetToken p) w = (Returned r, w') /\
    w'.(mu) = unlocked /\
    w'.(goroutines) = (w.(goroutines) ++ new)%list /\
    forall g, In g new ->
      (exists t, g = (Provider.RefreshToken p (Some t) ;; Ret tt)) /\
      (forall env' v, v.(mu) = unlocked -> returns v (run_goroutine env' g v)).

(** The request [doRequest] sends. *)
Definition builtRequest {P : Type} (c : api.HTTPAPIClient P) (method path : string)
           (reqBody : ReqBody) (token : Token) : Request :=
  let req := mkRequest method (api.baseURL c ++ path) [] None reqBody in
  let req := Header_Set req "Content-Type" "application/json" in
  let req := Header_Set req "Accept" "application/json" in
  let req := if negb (String.eqb (api.userID c) "")
             then Header_Set req "x-mock-user-id" (api.userID c) else req in
  Header_Set req "Authorization" ("Bearer " ++ token.(AccessToken)).

(** [json.Marshal] accepts the body (if any) and gives [bodyStr]. *)
Definition marshalled (body : option api.GoValue) (reqBody : ReqBody) (bodyStr : string) : Prop :=
  match body with
  | None => reqBody = NoBody /\ bodyStr = ""
  | Some v => api.json_Marshal v = inl bodyStr /\ reqBody = BytesBody bodyStr
  end.

(** [doRequest] gets as far as its loop: the body serializes, the request is
    accepted, and [GetToken] hands over [token], leaving the world [w']. *)
Definition reaches_loop {P : Type} `{Provider.AuthProvider P} (env : Env) (w : World)
           (c : api.HTTPAPIClient P) (method path : string) (body : option api.GoValue)
           (req : Request) (w1 : World) : Prop :=
  exists reqBody bodyStr token w',
    marshalled body reqBody bodyStr /\
    env.(newRequestErr) method (api.baseURL c ++ path) = None /\
    run env (Provider.GetToken (api.authProvider c)) w = (Returned (Some token, None), w') /\
    req = builtRequest c method path reqBody token /\
    w1 = set_lastRequest (mkRequestDebugInfo req.(Method) (env.(urlString) req.(URL))
                                             req.(Header) bodyStr) w'.

(** What an attempt leaves behind: the sleep before it, the round trip
    between two clock readings, and the response snapshot if one came. *)
Definition slept (attempt : Z) (w : World) : World :=
  if 0 <? attempt then log (ObsSleep (api.backoff attempt)) w else w.

Definition tried (req : Request) (w : World) : World :=
  tick (log (ObsApi req) (tick w)).

Definition snapshot (env : Env) (resp : Response) (w : World) : ResponseDebugInfo :=
  mkResponseDebugInfo resp.(StatusCode) resp.(RespHeader) resp.(RespBody)
    (time.Sub (env.(clock) (S w.(ticks))) (env.(clock) w.(ticks))).

(** An answer that makes the loop go on, and the error it leaves in [lastErr]. *)
Definition retryable (r : Response + error) : Prop :=
  match r with
  | inr _ => True
  | inl resp => 500 <= resp.(StatusCode)
  end.

Definition cause (r : Response + error) : error :=
  match r with
  | inr err => err
  | inl resp => Errorf_d "server error: status " resp.(StatusCode)
  end.

(** The observations of a call whose three tries all go on. *)
Definition schedule (req : Request) : list Obs :=
  [ObsApi req; ObsSleep (1 * time.Second); ObsApi req; ObsSleep (2 * time.Second); ObsApi req].

(** A token the mock provider for [userID] and [namespace] makes: the one
    its constructor stores, or one [RefreshToken] returns. *)
Definition synthesizes (env : Env) (w : World) (userID namespace : string) (tok : Token) : Prop :=
  currentToken (snd (run env (Mock.NewMockAuthProvider userID namespace) w)) = Some tok \/
  exists t, fst (run env (Mock.RefreshToken (Mock.mkMockAuthProvider userID namespace) t) w) =
            Returned (Some tok, None).

(* ------------------------------------------------------------------ *)
(** ** Concrete surroundings used in the examples *)
(* ------------------------------------------------------------------ *)

(** The state before anything happened. *)
Definition world0 : World := mkWorld 0 [] unlocked None None None [].

(** The same, with [t] as the current token. *)
Definition holding (t : Token) : World := set_currentToken (Some t) world0.

(** A transport-level failure. *)
Definition unreachable : error := errorString "dial tcp: connection refused".

(** A frozen clock and a network on which every call fails in transit.  (The
    URLs of the examples are plain: [String] gives them back as written.) *)
Definition offline (now : time.Time) : Env :=
  mkEnv (fun _ => now)
        (fun _ _ => None)
        (fun url => url)
        (fun _ _ => inr unreachable)
        (fun _ _ _ _ => (None, Some unreachable))
        (fun _ _ => inr unreachable).

(** A frozen clock, the token endpoint answering every call as given, and a
    resource API answering the k-th call with the k-th entry of [api]. *)
Definition scripted (now : time.Time)
           (iam : Request -> IamResponse + error)
           (sdk : TokenGrantV3Params -> option TokenGrantV3OK * option error)
           (api : list (Response + error)) : Env :=
  mkEnv (fun _ => now)
        (fun _ _ => None)
        (fun url => url)
        (fun _ req => iam req)
        (fun _ _ params _ => sdk params)
        (fun k _ => nth k api (inr unreachable)).

(** A service account and an end user. *)
Definition aClient : Client.ClientAuthProvider :=
  Client.NewClientAuthProvider "https://demo.accelbyte.io/iam" "svc" "secret" "demo".

Definition aUser : Password.PasswordAuthProvider :=
  Password.NewPasswordAuthProvider "https://demo.accelbyte.io/iam" "app" "secret" "demo"
                                   "alice@example.com" "hunter2".

(** The token a grant of t1 for an hour gives at time 900. *)
Definition granted : Token := mkToken "t1" "Bearer" 3600000000900 "".

(** Two goroutines: one authenticates, one asks for the token. *)
Definition twoCalls : list (prog unit) :=
  [Client.Authenticate aClient ;; Ret tt; Client.GetToken aClient ;; Ret tt].

(** The grant_type form field of a token request. *)
Definition grantType (req : Request) : string :=
  match req.(Body) with
  | FormBody values =>
      match find (fun kv => String.eqb (fst kv) "grant_type") values with
      | Some kv => snd kv
      | None => ""
      end
  | _ => ""
  end.

(** A token endpoint that rejects refresh grants with 401 and answers every
    other grant with the given body. *)
Definition rejectingRefresh (body : JSONText) (req : Request) : IamResponse + error :=
  if String.eqb (grantType req) "refresh_token"
  then inl (mkIamResponse 401 (Parsed JNull))
  else inl (mkIamResponse 200 body).

(** A request executor on top of the service account. *)
Definition anApp : api.HTTPAPIClient Client.ClientAuthProvider :=
  api.NewHTTPAPIClient "http://localhost:8000" aClient "".

(** A token that expires far after time 900. *)
Definition freshToken : Token := mkToken "t1" "Bearer" 5000000000000 "r1".

(** A resource API answering as scripted, seen at time 900 by a client that
    holds a fresh token. *)
Definition serving (answers : list (Response + error)) : Env :=
  scripted 900 (fun _ => inr unreachable) (fun _ => (None, None)) answers.

(** The request of ListChallenges, and the world its loop starts in. *)
Definition getChallenges : Request :=
  builtRequest anApp "GET" "/v1/challenges" NoBody freshToken.

Definition ready : World :=
  set_lastRequest (mkRequestDebugInfo "GET" "http://localhost:8000/v1/challenges"
                                      getChallenges.(Header) "")
                  (tick (tick (holding freshToken))).

(* ------------------------------------------------------------------ *)
(** ** Vocabulary of the proofs *)
(* ------------------------------------------------------------------ *)

(** Readers of what the encoders write, and measures on pools of
    goroutines; the proofs go through them, the statements do not. *)

Module pool.
Import Conc.

Definition storing (l : list thread) : nat := List.length (filter isStoring l).

End pool.

Module base64_back.
Import base64.

Definition dec (c : ascii) : Z :=
  match find (fun i => Ascii.eqb (enc (Z.of_nat i)) c) (seq 0 64) with
  | Some i => Z.of_nat i
  | None => -1
  end.

(** The value of a full group and of the two kinds of tail. *)
Definition group (a b c : ascii) : Z := byte a * 65536 + byte b * 256 + byte c.

End base64_back.

(** The byte [c] occurs in [s]. *)
Fixpoint occurs (c : ascii) (s : string) : bool :=
  match s with
  | EmptyString => false
  | String x s' => orb (Ascii.eqb x c) (occurs c s')
  end.

(** The bytes strconv writes for an integer. *)
Definition isDigitOrMinus (c : ascii) : bool :=
  orb (Ascii.eqb c "-") (andb (Nat.leb 48 (nat_of_ascii c)) (Nat.leb (nat_of_ascii c) 57)).

Module utf8_shape.
Import utf8.

(** The shapes a decoding of a non-ASCII position can take. *)
Definition decoded (c0 : ascii) (t0 : string) (r : Z) (size : nat) : Prop :=
  (r = RuneError /\ size = 1%nat) \/
  (exists c1 t1, t0 = String c1 t1 /\ size = 2%nat /\ 128 <= byte c1 /\ r < 2048) \/
  (exists c1 c2 t2, t0 = String c1 (String c2 t2) /\ size = 3%nat /\
     128 <= byte c1 < 192 /\ 128 <= byte c2 < 192 /\ 224 <= byte c0 < 240 /\
     r = (byte c0 mod 16) * 4096 + (byte c1 mod 64) * 64 + byte c2 mod 64) \/
  (exists c1 c2 c3 t3, t0 = String c1 (String c2 (String c3 t3)) /\ size = 4%nat /\
     128 <= byte c1 /\ 128 <= byte c2 /\ 128 <= byte c3 /\ 65536 <= r).

End utf8_shape.

Module json_back.
Import json.

Definition unhex (c : ascii) : option Z :=
  match find (fun i => Ascii.eqb (index_or_nul hex (Z.of_nat i)) c) (seq 0 16) with
  | Some i => Some (Z.of_nat i)
  | None => None
  end.

Definition lineSeparator : string := String "226" (String "128" (String "168" EmptyString)).
Definition paragraphSeparator : string :=
  String "226" (String "128" (String "169" EmptyString)).
Definition replacementChar : string := String "239" (String "191" (String "189" EmptyString)).

Definition unescShort (e : ascii) : option ascii :=
  if Ascii.eqb e quote then Some quote
  else if Ascii.eqb e backslash then Some backslash
  else if Ascii.eqb e "b" then Some "008"%char
  else if Ascii.eqb e "f" then Some "012"%char
  else if Ascii.eqb e "n" then Some "010"%char
  else if Ascii.eqb e "r" then Some "013"%char
  else if Ascii.eqb e "t" then Some "009"%char
  else None.

Definition unescU (h1 h2 h3 h4 : ascii) : option string :=
  let code := String h1 (String h2 (String h3 (String h4 EmptyString))) in
  if String.eqb code "2028" then Some lineSeparator
  else if String.eqb code "2029" then Some paragraphSeparator
  else if String.eqb code "fffd" then Some replacementChar
  else if andb (Ascii.eqb h1 "0") (Ascii.eqb h2 "0") then
    match unhex h3, unhex h4 with
    | Some x, Some y => Some (String (ascii_of_N (Z.to_N (x * 16 + y))) EmptyString)
    | _, _ => None
    end
  else None.

Definition prepend (p : string) (r : option (string * string)) : option (string * string) :=
  match r with
  | Some (d, rest) => Some ((p ++ d)%string, rest)
  | None => None
  end.

(** Reading an escaped text up to its closing quote: the text it stands
    for, and what follows the quote. *)
Fixpoint unesc (s : string) : option (string * string) :=
  match s with
  | EmptyString => None
  | String c rest =>
    if Ascii.eqb c quote then Some (EmptyString, rest)
    else if Ascii.eqb c backslash then
      match rest with
      | EmptyString => None
      | String e rest1 =>
        if Ascii.eqb e "u" then
          match rest1 with
          | String h1 (String h2 (String h3 (String h4 rest2))) =>
            match unescU h1 h2 h3 h4 with
            | Some p => prepend p (unesc rest2)
            | None => None
            end
          | _ => None
          end
        else
          match unescShort e with
          | Some b => prepend (String b EmptyString) (unesc rest1)
          | None => None
          end
      end
    else prepend (String c EmptyString) (unesc rest)
  end.

End json_back.

(** An object key as [json.Marshal] writes it, with its colon. *)
Definition key (k : string) : string := String json.quote (k ++ String json.quote ":").

(* ------------------------------------------------------------------ *)
(** ** Vocabulary of the further properties *)
(* ------------------------------------------------------------------ *)

(** How a provider call that started in [w] has ended in [w']: the lock is
    free again, and either it failed, handing back no token and leaving the
    current one alone, or the token it hands back is now the current one. *)
Definition settled (w w' : World) (r : TokenResult) : Prop :=
  w'.(mu) = unlocked /\
  match snd r with
  | Some _ => fst r = None /\ w'.(currentToken) = w.(currentToken)
  | None => fst r <> None /\ w'.(currentToken) = fst r
  end.

Definition finishes (env : Env) (w : World) (p : prog TokenResult) : Prop :=
  exists r w', run env p w = (Returned r, w') /\ settled w w' r.

(** The calls that left the process between [w] and [w']. *)
Definition asked (w w' : World) (new : list Obs) : Prop :=
  w'.(trace) = (w.(trace) ++ new)%list.

(** The calls a refresh can make: none, the grant alone, the refresh alone,
    or the refresh and then the grant. *)
Definition refresh_or_grant (refresh grant : Obs) (new : list Obs) : Prop :=
  new = [] \/ new = [grant] \/ new = [refresh] \/ new = [refresh; grant].

(** The goroutines started between [w] and [w']. *)
Definition started (w w' : World) (new : list (prog unit)) : Prop :=
  w'.(goroutines) = (w.(goroutines) ++ new)%list.

(** The call ends as [settled] says and has started no goroutine. *)
Definition finishes_alone (env : Env) (w : World) (p : prog TokenResult) : Prop :=
  exists r w', run env p w = (Returned r, w') /\ settled w w' r /\ started w w' [].

(** The background refresh of the token [t]: go func() { p.RefreshToken(ctx, t) }() *)
Definition refreshing {P : Type} `{Provider.AuthProvider P} (p : P) (t : Token) : prog unit :=
  Provider.RefreshToken p (Some t) ;; Ret tt.

(** The goroutines [GetToken] starts in [w]: the refresh of the token it
    finds, if that is not expired at the first clock reading and has less
    than five minutes left at the second; none otherwise. *)
Definition background {P : Type} `{Provider.AuthProvider P} (env : Env) (w : World) (p : P)
  : list (prog unit) :=
  match w.(currentToken) with
  | None => []
  | Some t =>
      if andb (env.(clock) w.(ticks) <=? t.(ExpiresAt))
              (t.(ExpiresAt) - env.(clock) (S w.(ticks)) <? 5 * time.Minute)
      then [refreshing p t] else []
  end.

(** [GetToken] ends as [settled] says; the one goroutine it may start is the
    refresh of the token it returns. *)
Definition GetToken_finishes {P : Type} `{Provider.AuthProvider P}
           (env : Env) (w : World) (p : P) : Prop :=
  exists r w',
    run env (Provider.GetToken p) w = (Returned r, w') /\ settled w w' r /\
    started w w' (background env w p) /\
    (background env w p = [] \/
     exists t, r = (Some t, None) /\ background env w p = [refreshing p t]).

(** [GetToken] in [w] returns; the calls it makes itself are those of a
    refresh of the token it finds, none when that token is not expired at
    the first clock reading; and it starts the goroutines [background]
    says. *)
Definition GetToken_traffic {P : Type} `{Provider.AuthProvider P}
           (env : Env) (w : World) (p : P) (refresh : Token -> Obs) (grant : Obs) : Prop :=
  exists r w' new,
    run env (Provider.GetToken p) w = (Returned r, w') /\
    asked w w' new /\ started w w' (background env w p) /\
    match w.(currentToken) with
    | None => new = [] \/ new = [grant]
    | Some t =>
        refresh_or_grant (refresh t) grant new /\
        (env.(clock) w.(ticks) <= t.(ExpiresAt) -> new = [])
    end.

(** The background refresh of any token, run in [w], returns; the calls it
    makes are those of a refresh. *)
Definition refresh_traffic {P : Type} `{Provider.AuthProvider P}
           (env : Env) (w : World) (p : P) (refresh : Token -> Obs) (grant : Obs) : Prop :=
  forall t, exists w' new,
    run_goroutine env (refreshing p t) w = (Returned tt, w') /\
    asked w w' new /\ refresh_or_grant (refresh t) grant new.

(** [GetToken] in a world with the lock free: how it ends and what it asks. *)
Definition GetToken_effect {P : Type} `{Provider.AuthProvider P}
           (env : Env) (w : World) (p : P) (refresh : Token -> Obs) (grant : Obs) : Prop :=
  exists r w' new,
    run env (Provider.GetToken p) w = (Returned r, w') /\ settled w w' r /\
    asked w w' new /\
    match w.(currentToken) with
    | None => new = [] \/ new = [grant]
    | Some t =>
        refresh_or_grant (refresh t) grant new /\
        (env.(clock) w.(ticks) <= t.(ExpiresAt) -> new = [])
    end.

(** A token with one minute left at time 900. *)
Definition expiringToken : Token := mkToken "t0" "Bearer" 60000000900 "r0".

(** A token endpoint granting [t1] for the given number of seconds. *)
Definition grantingFor (seconds : Z) : Request -> IamResponse + error :=
  fun _ => inl (mkIamResponse 200 (Parsed (JObject [("access_token", JString "t1");
                                                     ("token_type", JString "Bearer");
                                                     ("expires_in", JNumber (IntLit seconds))]))).

(* ------------------------------------------------------------------ *)
(** ** Vocabulary of the further properties: tokens and requests *)
(* ------------------------------------------------------------------ *)

(** The alphabet of the URL-safe encoding. *)
Definition urlSafe (c : ascii) : bool :=
  let n := nat_of_ascii c in
  orb (orb (andb (Nat.leb 65 n) (Nat.leb n 90)) (andb (Nat.leb 97 n) (Nat.leb n 122)))
      (orb (andb (Nat.leb 48 n) (Nat.leb n 57)) (orb (Nat.eqb n 45) (Nat.eqb n 95))).

Fixpoint all (f : ascii -> bool) (s : string) : bool :=
  match s with
  | EmptyString => true
  | String c s' => andb (f c) (all f s')
  end.

(** The value a list of headers holds under the key [k]. *)
Fixpoint Header_Get (k : string) (h : list (string * string)) : option string :=
  match h with
  | [] => None
  | (k', v) :: h' => if String.eqb k k' then Some v else Header_Get k h'
  end.

(** What [doRequest] hands back and has recorded by then: a response that
    is no server error, with its snapshot as the last response, or an error. *)
Definition answered (w' : World) (r : api.DoResult) : Prop :=
  match r with
  | (Some resp, None) =>
      resp.(StatusCode) < 500 /\
      exists d, w'.(lastResponse) =
                Some (mkResponseDebugInfo resp.(StatusCode) resp.(RespHeader) resp.(RespBody) d)
  | (None, Some _) => True
  | _ => False
  end.

(** The snapshot of the request [doRequest] has sent with [token]: the
    method, the text of the URL parsed from the base URL and the path, the
    headers of the request and the JSON text of the body. *)
Definition recorded {P : Type} (env : Env) (c : api.HTTPAPIClient P) (method path : string)
           (body : option api.GoValue) (token : Token) (w' : World) : Prop :=
  exists reqBody bodyStr,
    marshalled body reqBody bodyStr /\
    w'.(lastRequest) =
      Some (mkRequestDebugInfo method (env.(urlString) (api.baseURL c ++ path))
                               (builtRequest c method path reqBody token).(Header) bodyStr).

(** The headers of a request sent with [token], under their canonical keys:
    the JSON content headers, the bearer token, and the mock user ID if the
    client has one. *)
Definition headed {P : Type} (c : api.HTTPAPIClient P) (token : Token)
           (headers : list (string * string)) : Prop :=
  Header_Get "Content-Type" headers = Some "application/json" /\
  Header_Get "Accept" headers = Some "application/json" /\
  Header_Get "Authorization" headers = Some ("Bearer " ++ token.(AccessToken)) /\
  Header_Get "X-Mock-User-Id" headers =
    (if String.eqb (api.userID c) "" then None else Some (api.userID c)) /\
  Header_Get "x-mock-user-id" headers = None.

(** The endpoints of [HTTPAPIClient], by the type of what they return. *)
Inductive Endpoint : Type -> Type :=
| EListChallenges : Endpoint (list api.Challenge)
| EListChallengesWithFilter (activeOnly : bool) : Endpoint (list api.Challenge)
| EGetChallenge (challengeID : string) : Endpoint (option api.Challenge)
| EClaimReward (challengeID goalID : string) : Endpoint (option api.ClaimResult)
| EInitializePlayer : Endpoint (option api.InitializeResponse)
| ESetGoalActive (challengeID goalID : string) (isActive : bool)
  : Endpoint (option api.SetGoalActiveResponse)
| EBatchSelectGoals (challengeID : string) (req : option api.BatchSelectRequest)
  : Endpoint (option api.BatchSelectResponse)
| ERandomSelectGoals (challengeID : string) (req : option api.RandomSelectRequest)
  : Endpoint (option api.RandomSelectResponse).

Module endpoint.

(** The request of the endpoint: method, path and body. *)
Definition method {T : Type} (e : Endpoint T) : string :=
  match e with
  | EListChallenges | EListChallengesWithFilter _ | EGetChallenge _ => "GET"
  | ESetGoalActive _ _ _ => "PUT"
  | _ => "POST"
  end.

Definition path {T : Type} (e : Endpoint T) : string :=
  match e with
  | EListChallenges => "/v1/challenges"
  | EListChallengesWithFilter activeOnly =>
      if activeOnly then "/v1/challenges?active_only=true" else "/v1/challenges"
  | EGetChallenge challengeID => "/v1/challenges/" ++ challengeID
  | EClaimReward challengeID goalID =>
      "/v1/challenges/" ++ challengeID ++ "/goals/" ++ goalID ++ "/claim"
  | EInitializePlayer => "/v1/challenges/initialize"
  | ESetGoalActive challengeID goalID _ =>
      "/v1/challenges/" ++ challengeID ++ "/goals/" ++ goalID ++ "/active"
  | EBatchSelectGoals challengeID _ => "/v1/challenges/" ++ challengeID ++ "/goals/batch-select"
  | ERandomSelectGoals challengeID _ => "/v1/challenges/" ++ challengeID ++ "/goals/random-select"
  end.

(** The JSON text of the body, if the endpoint sends one. *)
Definition sent {T : Type} (e : Endpoint T) : option string :=
  match e with
  | EListChallenges | EListChallengesWithFilter _ | EGetChallenge _ => None
  | EClaimReward _ _ | EInitializePlayer => Some "{}"
  | ESetGoalActive _ _ isActive => Some (api.marshalIsActive isActive)
  | EBatchSelectGoals _ req => Some (api.marshalBatchSelectRequest req)
  | ERandomSelectGoals _ req => Some (api.marshalRandomSelectRequest req)
  end.

Definition body {T : Type} (e : Endpoint T) : option api.GoValue :=
  option_map api.Marshalable (sent e).

(** The words the endpoint puts before an error of [doRequest]. *)
Definition prefix {T : Type} (e : Endpoint T) : string :=
  match e with
  | EListChallenges | EListChallengesWithFilter _ => "list challenges: "
  | EGetChallenge _ => "get challenge: "
  | EClaimReward _ _ => "claim reward: "
  | EInitializePlayer => "initialize player: "
  | ESetGoalActive _ _ _ => "set goal active: "
  | EBatchSelectGoals _ _ => "batch select goals: "
  | ERandomSelectGoals _ _ => "random select goals: "
  end.

(** The error for a status outside 200..299. *)
Definition httpError (resp : Response) : error :=
  errorString ("HTTP " ++ GoInt.Itoa resp.(StatusCode) ++ ": " ++ resp.(RespBody)).

Section EndpointTable.

Context {P : Type} `{Provider.AuthProvider P}.
Context `{api.Decoder api.GetChallengesResponse} `{api.Decoder api.Challenge}
        `{api.Decoder api.ClaimResult} `{api.Decoder api.InitializeResponse}
        `{api.Decoder api.SetGoalActiveResponse} `{api.Decoder api.BatchSelectResponse}
        `{api.Decoder api.RandomSelectResponse}.

(** The call of the endpoint on a client. *)
Definition invoke {T : Type} (e : Endpoint T) (c : api.HTTPAPIClient P)
  : prog (T * option error) :=
  match e in Endpoint T0 return prog (T0 * option error) with
  | EListChallenges => api.ListChallenges c
  | EListChallengesWithFilter activeOnly => api.ListChallengesWithFilter c activeOnly
  | EGetChallenge challengeID => api.GetChallenge c challengeID
  | EClaimReward challengeID goalID => api.ClaimReward c challengeID goalID
  | EInitializePlayer => api.InitializePlayer c
  | ESetGoalActive challengeID goalID isActive => api.SetGoalActive c challengeID goalID isActive
  | EBatchSelectGoals challengeID req => api.BatchSelectGoals c challengeID req
  | ERandomSelectGoals challengeID req => api.RandomSelectGoals c challengeID req
  end.

(** What the endpoint returns beside an error: a nil slice or pointer. *)
Definition nothing {T : Type} (e : Endpoint T) : T :=
  match e in Endpoint T0 return T0 with
  | EListChallenges | EListChallengesWithFilter _ => []
  | EGetChallenge _ => None
  | EClaimReward _ _ => None
  | EInitializePlayer => None
  | ESetGoalActive _ _ _ => None
  | EBatchSelectGoals _ _ => None
  | ERandomSelectGoals _ _ => None
  end.

(** What the endpoint makes of the body of a response it accepts. *)
Definition decoded {T : Type} (e : Endpoint T) (body : string) : T + error :=
  match e in Endpoint T0 return T0 + error with
  | EListChallenges | EListChallengesWithFilter _ =>
      match api.Decode body with
      | inl response => inl response.(api.Challenges)
      | inr err => inr err
      end
  | EGetChallenge _ =>
      match api.Decode body with inl v => inl (Some v) | inr err => inr err end
  | EClaimReward _ _ =>
      match api.Decode body with inl v => inl (Some v) | inr err => inr err end
  | EInitializePlayer =>
      match api.Decode body with inl v => inl (Some v) | inr err => inr err end
  | ESetGoalActive _ _ _ =>
      match api.Decode body with inl v => inl (Some v) | inr err => inr err end
  | EBatchSelectGoals _ _ =>
      match api.Decode body with inl v => inl (Some v) | inr err => inr err end
  | ERandomSelectGoals _ _ =>
      match api.Decode body with inl v => inl (Some v) | inr err => inr err end
  end.

(** What every endpoint does with the result of [doRequest]. *)
Definition finish {T : Type} (e : Endpoint T) (r : api.DoResult) : prog (T * option error) :=
  let '(resp, err) := r in
  match err with
  | Some err => Ret (nothing e, Some (Errorf_w (prefix e) err))
  | None =>
    match resp with
    | None => Throw nilDeref
    | Some resp =>
      match api.checkStatusCode resp with
      | Some err => Ret (nothing e, Some err)
      | None =>
        match decoded e resp.(RespBody) with
        | inr err => Ret (nothing e, Some (Errorf_w "decode response: " err))
        | inl v => Ret (v, None)
        end
      end
    end
  end.

End EndpointTable.

End endpoint.

(* ------------------------------------------------------------------ *)
(** ** Vocabulary of the further properties: the reward verifiers *)
(* ------------------------------------------------------------------ *)

(** The fragments [isRetryable] looks for in a message. *)
Definition fragments : list string :=
  ["timeout"; "deadline exceeded"; "connection refused"; "no such host";
   "500"; "502"; "503"; "504"; "429"; "rate limit"].

(** [substr] occurs in [s]. *)
Definition within (s substr : string) : Prop :=
  exists before after, s = before ++ substr ++ after.

(** [substr] cannot begin at index [j] of a text that begins with [prefix]:
    where the two overlap they differ. *)
Definition differs_at (prefix substr : string) (j : nat) : bool :=
  let m := Nat.min (String.length substr) (String.length prefix - j) in
  negb (String.eqb (substring j m prefix) (substring 0 m substr)).

Definition clear_of (prefix substr : string) : bool :=
  forallb (differs_at prefix substr) (seq 0 (String.length prefix)).

(** The calls of a verifier for [userID] in [namespace] whose every try
    fails: four queries, with sleeps of 500 ms, 1 s and 2 s in between. *)
Definition tries (namespace userID : string) : list ags.Obs :=
  [ags.ObsQuery namespace userID; ags.ObsSleep (500 * time.Millisecond);
   ags.ObsQuery namespace userID; ags.ObsSleep (1 * time.Second);
   ags.ObsQuery namespace userID; ags.ObsSleep (2 * time.Second);
   ags.ObsQuery namespace userID].

(** The answer of the platform to the k-th query after [log]. *)
Definition answer (platform : ags.Platform) (log : list ags.Obs) (namespace userID : string)
           (k : nat) : list (option ags.CurrencyWallet) * option error :=
  platform (ags.queries log + k)%nat namespace userID.

(** The k-th query after [log] fails, with an error worth another try. *)
Definition fails (platform : ags.Platform) (log : list ags.Obs) (namespace userID : string)
           (k : nat) (sdkErr : error) : Prop :=
  snd (answer platform log namespace userID k) = Some sdkErr /\
  ags.isRetryable (Some sdkErr) = true.

(** The error of doQueryUserWallets, and of doGetUserWallet on top of it. *)
Definition queryFailed (sdkErr : error) : error := Errorf_w "query wallets failed: " sdkErr.
Definition getFailed (sdkErr : error) : error :=
  Errorf_w "query wallets failed: " (queryFailed sdkErr).

Definition notFound (currencyCode : string) : error :=
  errorString ("wallet with currency code " ++ currencyCode ++ " not found").

(** The world after the sleep, if any, at the head of a turn. *)
Definition rested (attempt : Z) (retryDelay : time.Duration) (log : list ags.Obs)
  : list ags.Obs :=
  if 0 <? attempt then (log ++ [ags.ObsSleep retryDelay])%list else log.

Definition nextDelay (attempt : Z) (retryDelay : time.Duration) : time.Duration :=
  if 0 <? attempt then GoInt.mul64 retryDelay 2 else retryDelay.

(** The entries of a slice of pointers that are not nil. *)
Fixpoint present {A : Type} (l : list (option A)) : list A :=
  match l with
  | [] => []
  | None :: l' => present l'
  | Some a :: l' => a :: present l'
  end.

(** The entries of a slice of pointers before its first nil entry, and
    whether it has a nil entry. *)
Fixpoint before_nil {A : Type} (l : list (option A)) : list A :=
  match l with
  | Some a :: l' => a :: before_nil l'
  | _ => []
  end.

Definition has_nil {A : Type} (l : list (option A)) : bool :=
  existsb (fun o => match o with None => true | Some _ => false end) l.

(** A platform that is out of reach, and one that lists the given wallets. *)
Definition timingOut : ags.Platform :=
  fun _ _ _ => ([], Some (errorString "context deadline exceeded")).

Definition listing (wallets : list (option ags.CurrencyWallet)) : ags.Platform :=
  fun _ _ _ => (wallets, None).

Definition gold : ags.CurrencyWallet :=
  ags.mkCurrencyWallet (Some "GOLD") (Some 150)
                       [Some (ags.mkWalletInfo (Some "w-1") (Some "ACTIVE"))].

Fixpoint reverse (s : string) : string :=
  match s with
  | EmptyString => EmptyString
  | String c s' => reverse s' ++ String c EmptyString
  end.

(* ------------------------------------------------------------------ *)
(** ** Vocabulary of the further properties: the terminal interface *)
(* ------------------------------------------------------------------ *)

(** A bar of [width] cells of which the first [filled] are full. *)
Definition bar (filled width : Z) : string :=
  "[" ++ replicate (Z.to_nat filled) tui.fullBlock ++
  replicate (Z.to_nat (width - filled)) tui.lightShade ++ "]".

(** The cursors of a dashboard are in bounds: none is negative, and the
    challenge cursor points into the list unless it rests at 0. *)
Definition steady (m : tui.DashboardModel) : Prop :=
  0 <= m.(tui.challengeCursor) /\ 0 <= m.(tui.goalCursor) /\
  (m.(tui.challengeCursor) < Z.of_nat (List.length m.(tui.challenges)) \/
   m.(tui.challengeCursor) = 0).

(** The dashboard fed the messages [msgs], one [Update] after the other. *)
Fixpoint play (m : tui.DashboardModel) (msgs : list tui.Msg) : outcome tui.DashboardModel :=
  match msgs with
  | [] => Returned m
  | msg :: rest => bindOutcome (tui.Update m msg) (fun r => play (fst r) rest)
  end.

(** [m] with a claim under way: the flag set, both messages cleared. *)
Definition claimingOf (m : tui.DashboardModel) : tui.DashboardModel :=
  tui.mkDashboardModel m.(tui.challenges) m.(tui.viewMode) m.(tui.challengeCursor)
                       m.(tui.goalCursor) m.(tui.loading) true "" "".

(** The goal under the cursors of [m], if both point at one. *)
Definition selected (m : tui.DashboardModel) : option (api.Challenge * api.Goal) :=
  match nth_error m.(tui.challenges) (Z.to_nat m.(tui.challengeCursor)) with
  | Some challenge =>
      match nth_error challenge.(api.ch_Goals) (Z.to_nat m.(tui.goalCursor)) with
      | Some goal => Some (challenge, goal)
      | None => None
      end
  | None => None
  end.

Definition aGoal (id status : string) : api.Goal :=
  api.mkGoal id "Win matches" "" (api.mkRequirement "wins" ">=" 10)
             (api.mkReward "ITEM" "sword" 1) [] 10 status false "" "" true.

Definition aDashboard : tui.DashboardModel :=
  tui.mkDashboardModel
    [api.mkChallenge "daily" "Daily" "" [aGoal "g1" "in_progress"; aGoal "g2" "completed"]]
    tui.ViewModeDetail 0 1 false true "" "stale".

(* ------------------------------------------------------------------ *)
(** ** Concrete surroundings of the further examples *)
(* ------------------------------------------------------------------ *)

(** The resource API as the demo reaches it with the mock provider. *)
Definition aMockApp : api.HTTPAPIClient Mock.MockAuthProvider :=
  api.NewHTTPAPIClient "http://localhost:8000" (Mock.mkMockAuthProvider "test-user" "demo")
                       "test-user".

(** A decoder that rejects every body. *)
Definition rejecting (T : Type) : api.Decoder T :=
  fun _ => inr (errorString "unexpected end of JSON input").

(* ------------------------------------------------------------------ *)
(** ** Token expiry and validity                                       *)
(* ------------------------------------------------------------------ *)

Lemma Sub_lt_iff (t u bound : Z) :
  time.minDuration < bound <= time.maxDuration ->
  (time.Sub t u <? bound) = (t - u <? bound).
Proof.
  intros Hb. unfold time.Sub.
  destruct (Z.ltb_spec (t - u) time.minDuration);
    [ | destruct (Z.ltb_spec time.maxDuration (t - u)) ];
    destruct (Z.ltb_spec (t - u) bound); try reflexivity;
    try (apply Z.ltb_lt; lia); try (apply Z.ltb_ge; lia).
Qed.

(** C4, as stated, at an instant equal to the expiry: the expiry is at or
    before the evaluation time, and [IsExpired] answers false. *)
Lemma is_expired_false_at_expiry :
  let tok := mkToken "t1" "Bearer" 1000 "" in
  ExpiresAt tok <= clock (offline 1000) (ticks world0) /\
  fst (run (offline 1000) (IsExpired (Some tok)) world0) = Returned false.
Proof. split; [ vm_compute; discriminate | reflexivity ]. Qed.

(** C4 (amended): [IsExpired] is true exactly when the stored expiry is
    strictly before the clock reading it takes, and true on nil; for the three
    providers [IsTokenValid] is false on nil and otherwise the negation of
    [IsExpired]. *)
Theorem is_expired_is_token_valid (env : Env) (w : World) :
  let now := env.(clock) w.(ticks) in
  fst (run env (IsExpired None) w) = Returned true /\
  (forall t, fst (run env (IsExpired (Some t)) w) = Returned true <-> t.(ExpiresAt) < now) /\
  (forall t, fst (run env (IsExpired (Some t)) w) = Returned false <-> now <= t.(ExpiresAt)) /\
  (forall c, fst (run env (Client.IsTokenValid c None) w) = Returned false) /\
  (forall p, fst (run env (Password.IsTokenValid p None) w) = Returned false) /\
  (forall m, fst (run env (Mock.IsTokenValid m None) w) = Returned false) /\
  (forall c t, fst (run env (Client.IsTokenValid c (Some t)) w) = Returned (now <=? t.(ExpiresAt))) /\
  (forall p t, fst (run env (Password.IsTokenValid p (Some t)) w) = Returned (now <=? t.(ExpiresAt))) /\
  (forall m t, fst (run env (Mock.IsTokenValid m (Some t)) w) = Returned (now <=? t.(ExpiresAt))).
Proof.
  intros now. subst now. simpl. unfold time.After.
  repeat split; intros;
    try (rewrite Z.leb_antisym; reflexivity);
    destruct (Z.ltb_spec (ExpiresAt t) (clock env (ticks w)));
    try reflexivity; try lia; try discriminate; try (inversion H0; fail); auto.
Qed.

(* ------------------------------------------------------------------ *)
(** ** GetToken of the networked providers                             *)
(* ------------------------------------------------------------------ *)

Arguments Client.Authenticate c : simpl never.
Arguments Client.RefreshToken c token : simpl never.
Arguments Password.Authenticate p : simpl never.
Arguments Password.RefreshToken p token : simpl never.

Lemma five_minutes_in_range :
  time.minDuration < 5 * time.Minute <= time.maxDuration.
Proof. vm_compute. split; [ reflexivity | discriminate ]. Qed.

Lemma expiring_soon (t u : Z) :
  (time.Sub t u <? 5 * time.Minute) = (t - u <? 5 * time.Minute).
Proof. apply Sub_lt_iff, five_minutes_in_range. Qed.

Ltac get_token_branches :=
  match goal with
  | lock_free : mu ?w = unlocked |- _ =>
      unfold four_branches;
      destruct w as [tk tr m ct lrq lrs gs]; simpl in *; subst m
  end;
  repeat split;
  [ intros ->; reflexivity
  | intros t -> Hexp; simpl; unfold time.After;
    rewrite (proj2 (Z.ltb_lt _ _) Hexp); reflexivity
  | intros t -> Hnot Hsoon; simpl; unfold time.After;
    rewrite (proj2 (Z.ltb_ge _ _) Hnot); simpl; rewrite expiring_soon;
    change (5 * time.Minute) with 300000000000;
    rewrite (proj2 (Z.ltb_lt _ _) Hsoon); reflexivity
  | intros t -> Hnot Hlate; simpl; unfold time.After;
    rewrite (proj2 (Z.ltb_ge _ _) Hnot); simpl; rewrite expiring_soon;
    change (5 * time.Minute) with 300000000000;
    rewrite (proj2 (Z.ltb_ge _ _) Hlate); reflexivity ].

Lemma Client_GetToken_branches (env : Env) (w : World) (c : Client.ClientAuthProvider) :
  w.(mu) = unlocked -> four_branches env w c.
Proof. intros lock_free. unfold Provider.GetToken. get_token_branches. Qed.

Lemma Password_GetToken_branches (env : Env) (w : World) (p : Password.PasswordAuthProvider) :
  w.(mu) = unlocked -> four_branches env w p.
Proof. intros lock_free. get_token_branches. Qed.

(** C1: [GetToken] of the client-credentials and of the password provider
    follows the four-branch algorithm: authenticate when no token was ever
    obtained, refresh synchronously when the expiry has passed, return the
    current token and start a background refresh when it expires within five
    minutes, and return the current token otherwise. *)
Theorem GetToken_four_branches (env : Env) (w : World) :
  w.(mu) = unlocked ->
  (forall c : Client.ClientAuthProvider, four_branches env w c) /\
  (forall p : Password.PasswordAuthProvider, four_branches env w p).
Proof.
  intros lock_free. split; intros.
  - now apply Client_GetToken_branches.
  - now apply Password_GetToken_branches.
Qed.

Lemma GetToken_four_branches_witness :
  let fresh := mkToken "t1" "Bearer" 5000000000000 "r1" in
  let ageing := mkToken "t1" "Bearer" 1000 "r1" in
  let stale := mkToken "t1" "Bearer" 10 "r1" in
  let env := offline 900 in
  run env (Client.GetToken aClient) world0 = run env (Client.Authenticate aClient) world0 /\
  run env (Client.GetToken aClient) (holding stale) =
    run env (Client.RefreshToken aClient (Some stale)) (tick (holding stale)) /\
  run env (Client.GetToken aClient) (holding ageing) =
    (Returned (Some ageing, None),
     start (Client.RefreshToken aClient (Some ageing) ;; Ret tt) (tick (tick (holding ageing)))) /\
  run env (Client.GetToken aClient) (holding fresh) =
    (Returned (Some fresh, None), tick (tick (holding fresh))) /\
  run env (Password.GetToken aUser) (holding ageing) =
    (Returned (Some ageing, None),
     start (Password.RefreshToken aUser (Some ageing) ;; Ret tt) (tick (tick (holding ageing)))).
Proof.
  intros fresh ageing stale env.
  split; [ | split; [ | split; [ | split ] ] ].
  - destruct (GetToken_four_branches env world0 eq_refl) as [Hc _].
    destruct (Hc aClient) as (H1 & _). exact (H1 eq_refl).
  - destruct (GetToken_four_branches env (holding stale) eq_refl) as [Hc _].
    destruct (Hc aClient) as (_ & H2 & _). exact (H2 stale eq_refl eq_refl).
  - destruct (GetToken_four_branches env (holding ageing) eq_refl) as [Hc _].
    destruct (Hc aClient) as (_ & _ & H3 & _).
    apply (H3 ageing eq_refl); [ discriminate | reflexivity ].
  - destruct (GetToken_four_branches env (holding fresh) eq_refl) as [Hc _].
    destruct (Hc aClient) as (_ & _ & _ & H4).
    apply (H4 fresh eq_refl); discriminate.
  - destruct (GetToken_four_branches env (holding ageing) eq_refl) as [_ Hp].
    destruct (Hp aUser) as (_ & _ & H3 & _).
    apply (H3 ageing eq_refl); [ discriminate | reflexivity ].
Defined.

(* ------------------------------------------------------------------ *)
(** ** RefreshToken: falling back to Authenticate                      *)
(* ------------------------------------------------------------------ *)

(** C5, as stated, on the client-credentials provider when the refresh
    request fails in transit: the failure is returned, the only request sent
    is the refresh itself, and the result is not what [Authenticate] gives
    after that request. *)
Lemma client_refresh_transport_failure_surfaces :
  let tok := mkToken "t1" "Bearer" 10 "r1" in
  let env := offline 900 in
  let after := run env (Client.RefreshToken aClient (Some tok)) world0 in
  iamAnswer env world0 (clientRefresh aClient tok) = inr unreachable /\
  fst after =
    Returned (None, Some (wrapError "refresh request failed: dial tcp: connection refused"
                                    unreachable)) /\
  (snd after).(trace) = [ObsIam (clientRefresh aClient tok)] /\
  after <> run env (Client.Authenticate aClient) (log (ObsIam (clientRefresh aClient tok)) world0).
Proof. repeat split. vm_compute. discriminate. Qed.

(** C5 (amended): [RefreshToken] of both providers is [Authenticate] when the
    token has no refresh credential; the password provider's is
    [Authenticate] after any error of the refresh grant call; the
    client-credentials provider's is [Authenticate] after a refresh answer
    whose status is not 200, and returns the failure itself after a refresh
    request that fails in transit. *)
Theorem refresh_falls_back_to_authenticate (env : Env) (w : World) :
  (forall c t, t.(RefreshToken) = "" ->
     run env (Client.RefreshToken c (Some t)) w = run env (Client.Authenticate c) w) /\
  (forall p t, t.(RefreshToken) = "" ->
     run env (Password.RefreshToken p (Some t)) w = run env (Password.Authenticate p) w) /\
  (forall p t ok err, t.(RefreshToken) <> "" ->
     sdkAnswer env w (passwordRefresh p t) = (ok, Some err) ->
     run env (Password.RefreshToken p (Some t)) w =
     run env (Password.Authenticate p) (log (passwordRefresh p t) w)) /\
  (forall c t resp, t.(RefreshToken) <> "" ->
     env.(newRequestErr) "POST" (Client.iamURL c ++ "/v3/oauth/token") = None ->
     iamAnswer env w (clientRefresh c t) = inl resp ->
     resp.(IamStatusCode) <> 200 ->
     run env (Client.RefreshToken c (Some t)) w =
     run env (Client.Authenticate c) (log (ObsIam (clientRefresh c t)) w)) /\
  (forall c t err, t.(RefreshToken) <> "" ->
     env.(newRequestErr) "POST" (Client.iamURL c ++ "/v3/oauth/token") = None ->
     iamAnswer env w (clientRefresh c t) = inr err ->
     run env (Client.RefreshToken c (Some t)) w =
     (Returned (None, Some (Errorf_w "refresh request failed: " err)),
      log (ObsIam (clientRefresh c t)) w)).
Proof.
  unfold iamAnswer, sdkAnswer, passwordRefresh, clientRefresh, tokenEndpointRequest.
  repeat split.
  - intros c t Hno. unfold Client.RefreshToken. rewrite Hno. reflexivity.
  - intros p t Hno. unfold Password.RefreshToken. rewrite Hno. reflexivity.
  - intros p t ok err Hrt Hans.
    remember (run env (Password.Authenticate p) _) as rhs eqn:E.
    unfold Password.RefreshToken.
    apply String.eqb_neq in Hrt. rewrite Hrt. simpl. rewrite Hans. simpl.
    subst rhs. reflexivity.
  - intros c t resp Hrt Hnew Hans Hstatus.
    remember (run env (Client.Authenticate c) _) as rhs eqn:E.
    unfold Client.RefreshToken.
    apply String.eqb_neq in Hrt. rewrite Hrt. simpl. rewrite Hnew. simpl.
    unfold Header_Set, SetBasicAuth. simpl. canonical_keys. rewrite Hans.
    apply Z.eqb_neq in Hstatus. rewrite Hstatus. simpl.
    subst rhs. reflexivity.
  - intros c t err Hrt Hnew Hans. unfold Client.RefreshToken.
    apply String.eqb_neq in Hrt. rewrite Hrt. simpl. rewrite Hnew. simpl.
    unfold Header_Set, SetBasicAuth. simpl. canonical_keys. rewrite Hans. reflexivity.
Qed.

Lemma refresh_falls_back_to_authenticate_witness :
  let bare := mkToken "t1" "Bearer" 10 "" in
  let tok := mkToken "t1" "Bearer" 10 "r1" in
  let env := offline 900 in
  let env' := scripted 900 (rejectingRefresh (Parsed JNull)) (fun _ => (None, None)) [] in
  run env (Client.RefreshToken aClient (Some bare)) world0 =
    run env (Client.Authenticate aClient) world0 /\
  run env (Password.RefreshToken aUser (Some bare)) world0 =
    run env (Password.Authenticate aUser) world0 /\
  run env (Password.RefreshToken aUser (Some tok)) world0 =
    run env (Password.Authenticate aUser) (log (passwordRefresh aUser tok) world0) /\
  run env' (Client.RefreshToken aClient (Some tok)) world0 =
    run env' (Client.Authenticate aClient) (log (ObsIam (clientRefresh aClient tok)) world0) /\
  run env (Client.RefreshToken aClient (Some tok)) world0 =
    (Returned (None, Some (Errorf_w "refresh request failed: " unreachable)),
     log (ObsIam (clientRefresh aClient tok)) world0).
Proof.
  intros bare tok env env'.
  destruct (refresh_falls_back_to_authenticate env world0) as (H1 & H2 & H3 & _ & H5).
  destruct (refresh_falls_back_to_authenticate env' world0) as (_ & _ & _ & H4 & _).
  split; [ | split; [ | split; [ | split ] ] ].
  - apply (H1 aClient bare). reflexivity.
  - apply (H2 aUser bare). reflexivity.
  - apply (H3 aUser tok None unreachable); [ discriminate | reflexivity ].
  - apply (H4 aClient tok (mkIamResponse 401 (Parsed JNull)));
      [ discriminate | reflexivity | reflexivity | discriminate ].
  - apply (H5 aClient tok unreachable); [ discriminate | reflexivity | reflexivity ].
Defined.

(* ------------------------------------------------------------------ *)
(** ** Authenticate on a response with members missing                 *)
(* ------------------------------------------------------------------ *)

(** C6, as stated, on the client-credentials provider: the token endpoint
    answers 200 with an empty JSON object, no member is there, and
    [Authenticate] returns a token and caches it. *)
Lemma client_authenticate_accepts_empty_object :
  let env := scripted 900 (fun _ => inl (mkIamResponse 200 (Parsed (JObject [])))) 
                      (fun _ => (None, None)) [] in
  let after := run env (Client.Authenticate aClient) world0 in
  let tok := mkToken "" "" 900 "" in
  iamAnswer env world0 (clientGrant aClient) = inl (mkIamResponse 200 (Parsed (JObject []))) /\
  fst after = Returned (Some tok, None) /\
  (snd after).(currentToken) = Some tok.
Proof. repeat split. Qed.

Lemma decodeFields_lacking (fs : list (string * JSON)) :
  forall acc r, decodeFields acc fs = inl r ->
  (lacks "access_token" fs -> r.(tr_AccessToken) = acc.(tr_AccessToken)) /\
  (lacks "token_type" fs -> r.(tr_TokenType) = acc.(tr_TokenType)) /\
  (lacks "expires_in" fs -> r.(tr_ExpiresIn) = acc.(tr_ExpiresIn)).
Proof.
  induction fs as [ | [k v] fs IH ]; intros acc r Hdec; cbn [decodeFields] in Hdec.
  - inversion Hdec. auto.
  - destruct (decodeField acc (k, v)) as [acc' | e] eqn:Hf; [ | discriminate Hdec ].
    destruct (IH _ _ Hdec) as (IH1 & IH2 & IH3).
    assert (Hsub : forall name, lacks name ((k, v) :: fs) ->
                                EqualFold k name = false /\ lacks name fs).
    { intros name Hl. split.
      - apply (Hl k v). now left.
      - intros k' v' Hin. apply (Hl k' v'). now right. }
    unfold decodeField in Hf.
    repeat split; intros Hl; destruct (Hsub _ Hl) as [Hk Hfs];
      [ rewrite (IH1 Hfs) | rewrite (IH2 Hfs) | rewrite (IH3 Hfs) ];
      rewrite Hk in Hf;
      repeat match type of Hf with
             | (if ?b then _ else _) = _ => destruct b
             | match ?d with inl _ => _ | inr _ => _ end = _ => destruct d
             end;
      try discriminate Hf; inversion Hf; reflexivity.
Qed.

(** Member names match as encoding/json folds them: the long s (U+017F) in
    expires_in and the Kelvin sign (U+212A) in token_type are read as s
    and k. *)
Lemma Decode_tokenResp_folds_names :
  let expires_in := "expire" ++ String "197" (String "191" "_in") in
  let token_type := "to" ++ String "226" (String "132" (String "170" "en_type")) in
  Decode_tokenResp (Parsed (JObject [(expires_in, JNumber (IntLit 60));
                                     (token_type, JString "Bearer");
                                     ("ACCESS_TOKEN", JString "t1")])) =
  inl (mkTokenResp "t1" "Bearer" 60 "").
Proof. reflexivity. Qed.

(** C6 (amended): the password provider's [Authenticate] fails with the
    missing-fields error, after its one grant call and with nothing cached or
    returned, whenever the payload lacks the access token, the token type or
    the expiry.  The client-credentials provider's [Authenticate] does not
    check: every 200 answer that decodes gives a token, cached and returned,
    in which a member the JSON object lacks is the zero value. *)
Theorem authenticate_on_missing_fields (env : Env) (w : World) :
  (forall p ok payload,
     sdkAnswer env w (passwordGrant p) = (Some ok, None) ->
     ok.(GetPayload) = Some payload ->
     payload.(pl_AccessToken) = None \/ payload.(pl_TokenType) = None \/
       payload.(pl_ExpiresIn) = None ->
     run env (Password.Authenticate p) w =
     (Returned (None, Some (errorString "invalid token response: missing required fields")),
      log (passwordGrant p) w)) /\
  (forall c resp r,
     w.(mu) = unlocked ->
     env.(newRequestErr) "POST" (Client.iamURL c ++ "/v3/oauth/token") = None ->
     iamAnswer env w (clientGrant c) = inl resp ->
     resp.(IamStatusCode) = 200 ->
     Decode_tokenResp resp.(IamBody) = inl r ->
     let tok := Client.tokenOf (env.(clock) w.(ticks)) r in
     run env (Client.Authenticate c) w =
     (Returned (Some tok, None),
      set_currentToken (Some tok) (tick (log (ObsIam (clientGrant c)) w)))) /\
  (forall fs r,
     Decode_tokenResp (Parsed (JObject fs)) = inl r ->
     (lacks "access_token" fs -> r.(tr_AccessToken) = "") /\
     (lacks "token_type" fs -> r.(tr_TokenType) = "") /\
     (lacks "expires_in" fs -> r.(tr_ExpiresIn) = 0)).
Proof.
  unfold iamAnswer, sdkAnswer, passwordGrant, clientGrant, tokenEndpointRequest.
  split; [ | split ].
  - intros p ok payload Hans Hpl Hmiss. unfold Password.Authenticate. simpl.
    rewrite Hans, Hpl.
    destruct Hmiss as [ -> | [ -> | -> ] ];
      repeat match goal with
             | |- context [match ?x with Some _ => _ | None => _ end] => destruct x
             end; reflexivity.
  - intros c resp r Hfree Hnew Hans Hstatus Hdec.
    destruct w as [tk tr m ct lrq lrs gs]. simpl in *. subst m.
    unfold Client.Authenticate. simpl. rewrite Hnew. simpl.
    unfold Header_Set, SetBasicAuth. simpl. canonical_keys. rewrite Hans, Hstatus, Hdec. reflexivity.
  - intros fs r Hdec. apply (decodeFields_lacking _ _ Hdec).
Qed.

Lemma authenticate_on_missing_fields_witness :
  let noExpiry := mkPayload (Some "t1") (Some "Bearer") None "r1" in
  let sdk := fun _ : TokenGrantV3Params => (Some (mkGrantOK (Some noExpiry)), None) in
  let answer := mkIamResponse 200 (Parsed (JObject [("access_token", JString "t1")])) in
  let env := scripted 900 (fun _ => inl answer) sdk [] in
  let tok := mkToken "t1" "" 900 "" in
  run env (Password.Authenticate aUser) world0 =
    (Returned (None, Some (errorString "invalid token response: missing required fields")),
     log (passwordGrant aUser) world0) /\
  run env (Client.Authenticate aClient) world0 =
    (Returned (Some tok, None),
     set_currentToken (Some tok) (tick (log (ObsIam (clientGrant aClient)) world0))).
Proof.
  intros noExpiry sdk answer env tok.
  destruct (authenticate_on_missing_fields env world0) as (Hp & Hc & _).
  split.
  - apply (Hp aUser (mkGrantOK (Some noExpiry)) noExpiry); [ reflexivity | reflexivity | ].
    right. right. reflexivity.
  - apply (Hc aClient answer (mkTokenResp "t1" "" 0 "")); reflexivity.
Defined.

(* ------------------------------------------------------------------ *)
(** ** RefreshToken and the nil token                                  *)
(* ------------------------------------------------------------------ *)

Ltac by_cases_on_answers :=
  repeat match goal with
         | |- context [match ?x with _ => _ end] =>
             match x with
             | context [match _ with _ => _ end] => fail 1
             | _ => destruct x eqn:?; simpl
             end
         end.

Lemma Client_Authenticate_returns (env : Env) (w : World) (c : Client.ClientAuthProvider) :
  w.(mu) = unlocked -> returns w (run env (Client.Authenticate c) w).
Proof.
  intros Hfree. destruct w as [tk tr m ct lrq lrs gs]. simpl in *. subst m.
  unfold returns, Client.Authenticate. simpl. by_cases_on_answers; eauto.
Qed.

Lemma Password_Authenticate_returns (env : Env) (w : World) (p : Password.PasswordAuthProvider) :
  w.(mu) = unlocked -> returns w (run env (Password.Authenticate p) w).
Proof.
  intros Hfree. destruct w as [tk tr m ct lrq lrs gs]. simpl in *. subst m.
  unfold returns, Password.Authenticate. simpl. by_cases_on_answers; eauto.
Qed.

Lemma returns_from {A : Type} (w v : World) (r : outcome A * World) :
  v.(goroutines) = w.(goroutines) -> returns v r -> returns w r.
Proof. intros E (a & w' & -> & Hmu & Hg). exists a, w'. rewrite Hg, E. auto. Qed.

Ltac has_returned :=
  unfold returns; do 2 eexists; split; [ reflexivity | split; simpl; auto ].

Lemma Client_RefreshToken_returns (env : Env) (w : World) (c : Client.ClientAuthProvider)
      (t : Token) :
  w.(mu) = unlocked -> returns w (run env (Client.RefreshToken c (Some t)) w).
Proof.
  intros Hfree. unfold Client.RefreshToken.
  destruct (String.eqb (RefreshToken t) ""); [ now apply Client_Authenticate_returns | ].
  cbn -[Client.Authenticate].
  destruct (newRequestErr env _ _); cbn -[Client.Authenticate].
  { has_returned. }
  destruct (iamServer env _ _) as [resp | err]; [ | has_returned ].
  destruct (negb (IamStatusCode resp =? 200)).
  { eapply returns_from; [ | apply Client_Authenticate_returns; exact Hfree ]. reflexivity. }
  destruct w as [tk tr m ct lrq lrs gs]. simpl in *. subst m.
  destruct (Decode_tokenResp (IamBody resp)); unfold returns; simpl; eauto.
Qed.

Lemma Password_RefreshToken_returns (env : Env) (w : World) (p : Password.PasswordAuthProvider)
      (t : Token) :
  w.(mu) = unlocked -> returns w (run env (Password.RefreshToken p (Some t)) w).
Proof.
  intros Hfree. unfold Password.RefreshToken.
  destruct (String.eqb (RefreshToken t) ""); [ now apply Password_Authenticate_returns | ].
  cbn -[Password.Authenticate].
  destruct (sdkServer env _ _ _ _) as [ok [err | ]].
  { eapply returns_from; [ | apply Password_Authenticate_returns; exact Hfree ]. reflexivity. }
  destruct w as [tk tr m ct lrq lrs gs]. simpl in *. subst m.
  unfold returns. by_cases_on_answers; eauto.
Qed.

Lemma returns_then_passes {P : Type} `{Provider.AuthProvider P}
      (env : Env) (w v : World) (p : P) :
  v.(goroutines) = w.(goroutines) ->
  forall r, run env (Provider.GetToken p) w = r -> returns v r ->
  GetToken_passes_a_token env w p.
Proof.
  intros Hg r Hr (a & w' & -> & Hmu & Hg'). exists a, w', [].
  rewrite app_nil_r.
  split; [ exact Hr | split; [ exact Hmu | split; [ congruence | intros g [] ] ] ].
Qed.

Lemma goroutine_returns (env : Env) (v : World) (p : prog TokenResult) :
  returns v (run env p v) -> returns v (run_goroutine env (p ;; Ret tt) v).
Proof.
  intros (a & w' & E & Hmu & Hg). unfold run_goroutine. rewrite run_bind, E. simpl.
  exists tt, w'. auto.
Qed.

Lemma Client_GetToken_passes_a_token (env : Env) (w : World) (c : Client.ClientAuthProvider) :
  w.(mu) = unlocked -> GetToken_passes_a_token env w c.
Proof.
  intros Hfree.
  destruct (Client_GetToken_branches env w c Hfree) as (H1 & H2 & H3 & H4).
  destruct (currentToken w) as [t | ] eqn:Hcur.
  - destruct (Z.lt_ge_cases (ExpiresAt t) (clock env (ticks w))) as [Hexp | Hnot].
    + eapply (@returns_then_passes _ _ env w (tick w) c); [ reflexivity | | ].
      * apply (H2 t eq_refl Hexp).
      * apply Client_RefreshToken_returns. exact Hfree.
    + destruct (Z.lt_ge_cases (ExpiresAt t - clock env (S (ticks w))) (5 * time.Minute))
        as [Hsoon | Hlate].
      * eexists _, _, [_]. split; [ apply (H3 t eq_refl Hnot Hsoon) | ].
        split; [ exact Hfree | split; [ reflexivity | ] ].
        intros g [ <- | [] ]. split.
        -- eexists. reflexivity.
        -- intros env' v Hv.
           apply goroutine_returns. now apply Client_RefreshToken_returns.
      * eexists _, _, []. split; [ apply (H4 t eq_refl Hnot Hlate) | ].
        simpl. rewrite app_nil_r.
        split; [ exact Hfree | split; [ reflexivity | intros g [] ] ].
  - eapply (@returns_then_passes _ _ env w w c); [ reflexivity | | ].
    + apply (H1 eq_refl).
    + apply Client_Authenticate_returns. exact Hfree.
Qed.

Lemma Password_GetToken_passes_a_token (env : Env) (w : World)
      (p : Password.PasswordAuthProvider) :
  w.(mu) = unlocked -> GetToken_passes_a_token env w p.
Proof.
  intros Hfree.
  destruct (Password_GetToken_branches env w p Hfree) as (H1 & H2 & H3 & H4).
  destruct (currentToken w) as [t | ] eqn:Hcur.
  - destruct (Z.lt_ge_cases (ExpiresAt t) (clock env (ticks w))) as [Hexp | Hnot].
    + eapply (@returns_then_passes _ _ env w (tick w) p); [ reflexivity | | ].
      * apply (H2 t eq_refl Hexp).
      * apply Password_RefreshToken_returns. exact Hfree.
    + destruct (Z.lt_ge_cases (ExpiresAt t - clock env (S (ticks w))) (5 * time.Minute))
        as [Hsoon | Hlate].
      * eexists _, _, [_]. split; [ apply (H3 t eq_refl Hnot Hsoon) | ].
        split; [ exact Hfree | split; [ reflexivity | ] ].
        intros g [ <- | [] ]. split.
        -- eexists. reflexivity.
        -- intros env' v Hv.
           apply goroutine_returns. now apply Password_RefreshToken_returns.
      * eexists _, _, []. split; [ apply (H4 t eq_refl Hnot Hlate) | ].
        simpl. rewrite app_nil_r.
        split; [ exact Hfree | split; [ reflexivity | intros g [] ] ].
  - eapply (@returns_then_passes _ _ env w w p); [ reflexivity | | ].
    + apply (H1 eq_refl).
    + apply Password_Authenticate_returns. exact Hfree.
Qed.

(** C10: [RefreshToken] of the networked providers dereferences its token
    argument unchecked: on nil it panics, on a token it returns; [GetToken]
    never reaches the panic, since it authenticates when the cached token is
    nil and hands [RefreshToken] (in the call and in the goroutine it starts)
    only a token that is there. *)
Theorem refresh_nil_unreachable_from_GetToken (env : Env) (w : World) :
  w.(mu) = unlocked ->
  (forall c, run env (Client.RefreshToken c None) w = (Panicked nilDeref, w)) /\
  (forall p, run env (Password.RefreshToken p None) w = (Panicked nilDeref, w)) /\
  (forall c t, returns w (run env (Client.RefreshToken c (Some t)) w)) /\
  (forall p t, returns w (run env (Password.RefreshToken p (Some t)) w)) /\
  (forall c : Client.ClientAuthProvider,
     (w.(currentToken) = None ->
      run env (Client.GetToken c) w = run env (Client.Authenticate c) w) /\
     GetToken_passes_a_token env w c) /\
  (forall p : Password.PasswordAuthProvider,
     (w.(currentToken) = None ->
      run env (Password.GetToken p) w = run env (Password.Authenticate p) w) /\
     GetToken_passes_a_token env w p).
Proof.
  intros Hfree. repeat split.
  - intros c t. now apply Client_RefreshToken_returns.
  - intros p t. now apply Password_RefreshToken_returns.
  - apply (Client_GetToken_branches env w c Hfree).
  - now apply Client_GetToken_passes_a_token.
  - apply (Password_GetToken_branches env w p Hfree).
  - now apply Password_GetToken_passes_a_token.
Qed.

Lemma refresh_nil_unreachable_from_GetToken_witness :
  let env := offline 900 in
  run env (Client.RefreshToken aClient None) world0 = (Panicked nilDeref, world0) /\
  run env (Password.RefreshToken aUser None) world0 = (Panicked nilDeref, world0) /\
  GetToken_passes_a_token env world0 aClient /\
  GetToken_passes_a_token env world0 aUser.
Proof.
  intros env.
  destruct (refresh_nil_unreachable_from_GetToken env world0 eq_refl)
    as (H1 & H2 & _ & _ & H5 & H6).
  split; [ apply H1 | split; [ apply H2 | split; [ apply H5 | apply H6 ] ] ].
Defined.

(* ------------------------------------------------------------------ *)
(** ** The request executor                                            *)
(* ------------------------------------------------------------------ *)

Arguments count f l : simpl never.

Lemma count_snoc (f : Obs -> bool) (l : list Obs) (o : Obs) :
  count f (l ++ [o]) = (count f l + (if f o then 1 else 0))%nat.
Proof.
  unfold count. rewrite filter_app, length_app. simpl. destruct (f o); reflexivity.
Qed.

Lemma doRequest_enters_loop {P : Type} `{Provider.AuthProvider P} (env : Env) (w : World)
      (c : api.HTTPAPIClient P) (method path : string) (body : option api.GoValue)
      (req : Request) (w1 : World) :
  reaches_loop env w c method path body req w1 ->
  run env (api.doRequest c method path body) w = run env (api.retryLoop 3 0 req None) w1.
Proof.
  intros (reqBody & bodyStr & token & w' & Hm & Hnew & Hget & -> & ->).
  unfold api.doRequest.
  assert (E : match body with
              | Some v =>
                  match api.json_Marshal v with
                  | inl jsonBytes => inl (BytesBody jsonBytes, jsonBytes)
                  | inr err => inr (Errorf_w "marshal request body: " err)
                  end
              | None => inl (NoBody, "")
              end = inl (reqBody, bodyStr)).
  { destruct body as [v | ]; simpl in Hm.
    - destruct Hm as [-> ->]. reflexivity.
    - destruct Hm as [-> ->]. reflexivity. }
  rewrite E. clear E. rewrite run_bind. cbn [call run handle andThen].
  rewrite Hnew. cbn [andThen]. rewrite run_bind, Hget. cbn [andThen].
  rewrite run_bind. reflexivity.
Qed.

Lemma retryLoop_attempt (env : Env) (left : nat) (attempt : Z) (req : Request)
      (lastErr : option error) (w : World) :
  let w1 := slept attempt w in
  let w2 := tried req w1 in
  run env (api.retryLoop (S left) attempt req lastErr) w =
  match apiAnswer env w1 req with
  | inr err => run env (api.retryLoop left (attempt + 1) req (Some err)) w2
  | inl resp =>
      let w3 := set_lastResponse (snapshot env resp w1) w2 in
      if 500 <=? resp.(StatusCode)
      then run env (api.retryLoop left (attempt + 1) req
                                  (Some (Errorf_d "server error: status " resp.(StatusCode)))) w3
      else (Returned (Some resp, None), w3)
  end.
Proof.
  unfold slept, tried, apiAnswer, snapshot. cbn [api.retryLoop].
  destruct w as [tk tr m ct lrq lrs gs]. rewrite run_bind.
  destruct (0 <? attempt); simpl;
    match goal with
    | |- context [apiServer env ?k req] => destruct (apiServer env k req) as [[sc hd bd] | err]
    end; simpl; try reflexivity;
    match goal with
    | |- context [500 <=? ?sc] => destruct (500 <=? sc); reflexivity
    end.
Qed.

(** C8: when the body does not serialize, [doRequest] fails with that error
    and the world is untouched; when [GetToken] returns an error, it fails
    with that error and the world is as [GetToken] left it: no round trip to
    the resource API is made, and the retry loop is not entered. *)
Theorem doRequest_fails_before_any_attempt {P : Type} `{Provider.AuthProvider P}
        (env : Env) (w : World) (c : api.HTTPAPIClient P) (method path : string) :
  (forall v err,
     api.json_Marshal v = inr err ->
     run env (api.doRequest c method path (Some v)) w =
     (Returned (None, Some (Errorf_w "marshal request body: " err)), w)) /\
  (forall body reqBody bodyStr token err w',
     marshalled body reqBody bodyStr ->
     env.(newRequestErr) method (api.baseURL c ++ path) = None ->
     run env (Provider.GetToken (api.authProvider c)) w = (Returned (token, Some err), w') ->
     run env (api.doRequest c method path body) w =
     (Returned (None, Some (Errorf_w "get auth token: " err)), w')).
Proof.
  split.
  - intros v err Hm. unfold api.doRequest. rewrite Hm. reflexivity.
  - intros body reqBody bodyStr token err w' Hm Hnew Hget. unfold api.doRequest.
    assert (E : match body with
                | Some v =>
                    match api.json_Marshal v with
                    | inl jsonBytes => inl (BytesBody jsonBytes, jsonBytes)
                    | inr err => inr (Errorf_w "marshal request body: " err)
                    end
                | None => inl (NoBody, "")
                end = inl (reqBody, bodyStr)).
    { destruct body as [v | ]; simpl in Hm; destruct Hm as [-> ->]; reflexivity. }
    rewrite E. clear E. rewrite run_bind. cbn [call run handle andThen].
    rewrite Hnew. cbn [andThen]. rewrite run_bind, Hget. reflexivity.
Qed.

Lemma doRequest_fails_before_any_attempt_witness :
  let env := offline 900 in
  let bad := api.Unmarshalable (errorString "json: unsupported type: chan int") in
  let w' := log (ObsIam (clientGrant aClient)) world0 in
  run env (api.doRequest anApp "POST" "/v1/challenges" (Some bad)) world0 =
    (Returned (None, Some (Errorf_w "marshal request body: "
                                    (errorString "json: unsupported type: chan int"))),
     world0) /\
  run env (api.doRequest anApp "GET" "/v1/challenges" None) world0 =
    (Returned (None, Some (Errorf_w "get auth token: " (Errorf_w "request failed: " unreachable))),
     w') /\
  count isApi w'.(trace) = 0%nat.
Proof.
  intros env bad w'.
  destruct (doRequest_fails_before_any_attempt env world0 anApp "POST" "/v1/challenges")
    as [Hm _].
  destruct (doRequest_fails_before_any_attempt env world0 anApp "GET" "/v1/challenges")
    as [_ Hg].
  split; [ | split ].
  - apply Hm. reflexivity.
  - apply (Hg None NoBody "" None); [ split; reflexivity | reflexivity | reflexivity ].
  - reflexivity.
Defined.

(** C2: an attempt that fails in transit or is answered with a status of 500
    or more goes on to the next attempt, and the call fails when none is left;
    an attempt answered with a status below 500 (200 to 499 in particular)
    ends the loop with that response; so a first answer such as 404 makes
    [doRequest] return it after exactly one round trip. *)
Theorem retry_classification (env : Env) (req : Request) :
  (forall left attempt lastErr w,
     let w1 := slept attempt w in
     (forall err, apiAnswer env w1 req = inr err ->
        run env (api.retryLoop (S left) attempt req lastErr) w =
        run env (api.retryLoop left (attempt + 1) req (Some err)) (tried req w1)) /\
     (forall resp, apiAnswer env w1 req = inl resp -> 500 <= resp.(StatusCode) ->
        run env (api.retryLoop (S left) attempt req lastErr) w =
        run env (api.retryLoop left (attempt + 1) req
                               (Some (Errorf_d "server error: status " resp.(StatusCode))))
            (set_lastResponse (snapshot env resp w1) (tried req w1))) /\
     (forall resp, apiAnswer env w1 req = inl resp -> resp.(StatusCode) < 500 ->
        run env (api.retryLoop (S left) attempt req lastErr) w =
        (Returned (Some resp, None),
         set_lastResponse (snapshot env resp w1) (tried req w1)))) /\
  (forall attempt lastErr w,
     run env (api.retryLoop 0 attempt req lastErr) w =
     (Returned (None, Some (api.exhausted lastErr)), w)) /\
  (forall (P : Type) (inst : Provider.AuthProvider P) (c : api.HTTPAPIClient P)
          method path body w w1 resp,
     reaches_loop env w c method path body req w1 ->
     apiAnswer env w1 req = inl resp -> resp.(StatusCode) < 500 ->
     let after := run env (api.doRequest c method path body) w in
     fst after = Returned (Some resp, None) /\
     (snd after).(trace) = (w1.(trace) ++ [ObsApi req])%list).
Proof.
  split; [ | split ].
  - intros left attempt lastErr w w1. subst w1.
    repeat split; intros r Hans; try intros Hst; rewrite retryLoop_attempt; cbv zeta;
      rewrite Hans; try reflexivity.
    + rewrite (proj2 (Z.leb_le _ _) Hst). reflexivity.
    + rewrite (proj2 (Z.leb_gt _ _) Hst). reflexivity.
  - reflexivity.
  - intros P inst c method path body w w1 resp Hreach Hans Hst after. subst after.
    rewrite (doRequest_enters_loop Hreach), retryLoop_attempt. cbv zeta.
    change (slept 0 w1) with w1. rewrite Hans, (proj2 (Z.leb_gt _ _) Hst).
    split; [ reflexivity | ]. destruct w1; reflexivity.
Qed.

Lemma anApp_reaches_loop (answers : list (Response + error)) :
  reaches_loop (serving answers) (holding freshToken) anApp "GET" "/v1/challenges" None
               getChallenges ready.
Proof.
  exists NoBody, "", freshToken, (tick (tick (holding freshToken))).
  split; [ split; reflexivity | ].
  split; [ reflexivity | ].
  split; [ reflexivity | ].
  split; reflexivity.
Defined.

Lemma retry_classification_witness :
  let notFound := mkResponse 404 [] "not found" in
  let env := serving [inl notFound] in
  let after := run env (api.doRequest anApp "GET" "/v1/challenges" None) (holding freshToken) in
  fst after = Returned (Some notFound, None) /\
  (snd after).(trace) = [ObsApi getChallenges].
Proof.
  intros notFound env after.
  destruct (retry_classification env getChallenges) as (_ & _ & H).
  apply (H _ _ anApp "GET" "/v1/challenges" None (holding freshToken) ready notFound).
  - apply anApp_reaches_loop.
  - reflexivity.
  - reflexivity.
Defined.

(** The two sleeps of the loop. *)
Lemma backoff_values : api.backoff 1 = 1 * time.Second /\ api.backoff 2 = 2 * time.Second.
Proof. split; reflexivity. Qed.

Lemma count_isApi_tried (req : Request) (w : World) :
  count isApi (trace (tried req w)) = S (count isApi (trace w)).
Proof. destruct w. simpl. rewrite count_snoc. simpl. apply Nat.add_1_r. Qed.

Lemma count_isApi_slept (attempt : Z) (w : World) :
  count isApi (trace (slept attempt w)) = count isApi (trace w).
Proof.
  unfold slept. destruct (0 <? attempt); [ | reflexivity ].
  destruct w. simpl. rewrite count_snoc. simpl. apply Nat.add_0_r.
Qed.

Lemma count_isApi_set_lastResponse (r : ResponseDebugInfo) (w : World) :
  count isApi (trace (set_lastResponse r w)) = count isApi (trace w).
Proof. reflexivity. Qed.

Lemma trace_tried (req : Request) (w : World) :
  trace (tried req w) = (trace w ++ [ObsApi req])%list.
Proof. destruct w. reflexivity. Qed.

Lemma trace_set_lastResponse (r : ResponseDebugInfo) (w : World) :
  trace (set_lastResponse r w) = trace w.
Proof. reflexivity. Qed.

Lemma trace_slept_0 (w : World) : trace (slept 0 w) = trace w.
Proof. reflexivity. Qed.

Lemma trace_slept_1 (w : World) :
  trace (slept (0 + 1) w) = (trace w ++ [ObsSleep (1 * time.Second)])%list.
Proof. destruct w. reflexivity. Qed.

Lemma trace_slept_2 (w : World) :
  trace (slept (0 + 1 + 1) w) = (trace w ++ [ObsSleep (2 * time.Second)])%list.
Proof. destruct w. reflexivity. Qed.

(** One more turn of the loop, on the answer the context knows. *)
Ltac next_attempt :=
  rewrite retryLoop_attempt; cbv zeta; unfold apiAnswer;
  repeat first [ rewrite count_isApi_slept
               | rewrite count_isApi_set_lastResponse
               | rewrite count_isApi_tried ];
  match goal with
  | A : apiServer ?env ?k ?req = _ |- context [apiServer ?env ?k ?req] => rewrite A
  end;
  try match goal with
      | Hst : 500 <= StatusCode ?r |- context [500 <=? StatusCode ?r] =>
          rewrite (proj2 (Z.leb_le _ _) Hst)
      | Hst : StatusCode ?r < 500 |- context [500 <=? StatusCode ?r] =>
          rewrite (proj2 (Z.leb_gt _ _) Hst)
      end.

Ltac read_trace :=
  cbn [fst snd run api.retryLoop];
  repeat first [ rewrite trace_set_lastResponse | rewrite trace_tried
               | rewrite trace_slept_2 | rewrite trace_slept_1 | rewrite trace_slept_0 ];
  unfold schedule; cbn [firstn]; rewrite <- ?app_assoc; reflexivity.

Ltac as_retryable a H :=
  let A := fresh "A" in
  destruct a as [? | ?] eqn:A; cbn [retryable cause] in H |- *.

(** The loop of three tries, unrolled: [a0], [a1], [a2] are the answers to
    the first, second and third round trip. *)
Lemma retryLoop_three (env : Env) (req : Request) (w : World) :
  let n := count isApi w.(trace) in
  let a0 := env.(apiServer) n req in
  let a1 := env.(apiServer) (S n) req in
  let a2 := env.(apiServer) (S (S n)) req in
  let after := run env (api.retryLoop 3 0 req None) w in
  (forall resp, a0 = inl resp -> resp.(StatusCode) < 500 ->
     fst after = Returned (Some resp, None) /\
     (snd after).(trace) = (w.(trace) ++ firstn 1 (schedule req))%list) /\
  (forall resp, retryable a0 -> a1 = inl resp -> resp.(StatusCode) < 500 ->
     fst after = Returned (Some resp, None) /\
     (snd after).(trace) = (w.(trace) ++ firstn 3 (schedule req))%list) /\
  (forall resp, retryable a0 -> retryable a1 -> a2 = inl resp -> resp.(StatusCode) < 500 ->
     fst after = Returned (Some resp, None) /\
     (snd after).(trace) = (w.(trace) ++ schedule req)%list) /\
  (retryable a0 -> retryable a1 -> retryable a2 ->
     fst after = Returned (None, Some (api.exhausted (Some (cause a2)))) /\
     (snd after).(trace) = (w.(trace) ++ schedule req)%list).
Proof.
  intros n a0 a1 a2 after. subst after n a0 a1 a2.
  split; [ | split; [ | split ] ].
  - intros resp A0 Hst. next_attempt. split; [ reflexivity | read_trace ].
  - intros resp R0 A1 Hst.
    as_retryable (apiServer env (count isApi (trace w)) req) R0;
      next_attempt; next_attempt; (split; [ reflexivity | read_trace ]).
  - intros resp R0 R1 A2 Hst.
    as_retryable (apiServer env (count isApi (trace w)) req) R0;
      as_retryable (apiServer env (S (count isApi (trace w))) req) R1;
      next_attempt; next_attempt; next_attempt; (split; [ reflexivity | read_trace ]).
  - intros R0 R1 R2.
    as_retryable (apiServer env (count isApi (trace w)) req) R0;
      as_retryable (apiServer env (S (count isApi (trace w))) req) R1;
      as_retryable (apiServer env (S (S (count isApi (trace w)))) req) R2;
      next_attempt; next_attempt; next_attempt; (split; [ reflexivity | read_trace ]).
Qed.

Lemma count_app (f : Obs -> bool) (l1 l2 : list Obs) :
  count f (l1 ++ l2) = (count f l1 + count f l2)%nat.
Proof. unfold count. now rewrite filter_app, length_app. Qed.

Lemma answer_cases (a : Response + error) :
  retryable a \/ exists resp, a = inl resp /\ resp.(StatusCode) < 500.
Proof.
  destruct a as [resp | err]; simpl; [ | now left ].
  destruct (Z.le_gt_cases 500 (StatusCode resp)); [ now left | right ].
  exists resp. split; [ reflexivity | lia ].
Qed.

Lemma exhausted_message (e : error) :
  Error (api.exhausted (Some e)) = "request failed after 3 attempts: " ++ Error e /\
  Unwrap (api.exhausted (Some e)) = Some e.
Proof. split; reflexivity. Qed.

(** C3: [doRequest] makes at most three round trips; it does not sleep
    before the first, sleeps one second before the second and two seconds
    before the third; and when all three fail in transit or with a status of
    500 or more, it returns the error "request failed after 3 attempts: ..."
    wrapping the cause of the last failure. *)
Theorem three_tries_with_backoff {P : Type} `{Provider.AuthProvider P}
        (env : Env) (w : World) (c : api.HTTPAPIClient P) (method path : string)
        (body : option api.GoValue) (req : Request) (w1 : World) :
  reaches_loop env w c method path body req w1 ->
  let n := count isApi w1.(trace) in
  let a0 := env.(apiServer) n req in
  let a1 := env.(apiServer) (S n) req in
  let a2 := env.(apiServer) (S (S n)) req in
  let after := run env (api.doRequest c method path body) w in
  (exists k, (k = 1 \/ k = 3 \/ k = 5)%nat /\
             (snd after).(trace) = (w1.(trace) ++ firstn k (schedule req))%list) /\
  (count isApi (snd after).(trace) <= n + 3)%nat /\
  (retryable a0 -> retryable a1 -> retryable a2 ->
   (snd after).(trace) = (w1.(trace) ++ schedule req)%list /\
   exists e, fst after = Returned (None, Some e) /\
             Error e = "request failed after 3 attempts: " ++ Error (cause a2) /\
             Unwrap e = Some (cause a2)).
Proof.
  intros Hreach n a0 a1 a2 after. subst after.
  rewrite (doRequest_enters_loop Hreach).
  destruct (retryLoop_three env req w1) as (L1 & L2 & L3 & L4).
  fold n a0 a1 a2 in L1, L2, L3, L4.
  assert (Htrace : exists k, (k = 1 \/ k = 3 \/ k = 5)%nat /\
            trace (snd (run env (api.retryLoop 3 0 req None) w1)) =
            (trace w1 ++ firstn k (schedule req))%list).
  { destruct (answer_cases a0) as [R0 | (r0 & E0 & S0)].
    - destruct (answer_cases a1) as [R1 | (r1 & E1 & S1)].
      + destruct (answer_cases a2) as [R2 | (r2 & E2 & S2)].
        * exists 5%nat. split; [ auto | apply (L4 R0 R1 R2) ].
        * exists 5%nat. split; [ auto | apply (L3 r2 R0 R1 E2 S2) ].
      + exists 3%nat. split; [ auto | apply (L2 r1 R0 E1 S1) ].
    - exists 1%nat. split; [ auto | apply (L1 r0 E0 S0) ]. }
  split; [ exact Htrace | split ].
  - destruct Htrace as (k & Hk & ->). rewrite count_app. fold n.
    apply Nat.add_le_mono_l.
    destruct Hk as [-> | [-> | ->]]; vm_compute; lia.
  - intros R0 R1 R2. destruct (L4 R0 R1 R2) as [Hres Htr].
    split; [ exact Htr | ].
    exists (api.exhausted (Some (cause a2))).
    split; [ exact Hres | apply exhausted_message ].
Qed.

Lemma three_tries_with_backoff_witness :
  let down := mkResponse 503 [] "unavailable" in
  let env := serving [inl down; inr unreachable; inl down] in
  let after := run env (api.doRequest anApp "GET" "/v1/challenges" None) (holding freshToken) in
  (snd after).(trace) =
    [ObsApi getChallenges; ObsSleep (1 * time.Second);
     ObsApi getChallenges; ObsSleep (2 * time.Second); ObsApi getChallenges] /\
  exists e, fst after = Returned (None, Some e) /\
            Error e = "request failed after 3 attempts: server error: status 503" /\
            Unwrap e = Some (errorString "server error: status 503").
Proof.
  intros down env after.
  destruct (three_tries_with_backoff (anApp_reaches_loop [inl down; inr unreachable; inl down]))
    as (_ & _ & H).
  apply H.
  - simpl. discriminate.
  - exact I.
  - simpl. discriminate.
Defined.

(* ------------------------------------------------------------------ *)
(** ** Concurrent access to the current token                          *)
(* ------------------------------------------------------------------ *)

Module ConcFacts.
Import Conc.
Import pool.

Lemma holders_app (f : mode -> bool) (l1 l2 : list mode) :
  holders f (l1 ++ l2) = (holders f l1 + holders f l2)%nat.
Proof. unfold holders. now rewrite filter_app, length_app. Qed.

Lemma holders_cons (f : mode -> bool) (m : mode) (l : list mode) :
  holders f (m :: l) = ((if f m then 1 else 0) + holders f l)%nat.
Proof. unfold holders. simpl. destruct (f m); reflexivity. Qed.

Lemma storing_app (l1 l2 : list thread) :
  storing (l1 ++ l2) = (storing l1 + storing l2)%nat.
Proof. unfold storing. now rewrite filter_app, length_app. Qed.

Lemma storing_cons (th : thread) (l : list thread) :
  storing (th :: l) = ((if isStoring th then 1 else 0) + storing l)%nat.
Proof. unfold storing. simpl. destruct (isStoring th); reflexivity. Qed.

Lemma storing_le_writers (ms : list mode) (ths : list thread) :
  Forall2 thread_mode ms ths -> (storing ths <= holders isW ms)%nat.
Proof.
  induction 1 as [ | m th ms ths Hm _ IH ]; [ reflexivity | ].
  rewrite storing_cons, holders_cons.
  destruct th as [p | t k]; simpl in *.
  - lia.
  - destruct Hm as [-> _]. simpl. lia.
Qed.

(** A pool split around one goroutine, with the modes split alike. *)
Lemma modes_split (ms : list mode) (l1 l2 : list thread) (th : thread) :
  Forall2 thread_mode ms (l1 ++ th :: l2) ->
  exists ms1 m ms2,
    ms = (ms1 ++ m :: ms2)%list /\
    Forall2 thread_mode ms1 l1 /\ thread_mode m th /\ Forall2 thread_mode ms2 l2.
Proof.
  intros H. apply Forall2_app_inv_r in H as (ms1 & ms' & H1 & H2 & ->).
  inversion H2 as [ | m th' ms2 l2' Hm H2' ]; subst.
  exists ms1, m, ms2. auto.
Qed.

Lemma modes_join (ms1 ms2 : list mode) (m : mode) (l1 l2 : list thread) (th : thread)
      (new : list thread) :
  Forall2 thread_mode ms1 l1 -> thread_mode m th -> Forall2 thread_mode ms2 l2 ->
  Forall (thread_mode U) new ->
  Forall2 thread_mode (ms1 ++ m :: ms2 ++ map (fun _ => U) new) (l1 ++ th :: l2 ++ new).
Proof.
  intros H1 Hm H2 Hnew. apply Forall2_app; [ exact H1 | ].
  constructor; [ exact Hm | ]. apply Forall2_app; [ exact H2 | ].
  induction Hnew; simpl; constructor; auto.
Qed.

Lemma holders_new (f : mode -> bool) (new : list thread) :
  f U = false -> holders f (map (fun _ => U) new) = 0%nat.
Proof. intros HU. induction new; simpl; [ reflexivity | ]. rewrite holders_cons, HU. auto. Qed.

Ltac count_holders :=
  repeat first [ rewrite holders_app | rewrite holders_cons | rewrite storing_app
               | rewrite storing_cons | rewrite (holders_new isR) by reflexivity
               | rewrite (holders_new isW) by reflexivity ];
  cbn [isR isW isStoring].

Lemma coherent_step (sh sh' : Shared) (ths ths' : list thread) :
  coherent sh ths -> step (Cfg sh ths) (Cfg sh' ths') -> coherent sh' ths'.
Proof.
  intros (ms & Hms & Hr & Hw & Hc) Hstep.
  inversion Hstep as [ sh0 l1 th l2 sh1 th' new Ht | ]; subst. clear Hstep.
  apply modes_split in Hms as (ms1 & m & ms2 & -> & H1 & Hm & H2).
  assert (Hle1 := storing_le_writers H1). assert (Hle2 := storing_le_writers H2).
  fold (storing (l1 ++ th :: l2)) in Hc.
  unfold coherent. fold (storing (l1 ++ th' :: l2 ++ new)).
  revert Hr Hw Hc. count_holders. intros Hr Hw Hc.
  inversion Ht; subst; clear Ht; cbn [thread_mode disciplined kind_of] in Hm;
    cbn [sh_mu sh_cell readers writer isStoring] in *.
  - (* an outside event *)
    destruct Hm as (m' & Hafter & Hk).
    match goal with Ho : kind_of _ = KOutside |- _ => rewrite Ho in Hafter end.
    inversion Hafter; subst m'.
    exists (ms1 ++ m :: ms2 ++ map (fun _ : thread => U) [])%list. split.
    + apply modes_join; auto. apply Hk.
    + count_holders. simpl. rewrite !Nat.add_0_r. auto.
  - (* RLock *)
    destruct Hm as (m' & Hafter & Hk). destruct m; inversion Hafter; subst m'.
    exists (ms1 ++ R :: ms2 ++ map (fun _ : thread => U) [])%list. split.
    + apply modes_join; auto. apply Hk.
    + count_holders. simpl in *. rewrite !Nat.add_0_r. repeat split; auto; lia.
  - (* RUnlock *)
    destruct Hm as (m' & Hafter & Hk). destruct m; inversion Hafter; subst m'.
    exists (ms1 ++ U :: ms2 ++ map (fun _ : thread => U) [])%list. split.
    + apply modes_join; auto. apply Hk.
    + count_holders. simpl in *. rewrite !Nat.add_0_r.
      destruct b; repeat split; auto; lia.
  - (* Lock *)
    destruct Hm as (m' & Hafter & Hk). destruct m; inversion Hafter; subst m'.
    exists (ms1 ++ W :: ms2 ++ map (fun _ : thread => U) [])%list. split.
    + apply modes_join; auto. apply Hk.
    + count_holders. simpl in *. rewrite !Nat.add_0_r. repeat split; auto; lia.
  - (* Unlock *)
    destruct Hm as (m' & Hafter & Hk). destruct m; inversion Hafter; subst m'.
    exists (ms1 ++ U :: ms2 ++ map (fun _ : thread => U) [])%list. split.
    + apply modes_join; auto. apply Hk.
    + count_holders. simpl in *. rewrite !Nat.add_0_r. repeat split; auto; lia.
  - (* load *)
    destruct Hm as (m' & Hafter & Hk).
    exists (ms1 ++ m' :: ms2 ++ map (fun _ : thread => U) [])%list. split.
    + apply modes_join; auto. apply Hk.
    + destruct m; inversion Hafter; subst m'; count_holders; simpl in *;
        rewrite !Nat.add_0_r; auto.
  - (* the store begins *)
    destruct Hm as (m' & Hafter & Hk). destruct m; inversion Hafter; subst m'.
    exists (ms1 ++ W :: ms2 ++ map (fun _ : thread => U) [])%list. split.
    + apply modes_join; auto. simpl. auto.
    + count_holders. simpl in *. rewrite !Nat.add_0_r. repeat split; auto; lia.
  - (* the store ends *)
    destruct Hm as (-> & Hk).
    exists (ms1 ++ W :: ms2 ++ map (fun _ : thread => U) [])%list. split.
    + apply modes_join; auto.
    + count_holders. simpl in *. rewrite !Nat.add_0_r.
      destruct c; repeat split; auto; lia.
  - (* go *)
    destruct Hm as (Hbody & Hk).
    exists (ms1 ++ m :: ms2 ++ map (fun _ : thread => U) [Running body])%list. split.
    + apply modes_join; auto.
    + count_holders. simpl. rewrite !Nat.add_0_r. auto.
Qed.

Lemma coherent_no_race (sh : Shared) (ths : list thread) :
  coherent sh ths -> ~ step (Cfg sh ths) Race.
Proof.
  intros (ms & Hms & Hr & Hw & Hc) Hstep.
  inversion Hstep as [ | sh0 l1 th l2 Hrace ]; subst. clear Hstep.
  apply modes_split in Hms as (ms1 & m & ms2 & -> & H1 & Hm & H2).
  assert (Hle1 := storing_le_writers H1). assert (Hle2 := storing_le_writers H2).
  fold (storing (l1 ++ th :: l2)) in Hc.
  revert Hr Hw Hc. count_holders. intros Hr Hw Hc.
  inversion Hrace; subst; clear Hrace; cbn [thread_mode disciplined kind_of] in Hm;
    cbn [sh_mu sh_cell isStoring] in *;
    destruct Hm as (m' & Hafter & _);
    destruct m; inversion Hafter; subst m'; cbn [isR isW] in *;
    destruct (writer m0); lia.
Qed.

(** Any goroutine about to read the reference finds it whole. *)
Lemma coherent_reader_sees_whole (sh : Shared) (l1 l2 : list thread)
      (k : option Token -> prog unit) :
  coherent sh (l1 ++ Running (Vis load_currentToken k) :: l2) ->
  exists v, sh.(sh_cell) = Whole v.
Proof.
  intros Hco. destruct sh as [m [v | ]]; [ now exists v | exfalso ].
  apply (coherent_no_race Hco). constructor. constructor.
Qed.

Lemma coherent_exclusive (sh : Shared) (ths : list thread) :
  coherent sh ths -> sh.(sh_mu).(writer) = true -> sh.(sh_mu).(readers) = 0%nat.
Proof. intros (ms & _ & Hr & Hw & _) Hwr. rewrite Hwr in Hw. lia. Qed.

Ltac follow_discipline :=
  repeat first
    [ progress cbn [disciplined kind_of after bind call]
    | match goal with
      | |- exists m', Some _ = Some m' /\ _ => eexists; split; [ reflexivity | intros ]
      | |- _ /\ _ => split
      | |- U = U => reflexivity
      | |- disciplined _ (if ?b then _ else _) => destruct b
      | |- disciplined _ (match ?x with _ => _ end) => destruct x
      | |- disciplined _ (bind (if ?b then _ else _) _) => destruct b
      | |- disciplined _ (bind (match ?x with _ => _ end) _) => destruct x
      end ].

Lemma Client_Authenticate_disciplined (c : Client.ClientAuthProvider) :
  disciplined U (Client.Authenticate c ;; Ret tt).
Proof. unfold Client.Authenticate. follow_discipline. Qed.

Lemma Client_RefreshToken_disciplined (c : Client.ClientAuthProvider) (tk : option Token) :
  disciplined U (Client.RefreshToken c tk ;; Ret tt).
Proof.
  unfold Client.RefreshToken. destruct tk as [t | ]; [ | follow_discipline ].
  destruct (String.eqb (RefreshToken t) ""); [ apply Client_Authenticate_disciplined | ].
  follow_discipline; apply Client_Authenticate_disciplined.
Qed.

Lemma Client_GetToken_disciplined (c : Client.ClientAuthProvider) :
  disciplined U (Client.GetToken c ;; Ret tt).
Proof.
  unfold Client.GetToken. cbn [bind call disciplined kind_of after].
  eexists; split; [ reflexivity | intros _ ].
  eexists; split; [ reflexivity | intros tk ].
  eexists; split; [ reflexivity | intros _ ].
  destruct tk as [t | ]; [ | apply Client_Authenticate_disciplined ].
  cbn [IsExpired bind call disciplined kind_of after].
  eexists; split; [ reflexivity | intros now ].
  destruct (time.After now (ExpiresAt t)); [ apply Client_RefreshToken_disciplined | ].
  cbn [ExpiresIn bind call disciplined kind_of after].
  eexists; split; [ reflexivity | intros now' ].
  destruct (time.Sub (ExpiresAt t) now' <? 5 * time.Minute);
    cbn [bind disciplined]; auto using Client_RefreshToken_disciplined.
Qed.

Lemma Password_Authenticate_disciplined (p : Password.PasswordAuthProvider) :
  disciplined U (Password.Authenticate p ;; Ret tt).
Proof. unfold Password.Authenticate. follow_discipline. Qed.

Lemma Password_RefreshToken_disciplined (p : Password.PasswordAuthProvider)
      (tk : option Token) :
  disciplined U (Password.RefreshToken p tk ;; Ret tt).
Proof.
  unfold Password.RefreshToken. destruct tk as [t | ]; [ | follow_discipline ].
  destruct (String.eqb (RefreshToken t) ""); [ apply Password_Authenticate_disciplined | ].
  follow_discipline; apply Password_Authenticate_disciplined.
Qed.

Lemma Password_GetToken_disciplined (p : Password.PasswordAuthProvider) :
  disciplined U (Password.GetToken p ;; Ret tt).
Proof.
  unfold Password.GetToken. cbn [bind call disciplined kind_of after].
  eexists; split; [ reflexivity | intros _ ].
  eexists; split; [ reflexivity | intros tk ].
  eexists; split; [ reflexivity | intros _ ].
  destruct tk as [t | ]; [ | apply Password_Authenticate_disciplined ].
  cbn [IsExpired bind call disciplined kind_of after].
  eexists; split; [ reflexivity | intros now ].
  destruct (time.After now (ExpiresAt t)); [ apply Password_RefreshToken_disciplined | ].
  cbn [ExpiresIn bind call disciplined kind_of after].
  eexists; split; [ reflexivity | intros now' ].
  destruct (time.Sub (ExpiresAt t) now' <? 5 * time.Minute);
    cbn [bind disciplined]; auto using Password_RefreshToken_disciplined.
Qed.

Lemma provider_call_disciplined (p : prog unit) :
  provider_call p -> disciplined U p.
Proof.
  destruct 1;
    auto using Client_GetToken_disciplined, Client_Authenticate_disciplined,
               Client_RefreshToken_disciplined, Password_GetToken_disciplined,
               Password_Authenticate_disciplined, Password_RefreshToken_disciplined.
Qed.

Lemma coherent_initially (v0 : option Token) (ps : list (prog unit)) :
  Forall provider_call ps ->
  coherent (mkShared unlocked (Whole v0)) (map Running ps).
Proof.
  intros Hps. exists (map (fun _ => U) ps). cbn [sh_mu sh_cell unlocked readers writer].
  induction Hps as [ | p ps Hp _ IH ]; simpl.
  - repeat split; constructor.
  - destruct IH as (IH1 & IH2 & IH3 & IH4). repeat split; auto.
    constructor; [ now apply provider_call_disciplined | exact IH1 ].
Qed.

End ConcFacts.

(** C9: goroutines running [GetToken], [Authenticate] and [RefreshToken] of
    a networked provider (and the background refreshes they start), in any
    interleaving, never touch the current-token reference while it is being
    written: no run reaches a race, a goroutine about to read finds a whole
    value, and the write lock is held only while no read lock is. *)
Theorem no_reader_sees_a_torn_token (v0 : option Token) (ps : list (prog unit))
        (cfg : Conc.config) :
  Forall Conc.provider_call ps ->
  Conc.reachable (Conc.Cfg (Conc.mkShared unlocked (Conc.Whole v0)) (map Conc.Running ps)) cfg ->
  cfg <> Conc.Race /\
  ~ Conc.step cfg Conc.Race /\
  (forall sh l1 k l2,
     cfg = Conc.Cfg sh (l1 ++ Conc.Running (Vis load_currentToken k) :: l2) ->
     exists v, sh.(Conc.sh_cell) = Conc.Whole v) /\
  (forall sh ths, cfg = Conc.Cfg sh ths ->
     sh.(Conc.sh_mu).(writer) = true -> sh.(Conc.sh_mu).(readers) = 0%nat).
Proof.
  intros Hps Hreach.
  assert (Hinv : match cfg with
                 | Conc.Cfg sh ths => Conc.coherent sh ths
                 | Conc.Race => False
                 end).
  { induction Hreach as [ | c c' _ IH Hstep ].
    - now apply ConcFacts.coherent_initially.
    - destruct c as [sh ths | ]; [ | contradiction ].
      destruct c' as [sh' ths' | ].
      + exact (ConcFacts.coherent_step IH Hstep).
      + exact (ConcFacts.coherent_no_race IH Hstep). }
  destruct cfg as [sh ths | ]; [ | contradiction ].
  split; [ discriminate | split; [ | split ] ].
  - now apply ConcFacts.coherent_no_race.
  - intros sh' l1 k l2 E. inversion E; subst.
    eapply ConcFacts.coherent_reader_sees_whole; eassumption.
  - intros sh' ths' E. inversion E; subst.
    now apply ConcFacts.coherent_exclusive with (ths := ths').
Qed.

Lemma reachable_after (c0 c1 c : Conc.config) :
  Conc.step c0 c1 -> Conc.reachable c1 c -> Conc.reachable c0 c.
Proof.
  intros Hstep Hreach. induction Hreach as [ | c c' _ IH Hs ].
  - eapply Conc.reach_step; [ apply Conc.reach_refl | exact Hstep ].
  - eapply Conc.reach_step; [ exact IH | exact Hs ].
Defined.

(** The goroutine at place 0, or at place 1, takes a step. *)
Ltac first_thread :=
  eapply reachable_after;
  [ match goal with
    | |- Conc.step (Conc.Cfg ?sh (?th :: ?rest)) _ =>
        apply (@Conc.s_thread sh [] th rest)
    end | ].

Ltac second_thread :=
  eapply reachable_after;
  [ match goal with
    | |- Conc.step (Conc.Cfg ?sh (?th0 :: ?th :: ?rest)) _ =>
        apply (@Conc.s_thread sh [th0] th rest)
    end | ].

(** [Authenticate] up to the middle of its store: the request is made, the
    token endpoint grants t1 for an hour, the clock reads 900, the lock is
    taken and the store begins. *)
Ltac grant_until_store waiting :=
  first_thread;
  [ unfold Client.Authenticate; cbn -[waiting];
    eapply (@Conc.t_outside _ _ _ _
              (inl (mkRequest "POST" "https://demo.accelbyte.io/iam/v3/oauth/token" [] None
                              (FormBody [("grant_type", "client_credentials")]))));
    reflexivity | ];
  cbn -[waiting];
  first_thread;
  [ eapply (@Conc.t_outside _ _ _ _
              (inl (mkIamResponse 200 (Parsed (JObject [("access_token", JString "t1");
                                                        ("token_type", JString "Bearer");
                                                        ("expires_in", JNumber (IntLit 3600))])))));
    reflexivity | ];
  cbn -[waiting];
  first_thread; [ eapply (@Conc.t_outside _ _ _ _ 900); reflexivity | ];
  cbn -[waiting];
  first_thread; [ apply Conc.t_lock | ];
  cbn -[waiting];
  first_thread; [ apply Conc.t_store_begin | ];
  cbn -[waiting].

Lemma store_in_progress_reached :
  exists k,
  Conc.reachable
    (Conc.Cfg (Conc.mkShared unlocked (Conc.Whole None)) (map Conc.Running twoCalls))
    (Conc.Cfg (Conc.mkShared (mkRWMutex 0 true) Conc.Torn)
              [Conc.Storing (Some granted) k; Conc.Running (Client.GetToken aClient ;; Ret tt)]).
Proof.
  eexists. unfold twoCalls.
  set (waiting := Client.GetToken aClient ;; Ret tt).
  cbn [map].
  grant_until_store waiting.
  apply Conc.reach_refl.
Defined.

Lemma read_after_store_reached :
  exists k0 k1,
  Conc.reachable
    (Conc.Cfg (Conc.mkShared unlocked (Conc.Whole None)) (map Conc.Running twoCalls))
    (Conc.Cfg (Conc.mkShared (mkRWMutex 1 false) (Conc.Whole (Some granted)))
              [Conc.Running k0; Conc.Running (Vis load_currentToken k1)]).
Proof.
  do 2 eexists. unfold twoCalls.
  set (waiting := Client.GetToken aClient ;; Ret tt).
  cbn [map].
  grant_until_store waiting.
  first_thread; [ apply Conc.t_store_end | ].
  cbn -[waiting].
  first_thread; [ apply Conc.t_unlock | ].
  cbn -[waiting].
  subst waiting. unfold Client.GetToken. cbn.
  second_thread; [ apply Conc.t_rlock | ].
  cbn.
  apply Conc.reach_refl.
Defined.

Lemma no_reader_sees_a_torn_token_witness :
  let c0 := Conc.Cfg (Conc.mkShared unlocked (Conc.Whole None)) (map Conc.Running twoCalls) in
  (exists k,
     let storing :=
       Conc.Cfg (Conc.mkShared (mkRWMutex 0 true) Conc.Torn)
                [Conc.Storing (Some granted) k;
                 Conc.Running (Client.GetToken aClient ;; Ret tt)] in
     Conc.reachable c0 storing /\ storing <> Conc.Race /\ ~ Conc.step storing Conc.Race) /\
  (exists k0 k1,
     let reading :=
       Conc.Cfg (Conc.mkShared (mkRWMutex 1 false) (Conc.Whole (Some granted)))
                [Conc.Running k0; Conc.Running (Vis load_currentToken k1)] in
     Conc.reachable c0 reading /\ reading <> Conc.Race /\ ~ Conc.step reading Conc.Race).
Proof.
  intros c0.
  assert (Hcalls : Forall Conc.provider_call twoCalls) by (repeat constructor).
  split.
  - destruct store_in_progress_reached as (k & Hreach). exists k. cbv zeta.
    destruct (no_reader_sees_a_torn_token Hcalls Hreach) as (H1 & H2 & _).
    split; [ exact Hreach | split; assumption ].
  - destruct read_after_store_reached as (k0 & k1 & Hreach). exists k0, k1. cbv zeta.
    destruct (no_reader_sees_a_torn_token Hcalls Hreach) as (H1 & H2 & _).
    split; [ exact Hreach | split; assumption ].
Defined.

(** X25: without the lock the same semantics does find a race: two
    goroutines refreshing the mock provider's token can meet in the middle
    of a store. *)
Lemma mock_refresh_can_race (m : Mock.MockAuthProvider) (v0 tok : option Token) :
  Conc.reachable
    (Conc.Cfg (Conc.mkShared unlocked (Conc.Whole v0))
              (map Conc.Running [Mock.RefreshToken m tok ;; Ret tt;
                                 Mock.RefreshToken m tok ;; Ret tt]))
    Conc.Race.
Proof.
  set (sh := Conc.mkShared unlocked (Conc.Whole v0)).
  set (p := Mock.RefreshToken m tok ;; Ret tt).
  assert (Hp : exists k : time.Time -> time.Time -> time.Time -> Token,
             p = Vis time_Now (fun t1 => Vis time_Now (fun t2 => Vis time_Now (fun now =>
                 Vis (store_currentToken (Some (k t1 t2 now))) (fun _ => Ret tt))))).
  { eexists. reflexivity. }
  destruct Hp as (k & Hp). simpl map. rewrite Hp. clear Hp p.
  set (p3 := fun t1 t2 now => Vis (store_currentToken (Some (k t1 t2 now))) (fun _ => @Ret unit tt)).
  set (p2 := fun t1 t2 => Vis time_Now (fun now => p3 t1 t2 now)).
  set (p1 := fun t1 => Vis time_Now (fun t2 => p2 t1 t2)).
  set (p0 := Vis time_Now (fun t1 => p1 t1)).
  assert (S1 : Conc.reachable (Conc.Cfg sh [Conc.Running p0; Conc.Running p0])
                              (Conc.Cfg sh [Conc.Running (p3 0 0 0); Conc.Running p0])).
  { eapply Conc.reach_step; [ eapply Conc.reach_step; [ eapply Conc.reach_step;
      [ apply Conc.reach_refl | ] | ] | ].
    - apply (@Conc.s_thread sh [] (Conc.Running p0) [Conc.Running p0] sh
                            (Conc.Running (p1 0)) []).
      apply (@Conc.t_outside sh _ time_Now (fun t1 => p1 t1) 0). reflexivity.
    - apply (@Conc.s_thread sh [] (Conc.Running (p1 0)) [Conc.Running p0] sh
                            (Conc.Running (p2 0 0)) []).
      apply (@Conc.t_outside sh _ time_Now (fun t2 => p2 0 t2) 0). reflexivity.
    - apply (@Conc.s_thread sh [] (Conc.Running (p2 0 0)) [Conc.Running p0] sh
                            (Conc.Running (p3 0 0 0)) []).
      apply (@Conc.t_outside sh _ time_Now (fun now => p3 0 0 now) 0). reflexivity. }
  assert (S2 : Conc.reachable (Conc.Cfg sh [Conc.Running p0; Conc.Running p0])
                              (Conc.Cfg sh [Conc.Running (p3 0 0 0); Conc.Running (p3 0 0 0)])).
  { eapply Conc.reach_step; [ eapply Conc.reach_step; [ eapply Conc.reach_step;
      [ exact S1 | ] | ] | ].
    - apply (@Conc.s_thread sh [Conc.Running (p3 0 0 0)] (Conc.Running p0) [] sh
                            (Conc.Running (p1 0)) []).
      apply (@Conc.t_outside sh _ time_Now (fun t1 => p1 t1) 0). reflexivity.
    - apply (@Conc.s_thread sh [Conc.Running (p3 0 0 0)] (Conc.Running (p1 0)) [] sh
                            (Conc.Running (p2 0 0)) []).
      apply (@Conc.t_outside sh _ time_Now (fun t2 => p2 0 t2) 0). reflexivity.
    - apply (@Conc.s_thread sh [Conc.Running (p3 0 0 0)] (Conc.Running (p2 0 0)) [] sh
                            (Conc.Running (p3 0 0 0)) []).
      apply (@Conc.t_outside sh _ time_Now (fun now => p3 0 0 now) 0). reflexivity. }
  eapply Conc.reach_step; [ eapply Conc.reach_step; [ exact S2 | ] | ].
  - apply (@Conc.s_thread sh [] (Conc.Running (p3 0 0 0)) [Conc.Running (p3 0 0 0)]
                          (Conc.mkShared unlocked Conc.Torn)
                          (Conc.Storing (Some (k 0 0 0)) (fun _ => Ret tt)) []).
    apply Conc.t_store_begin.
  - apply (@Conc.s_race (Conc.mkShared unlocked Conc.Torn)
                        [Conc.Storing (Some (k 0 0 0)) (fun _ => Ret tt)]
                        (Conc.Running (p3 0 0 0)) []).
    apply Conc.r_store.
Qed.

(* ------------------------------------------------------------------ *)
(** ** The mock token: encoders are one-to-one                         *)
(* ------------------------------------------------------------------ *)

Lemma byte_range (c : ascii) : 0 <= byte c < 256.
Proof.
  unfold byte. pose proof (N_ascii_bounded c) as H. lia.
Qed.

Lemma byte_inj (a b : ascii) : byte a = byte b -> a = b.
Proof.
  unfold byte. intros H. apply N2Z.inj in H.
  rewrite <- (ascii_N_embedding a), <- (ascii_N_embedding b). now rewrite H.
Qed.

Lemma lor_shiftl_low (x y n : Z) :
  0 <= n -> 0 <= y < 2 ^ n -> Z.lor (Z.shiftl x n) y = x * 2 ^ n + y.
Proof.
  intros Hn Hy. rewrite <- Z.shiftl_mul_pow2 by assumption.
  rewrite <- Z.add_lor_land.
  assert (E : Z.land (Z.shiftl x n) y = 0).
  { apply Z.bits_inj'. intros k Hk. rewrite Z.land_spec, Z.bits_0.
    destruct (Z.lt_ge_cases k n) as [Hlt | Hge].
    - rewrite Z.shiftl_spec_low by assumption. reflexivity.
    - destruct (Z.eq_dec y 0) as [-> | Hy0].
      + rewrite Z.bits_0. apply andb_false_r.
      + rewrite (Z.bits_above_log2 y k); [ apply andb_false_r | lia | ].
        apply Z.log2_lt_pow2; [ lia | ].
        apply Z.lt_le_trans with (2 ^ n); [ lia | ].
        apply Z.pow_le_mono_r; lia. }
  rewrite E. lia.
Qed.

Lemma land_shiftr (x k : Z) :
  0 <= k -> Z.land (Z.shiftr x k) 63 = (x / 2 ^ k) mod 64.
Proof.
  intros Hk. rewrite Z.shiftr_div_pow2 by assumption.
  change 63 with (Z.ones 6). rewrite Z.land_ones by lia. reflexivity.
Qed.

Lemma lor_low (x y n : Z) :
  0 <= n -> 0 <= y < 2 ^ n -> x mod 2 ^ n = 0 -> Z.lor x y = x + y.
Proof.
  intros Hn Hy Hx.
  assert (E : x = Z.shiftl (x / 2 ^ n) n).
  { rewrite Z.shiftl_mul_pow2 by assumption.
    pose proof (Z.div_mod x (2 ^ n)) as D. rewrite Hx in D. lia. }
  rewrite E at 1. rewrite lor_shiftl_low by assumption.
  rewrite Z.shiftl_mul_pow2 in E by assumption. lia.
Qed.

Module base64_facts.
Import base64.
Import base64_back.

Lemma dec_enc (i : Z) : 0 <= i < 64 -> dec (enc i) = i.
Proof.
  intros Hi.
  assert (H : forallb (fun n => dec (enc (Z.of_nat n)) =? Z.of_nat n) (seq 0 64) = true)
    by (vm_compute; reflexivity).
  rewrite forallb_forall in H.
  specialize (H (Z.to_nat i)). rewrite Z2Nat.id in H by lia.
  apply Z.eqb_eq, H, in_seq. lia.
Qed.

Lemma enc_inj (i j : Z) : 0 <= i < 64 -> 0 <= j < 64 -> enc i = enc j -> i = j.
Proof.
  intros Hi Hj E. rewrite <- (dec_enc Hi), <- (dec_enc Hj). now rewrite E.
Qed.

Lemma val3 (a b c : Z) :
  0 <= a < 256 -> 0 <= b < 256 -> 0 <= c < 256 ->
  Z.lor (Z.lor (Z.shiftl a 16) (Z.shiftl b 8)) c = a * 65536 + b * 256 + c.
Proof.
  intros Ha Hb Hc. rewrite !Z.shiftl_mul_pow2 by lia.
  change (2 ^ 16) with 65536. change (2 ^ 8) with 256.
  rewrite (@lor_low (a * 65536) (b * 256) 16); [ | lia | change (2 ^ 16) with 65536; lia | ].
  - apply (@lor_low (a * 65536 + b * 256) c 8); [ lia | change (2 ^ 8) with 256; lia | ].
    change (2 ^ 8) with 256. Z.to_euclidean_division_equations. lia.
  - change (2 ^ 16) with 65536. apply Z.mod_mul. lia.
Qed.

Lemma val2 (a b : Z) :
  0 <= a < 256 -> 0 <= b < 256 ->
  Z.lor (Z.shiftl a 16) (Z.shiftl b 8) = a * 65536 + b * 256.
Proof.
  intros Ha Hb. pose proof (@val3 a b 0 Ha Hb ltac:(lia)) as H.
  rewrite Z.lor_0_r in H. lia.
Qed.

Lemma land_63 (x : Z) : Z.land x 63 = x mod 64.
Proof. change 63 with (Z.ones 6). now rewrite Z.land_ones by lia. Qed.

Lemma Encode3 (a b c : ascii) (rest : string) :
  EncodeToString (String a (String b (String c rest))) =
  String (enc ((group a b c / 262144) mod 64))
    (String (enc ((group a b c / 4096) mod 64))
      (String (enc ((group a b c / 64) mod 64))
        (String (enc (group a b c mod 64)) (EncodeToString rest)))).
Proof.
  cbn [EncodeToString]. cbv zeta.
  rewrite (val3 (byte_range a) (byte_range b) (byte_range c)).
  rewrite !land_shiftr by lia. rewrite land_63. reflexivity.
Qed.

Lemma Encode2 (a b : ascii) :
  EncodeToString (String a (String b EmptyString)) =
  String (enc ((group a b zero / 262144) mod 64))
    (String (enc ((group a b zero / 4096) mod 64))
      (String (enc ((group a b zero / 64) mod 64)) EmptyString)).
Proof.
  cbn [EncodeToString]. cbv zeta.
  rewrite (val2 (byte_range a) (byte_range b)).
  rewrite !land_shiftr by lia. unfold group. change (byte zero) with 0.
  rewrite Z.add_0_r. reflexivity.
Qed.

Lemma Encode1 (a : ascii) :
  EncodeToString (String a EmptyString) =
  String (enc ((group a zero zero / 262144) mod 64))
    (String (enc ((group a zero zero / 4096) mod 64)) EmptyString).
Proof.
  cbn [EncodeToString]. cbv zeta.
  rewrite Z.shiftl_mul_pow2 by lia.
  rewrite !land_shiftr by lia. unfold group. change (byte zero) with 0.
  change (2 ^ 16) with 65536. rewrite Z.mul_0_l, !Z.add_0_r. reflexivity.
Qed.

Lemma string_ind3 (P : string -> Prop) :
  P EmptyString ->
  (forall a, P (String a EmptyString)) ->
  (forall a b, P (String a (String b EmptyString))) ->
  (forall a b c rest, P rest -> P (String a (String b (String c rest)))) ->
  forall s, P s.
Proof.
  intros H0 H1 H2 H3. fix IH 1.
  intros [ | a [ | b [ | c rest ] ] ];
    [ apply H0 | apply H1 | apply H2 | apply H3, IH ].
Qed.

Ltac sextets_agree :=
  repeat match goal with
         | E : enc _ = enc _ |- _ =>
             apply enc_inj in E; [ | apply Z.mod_pos_bound; lia | apply Z.mod_pos_bound; lia ]
         end.

Lemma group_inj_3 (a b c a' b' c' : ascii) :
  (group a b c / 262144) mod 64 = (group a' b' c' / 262144) mod 64 ->
  (group a b c / 4096) mod 64 = (group a' b' c' / 4096) mod 64 ->
  (group a b c / 64) mod 64 = (group a' b' c' / 64) mod 64 ->
  group a b c mod 64 = group a' b' c' mod 64 ->
  a = a' /\ b = b' /\ c = c'.
Proof.
  unfold group.
  pose proof (byte_range a). pose proof (byte_range b). pose proof (byte_range c).
  pose proof (byte_range a'). pose proof (byte_range b'). pose proof (byte_range c').
  intros E0 E1 E2 E3.
  assert (byte a = byte a' /\ byte b = byte b' /\ byte c = byte c')
    by (Z.to_euclidean_division_equations; lia).
  repeat split; apply byte_inj; tauto.
Qed.

Lemma group_tail_2 (a b : ascii) : group a b zero mod 64 = 0.
Proof.
  unfold group. change (byte zero) with 0.
  pose proof (byte_range a). pose proof (byte_range b).
  Z.to_euclidean_division_equations. lia.
Qed.

Lemma group_tail_1 (a : ascii) :
  (group a zero zero / 64) mod 64 = 0 /\ group a zero zero mod 64 = 0.
Proof.
  unfold group. change (byte zero) with 0.
  pose proof (byte_range a).
  split; Z.to_euclidean_division_equations; lia.
Qed.

(** base64.RawURLEncoding.EncodeToString is one-to-one. *)
Lemma EncodeToString_inj (s1 : string) :
  forall s2, EncodeToString s1 = EncodeToString s2 -> s1 = s2.
Proof.
  induction s1 as [ | a | a b | a b c rest IH ] using string_ind3;
    intros [ | a' [ | b' [ | c' rest' ] ] ];
    rewrite ?Encode1, ?Encode2, ?Encode3;
    try (cbn [EncodeToString]; intros E; congruence).
  - intros E. injection E as E0 E1. sextets_agree.
    destruct (group_tail_1 a) as [Z2 Z3]. destruct (group_tail_1 a') as [Z2' Z3'].
    destruct (@group_inj_3 a zero zero a' zero zero) as (-> & _); congruence.
  - intros E. injection E as E0 E1 E2. sextets_agree.
    pose proof (group_tail_2 a b). pose proof (group_tail_2 a' b').
    destruct (@group_inj_3 a b zero a' b' zero) as (-> & -> & _); congruence.
  - intros E. injection E as E0 E1 E2 E3 Erest. sextets_agree.
    destruct (group_inj_3 _ _ _ _ _ _ E0 E1 E2 E3) as (-> & -> & ->).
    now rewrite (IH _ Erest).
Qed.

End base64_facts.

(** *** Strings *)

Lemma append_assoc (a b c : string) : ((a ++ b) ++ c = a ++ (b ++ c))%string.
Proof. induction a as [ | x a IH ]; simpl; [ reflexivity | now rewrite IH ]. Qed.

Lemma append_length (a b : string) :
  String.length (a ++ b) = (String.length a + String.length b)%nat.
Proof. induction a as [ | x a IH ]; simpl; [ reflexivity | now rewrite IH ]. Qed.

Lemma append_inv_head (p a b : string) : (p ++ a = p ++ b)%string -> a = b.
Proof. induction p as [ | x p IH ]; simpl; intros E; [ exact E | ]. injection E. exact IH. Qed.

Lemma append_inv_tail (s a : string) : forall b, (a ++ s = b ++ s)%string -> a = b.
Proof.
  induction a as [ | x a IH ]; intros [ | y b ] E; simpl in E.
  - reflexivity.
  - apply (f_equal String.length) in E. simpl in E. rewrite append_length in E. lia.
  - apply (f_equal String.length) in E. simpl in E. rewrite append_length in E. lia.
  - injection E as -> E. now rewrite (IH _ E).
Qed.

(** Two texts free of [c], each followed by [c], split alike. *)
Lemma split_at (c : ascii) (a1 : string) :
  forall a2 r1 r2,
    occurs c a1 = false -> occurs c a2 = false ->
    (a1 ++ String c r1 = a2 ++ String c r2)%string -> a1 = a2 /\ r1 = r2.
Proof.
  induction a1 as [ | x a1 IH ]; intros [ | y a2 ] r1 r2 H1 H2 E; simpl in *.
  - injection E as ->. auto.
  - injection E as <- _. rewrite Ascii.eqb_refl in H2. discriminate.
  - injection E as -> _. rewrite Ascii.eqb_refl in H1. discriminate.
  - injection E as -> E. apply orb_false_elim in H1 as [_ H1].
    apply orb_false_elim in H2 as [_ H2].
    destruct (IH _ _ _ H1 H2 E) as [-> ->]. auto.
Qed.

(** *** Decimal numbers *)

Ltac not_the_digit Hc :=
  apply Ascii.eqb_neq; intros <-; vm_compute in Hc; discriminate Hc.

Lemma string_of_uint_digits (c : ascii) (d : Decimal.uint) :
  isDigitOrMinus c = false -> occurs c (NilEmpty.string_of_uint d) = false.
Proof.
  intros Hc. induction d; cbn [NilEmpty.string_of_uint occurs]; try reflexivity;
    rewrite IHd, orb_false_r; not_the_digit Hc.
Qed.

Lemma Itoa_digits (c : ascii) (z : Z) :
  isDigitOrMinus c = false -> occurs c (GoInt.Itoa z) = false.
Proof.
  intros Hc. unfold GoInt.Itoa, NilZero.string_of_int.
  assert (U : forall d, occurs c (NilZero.string_of_uint d) = false).
  { intros d. unfold NilZero.string_of_uint.
    destruct d; try (now apply string_of_uint_digits).
    cbn [occurs]. rewrite orb_false_r. not_the_digit Hc. }
  destruct (Z.to_int z) as [d | d]; [ apply U | ].
  cbn [occurs]. rewrite U, orb_false_r. not_the_digit Hc.
Qed.

(** *** UTF-8 decoding *)

Module utf8_facts.
Import utf8.
Import utf8_shape.

Lemma land_low (x n : Z) : 0 <= n -> Z.land x (2 ^ n - 1) = x mod 2 ^ n.
Proof.
  intros Hn. replace (2 ^ n - 1) with (Z.ones n) by (rewrite Z.ones_equiv; lia).
  now apply Z.land_ones.
Qed.

Lemma rune2_arith (a b : Z) :
  0 <= b < 64 -> Z.lor (Z.shiftl a 6) b = a * 64 + b.
Proof. intros Hb. rewrite lor_shiftl_low; [ reflexivity | lia | exact Hb ]. Qed.

Lemma rune3_arith (a b c : Z) :
  0 <= b < 64 -> 0 <= c < 64 ->
  Z.lor (Z.lor (Z.shiftl a 12) (Z.shiftl b 6)) c = a * 4096 + b * 64 + c.
Proof.
  intros Hb Hc. rewrite (Z.shiftl_mul_pow2 b 6) by lia.
  rewrite (@lor_shiftl_low a (b * 2 ^ 6) 12); [ | lia | lia ].
  change (2 ^ 12) with 4096. change (2 ^ 6) with 64.
  apply (@lor_low (a * 4096 + b * 64) c 6); [ lia | exact Hc | ].
  change (2 ^ 6) with 64. Z.to_euclidean_division_equations. lia.
Qed.

Lemma rune4_arith (a b c d : Z) :
  0 <= b < 64 -> 0 <= c < 64 -> 0 <= d < 64 ->
  Z.lor (Z.lor (Z.lor (Z.shiftl a 18) (Z.shiftl b 12)) (Z.shiftl c 6)) d =
  a * 262144 + b * 4096 + c * 64 + d.
Proof.
  intros Hb Hc Hd. rewrite (Z.shiftl_mul_pow2 b 12), (Z.shiftl_mul_pow2 c 6) by lia.
  rewrite (@lor_shiftl_low a (b * 2 ^ 12) 18); [ | lia | lia ].
  change (2 ^ 18) with 262144. change (2 ^ 12) with 4096. change (2 ^ 6) with 64.
  rewrite (@lor_low (a * 262144 + b * 4096) (c * 64) 12); [ | lia | lia | ].
  - apply (@lor_low (a * 262144 + b * 4096 + c * 64) d 6); [ lia | exact Hd | ].
    change (2 ^ 6) with 64. Z.to_euclidean_division_equations. lia.
  - change (2 ^ 12) with 4096. Z.to_euclidean_division_equations. lia.
Qed.

Lemma mask_mod (x : Z) :
  Z.land x maskx = x mod 64 /\ Z.land x mask2 = x mod 32 /\
  Z.land x mask3 = x mod 16 /\ Z.land x mask4 = x mod 8.
Proof.
  unfold maskx, mask2, mask3, mask4.
  repeat split;
    [ apply (@land_low x 6) | apply (@land_low x 5) | apply (@land_low x 4)
    | apply (@land_low x 3) ]; lia.
Qed.

(** What the [first] table says about a byte of 128 or more. *)
Lemma first_high (b : Z) :
  128 <= b ->
  first b = xx \/
  (exists lo hi, first b = multi 2 lo hi /\ 128 <= lo /\ hi <= 191) \/
  (exists lo hi, first b = multi 3 lo hi /\ 128 <= lo /\ hi <= 191 /\ 224 <= b < 240) \/
  (exists lo hi, first b = multi 4 lo hi /\ 128 <= lo /\ hi <= 191 /\
                 240 <= b <= 244 /\ (b = 240 -> 144 <= lo)).
Proof.
  intros Hb. unfold first.
  repeat match goal with
         | |- context [?x <? ?y] => destruct (Z.ltb_spec x y); try lia
         | |- context [?x =? ?y] => destruct (Z.eqb_spec x y)
         end;
    first [ now left
          | right; left; do 2 eexists; split; [ reflexivity | lia ]
          | right; right; left; do 2 eexists; split; [ reflexivity | lia ]
          | right; right; right; do 2 eexists; split; [ reflexivity | lia ] ].
Qed.

Lemma range_check (x lo hi : Z) :
  orb (x <? lo) (hi <? x) = false -> lo <= x <= hi.
Proof. intros H. apply orb_false_elim in H as [H1 H2]. lia. Qed.

Lemma decode_cases (c0 : ascii) (t0 : string) :
  128 <= byte c0 ->
  decoded c0 t0 (fst (DecodeRuneInString (String c0 t0)))
                (snd (DecodeRuneInString (String c0 t0))).
Proof.
  intros H0. unfold decoded. cbn [DecodeRuneInString].
  pose proof (byte_range c0) as B0.
  destruct (first_high H0) as [-> | [(lo & hi & -> & Hlo & Hhi)
                                    | [(lo & hi & -> & Hlo & Hhi & Hb)
                                      | (lo & hi & -> & Hlo & Hhi & Hb & Hb')]]].
  - left. auto.
  - (* two bytes *)
    destruct (Nat.ltb _ 2); [ left; auto | ].
    destruct t0 as [ | c1 t1 ]; [ left; auto | ].
    destruct (orb _ _) eqn:R1; [ left; auto | ]. apply range_check in R1.
    cbn [Nat.leb fst snd]. right. left. exists c1, t1.
    destruct (mask_mod (byte c0)) as (_ & -> & _). destruct (mask_mod (byte c1)) as (-> & _).
    rewrite rune2_arith by (apply Z.mod_pos_bound; lia).
    repeat split; try lia. Z.to_euclidean_division_equations. lia.
  - (* three bytes *)
    destruct (Nat.ltb _ 3); [ left; auto | ].
    destruct t0 as [ | c1 t1 ]; [ left; auto | ].
    destruct (orb _ _) eqn:R1; [ left; auto | ]. apply range_check in R1.
    cbn [Nat.leb]. destruct t1 as [ | c2 t2 ]; [ left; auto | ].
    destruct (orb _ _) eqn:R2; [ left; auto | ]. apply range_check in R2.
    unfold locb, hicb in R2.
    cbn [Nat.leb fst snd]. right. right. left. exists c1, c2, t2.
    destruct (mask_mod (byte c0)) as (_ & _ & -> & _).
    destruct (mask_mod (byte c1)) as (-> & _). destruct (mask_mod (byte c2)) as (-> & _).
    rewrite rune3_arith by (apply Z.mod_pos_bound; lia).
    repeat split; lia.
  - (* four bytes *)
    destruct (Nat.ltb _ 4); [ left; auto | ].
    destruct t0 as [ | c1 t1 ]; [ left; auto | ].
    destruct (orb _ _) eqn:R1; [ left; auto | ]. apply range_check in R1.
    cbn [Nat.leb]. destruct t1 as [ | c2 t2 ]; [ left; auto | ].
    destruct (orb _ _) eqn:R2; [ left; auto | ]. apply range_check in R2.
    cbn [Nat.leb]. destruct t2 as [ | c3 t3 ]; [ left; auto | ].
    destruct (orb _ _) eqn:R3; [ left; auto | ]. apply range_check in R3.
    unfold locb, hicb in R2, R3.
    cbn [fst snd]. right. right. right. exists c1, c2, c3, t3.
    destruct (mask_mod (byte c0)) as (_ & _ & _ & ->).
    destruct (mask_mod (byte c1)) as (-> & _). destruct (mask_mod (byte c2)) as (-> & _).
    destruct (mask_mod (byte c3)) as (-> & _).
    rewrite rune4_arith by (apply Z.mod_pos_bound; lia).
    repeat split; try lia.
    pose proof (byte_range c1). pose proof (byte_range c2). pose proof (byte_range c3).
    Z.to_euclidean_division_equations. lia.
Qed.

End utf8_facts.

(** *** JSON string escaping read back *)

Module json_facts.
Import json.
Import json_back.

Ltac every_byte c :=
  destruct c as [[ | ] [ | ] [ | ] [ | ] [ | ] [ | ] [ | ] [ | ]].

Lemma unesc_plain (c : ascii) (T : string) :
  htmlSafe (byte c) = true \/ 128 <= byte c ->
  unesc (String c T) = prepend (String c EmptyString) (unesc T).
Proof.
  intros H.
  assert (E : Ascii.eqb c quote = false /\ Ascii.eqb c backslash = false).
  { every_byte c; (split; reflexivity) || (exfalso; destruct H as [H | H]; vm_compute in H;
      [ discriminate H | apply H; reflexivity ]). }
  destruct E as [E1 E2]. cbn [unesc]. now rewrite E1, E2.
Qed.

Lemma unesc_escaped (c : ascii) (T : string) :
  byte c < 128 -> htmlSafe (byte c) = false ->
  unesc (escapeByte c ++ T) = prepend (String c EmptyString) (unesc T).
Proof.
  intros Hlo Hunsafe.
  every_byte c; try (vm_compute in Hunsafe; discriminate Hunsafe);
    try (vm_compute in Hlo; discriminate Hlo); reflexivity.
Qed.

Lemma unesc_replacement (T : string) :
  unesc (String backslash "ufffd" ++ T) = prepend replacementChar (unesc T).
Proof. reflexivity. Qed.

Lemma unesc_separator (r : Z) (T : string) :
  r = 8232 \/ r = 8233 ->
  unesc (String backslash
           (String "u" (String "2" (String "0" (String "2"
              (String (index_or_nul hex (Z.land r 15)) T)))))) =
  prepend (if r =? 8232 then lineSeparator else paragraphSeparator) (unesc T).
Proof. intros [-> | ->]; reflexivity. Qed.

Lemma first_size (b : Z) (sz : nat) (lo hi : Z) :
  utf8.first b = utf8.multi sz lo hi -> sz = 2%nat \/ sz = 3%nat \/ sz = 4%nat.
Proof.
  unfold utf8.first.
  repeat match goal with
         | |- context [if ?b then _ else _] => destruct b
         end; intros E; inversion E; auto.
Qed.

(** [appendString] hands the decoder at most four bytes; it decodes them as
    it would the whole rest. *)
Lemma decode_take4 (s : string) :
  utf8.DecodeRuneInString (take utf8.UTFMax s) = utf8.DecodeRuneInString s.
Proof.
  destruct s as [ | c0 [ | c1 [ | c2 [ | c3 [ | c4 t ] ] ] ] ]; try reflexivity.
  cbn [take utf8.UTFMax utf8.DecodeRuneInString].
  destruct (utf8.first (byte c0)) as [ | | sz lo hi ] eqn:F; try reflexivity.
  destruct (first_size _ F) as [-> | [-> | ->]]; reflexivity.
Qed.

Lemma prepend_Some (p d T : string) (r : option (string * string)) :
  r = Some (d, T) -> prepend p r = Some ((p ++ d)%string, T).
Proof. intros ->. reflexivity. Qed.

(** The escaped text, then a quote, reads back: always up to that quote, and
    to the original text when that is valid UTF-8. *)
Lemma unesc_appendLoop (fuel : nat) :
  forall s T, (String.length s <= fuel)%nat ->
  exists d, unesc (appendLoop fuel s ++ String quote T) = Some (d, T) /\
            (utf8.validLoop fuel s = true -> d = s).
Proof.
  induction fuel as [ | fuel IH ]; intros s T Hlen.
  - destruct s; [ | simpl in Hlen; lia ]. exists EmptyString. split; reflexivity.
  - destruct s as [ | c rest ]; [ exists EmptyString; split; reflexivity | ].
    cbn [appendLoop utf8.validLoop]. simpl in Hlen.
    destruct (Z.ltb_spec (byte c) utf8.RuneSelf) as [Hlo | Hhi].
    + (* an ASCII byte *)
      destruct (IH rest T ltac:(lia)) as (d & Hd & Hv).
      exists (String c d). cbn [drop]. split.
      * destruct (htmlSafe (byte c)) eqn:Hsafe.
        -- cbn [append]. rewrite unesc_plain by auto. now rewrite Hd.
        -- rewrite append_assoc, unesc_escaped by assumption. now rewrite Hd.
      * intros V. now rewrite (Hv V).
    + (* the start of a longer sequence, or a stray byte *)
      unfold utf8.RuneSelf in Hhi. rewrite decode_take4.
      pose proof (utf8_facts.decode_cases c rest Hhi) as Hcases.
      destruct (utf8.DecodeRuneInString (String c rest)) as [r size].
      cbn [fst snd] in Hcases.
      destruct Hcases as [(-> & ->)
                         | [(c1 & t1 & -> & -> & H1 & Hr)
                           | [(c1 & c2 & t2 & -> & -> & H1 & H2 & H0 & Hr)
                             | (c1 & c2 & c3 & t3 & -> & -> & H1 & H2 & H3 & Hr)]]].
      * (* stray byte *)
        cbn [andb Z.eqb Nat.eqb utf8.RuneError Pos.eqb drop].
        destruct (IH rest T ltac:(lia)) as (d & Hd & _).
        exists (replacementChar ++ d)%string. split; [ | discriminate ].
        rewrite append_assoc, unesc_replacement. now apply prepend_Some.
      * (* two bytes *)
        replace (andb (r =? utf8.RuneError) (Nat.eqb 2 1)) with false
          by (cbn [Nat.eqb]; now rewrite andb_false_r).
        replace (orb (r =? 8232) (r =? 8233)) with false
          by (symmetry; apply orb_false_intro; apply Z.eqb_neq; lia).
        cbn [take drop]. simpl in Hlen.
        destruct (IH t1 T ltac:(lia)) as (d & Hd & Hv).
        exists (String c (String c1 d)). split.
        -- cbn [append]. rewrite !unesc_plain by auto. now rewrite Hd.
        -- intros V. now rewrite (Hv V).
      * (* three bytes *)
        replace (andb (r =? utf8.RuneError) (Nat.eqb 3 1)) with false
          by (cbn [Nat.eqb]; now rewrite andb_false_r).
        cbn [take drop]. simpl in Hlen.
        destruct (IH t2 T ltac:(lia)) as (d & Hd & Hv).
        exists (String c (String c1 (String c2 d))).
        assert (Hsep : r = 8232 \/ r = 8233 ->
                       (if r =? 8232 then lineSeparator else paragraphSeparator) =
                       String c (String c1 (String c2 EmptyString))).
        { pose proof (byte_range c). pose proof (byte_range c1). pose proof (byte_range c2).
          intros [E | E];
            [ assert (Hb : byte c = 226 /\ byte c1 = 128 /\ byte c2 = 168)
                by (Z.to_euclidean_division_equations; lia)
            | assert (Hb : byte c = 226 /\ byte c1 = 128 /\ byte c2 = 169)
                by (Z.to_euclidean_division_equations; lia) ];
            destruct Hb as (B0 & B1 & B2); rewrite E; cbn [Z.eqb Pos.eqb];
            [ rewrite (@byte_inj c "226" B0), (@byte_inj c1 "128" B1), (@byte_inj c2 "168" B2)
            | rewrite (@byte_inj c "226" B0), (@byte_inj c1 "128" B1), (@byte_inj c2 "169" B2) ];
            reflexivity. }
        destruct (orb (r =? 8232) (r =? 8233)) eqn:Hor.
        -- assert (Hr' : r = 8232 \/ r = 8233).
           { apply orb_true_iff in Hor as [Hor | Hor]; apply Z.eqb_eq in Hor; auto. }
           split.
           ++ cbn [append]. rewrite (unesc_separator _ Hr'), (Hsep Hr').
              erewrite prepend_Some by exact Hd. reflexivity.
           ++ intros V. now rewrite (Hv V).
        -- split.
           ++ cbn [append]. rewrite !unesc_plain by (right; lia). now rewrite Hd.
           ++ intros V. now rewrite (Hv V).
      * (* four bytes *)
        replace (andb (r =? utf8.RuneError) (Nat.eqb 4 1)) with false
          by (cbn [Nat.eqb]; now rewrite andb_false_r).
        replace (orb (r =? 8232) (r =? 8233)) with false
          by (symmetry; apply orb_false_intro; apply Z.eqb_neq; lia).
        cbn [take drop]. simpl in Hlen.
        destruct (IH t3 T ltac:(lia)) as (d & Hd & Hv).
        exists (String c (String c1 (String c2 (String c3 d)))). split.
        -- cbn [append]. rewrite !unesc_plain by auto. now rewrite Hd.
        -- intros V. now rewrite (Hv V).
Qed.

End json_facts.

(* ------------------------------------------------------------------ *)
(** ** The mock token and the user identifier                          *)
(* ------------------------------------------------------------------ *)

Lemma payload_shape (userID namespace : string) (iat exp : Z) :
  json.Marshal [("sub", json.AnyString userID); ("namespace", json.AnyString namespace);
                ("iat", json.AnyInt64 iat); ("exp", json.AnyInt64 exp)] =
  ("{" ++ key "exp" ++ GoInt.Itoa exp ++
   String "," (key "iat" ++ GoInt.Itoa iat ++
   String "," (key "namespace" ++ json.appendString namespace ++
   String "," (key "sub" ++ json.appendString userID ++ "}"))))%string.
Proof.
  assert (Hsort : json.sortByKey
                    [("sub", json.AnyString userID); ("namespace", json.AnyString namespace);
                     ("iat", json.AnyInt64 iat); ("exp", json.AnyInt64 exp)] =
                  [("exp", json.AnyInt64 exp); ("iat", json.AnyInt64 iat);
                   ("namespace", json.AnyString namespace); ("sub", json.AnyString userID)])
    by reflexivity.
  unfold json.Marshal. rewrite Hsort. cbn [json.members json.marshalValue].
  rewrite !append_assoc. reflexivity.
Qed.

Lemma appendString_then (s X : string) :
  (json.appendString s ++ X)%string =
  String json.quote (json.appendLoop (String.length s) s ++ String json.quote X).
Proof. unfold json.appendString. cbn [append]. now rewrite append_assoc. Qed.

(** Two escaped texts, each with something after it, that agree: what comes
    after agrees, and so do the texts when both are valid UTF-8. *)
Lemma appendLoop_split (s1 s2 X1 X2 : string) :
  (json.appendLoop (String.length s1) s1 ++ String json.quote X1 =
   json.appendLoop (String.length s2) s2 ++ String json.quote X2)%string ->
  X1 = X2 /\ (utf8.ValidString s1 = true -> utf8.ValidString s2 = true -> s1 = s2).
Proof.
  intros E.
  destruct (@json_facts.unesc_appendLoop (String.length s1) s1 X1 (le_n _)) as (d1 & U1 & V1).
  destruct (@json_facts.unesc_appendLoop (String.length s2) s2 X2 (le_n _)) as (d2 & U2 & V2).
  rewrite E, U2 in U1. injection U1 as -> ->.
  split; [ reflexivity | ]. intros W1 W2. rewrite <- (V1 W1). now apply V2.
Qed.

Lemma appendString_split (s1 s2 X1 X2 : string) :
  (json.appendString s1 ++ X1 = json.appendString s2 ++ X2)%string ->
  X1 = X2 /\ (utf8.ValidString s1 = true -> utf8.ValidString s2 = true -> s1 = s2).
Proof.
  rewrite !appendString_then. intros E. injection E as E. now apply appendLoop_split.
Qed.

Lemma comma_is_no_digit : isDigitOrMinus "," = false.
Proof. reflexivity. Qed.

Lemma payload_inj (u1 u2 ns1 ns2 : string) (iat1 iat2 exp1 exp2 : Z) :
  utf8.ValidString u1 = true -> utf8.ValidString u2 = true ->
  json.Marshal [("sub", json.AnyString u1); ("namespace", json.AnyString ns1);
                ("iat", json.AnyInt64 iat1); ("exp", json.AnyInt64 exp1)] =
  json.Marshal [("sub", json.AnyString u2); ("namespace", json.AnyString ns2);
                ("iat", json.AnyInt64 iat2); ("exp", json.AnyInt64 exp2)] ->
  u1 = u2.
Proof.
  intros V1 V2. rewrite !payload_shape. intros E.
  apply append_inv_head, append_inv_head in E.
  apply split_at in E as [_ E]; try (apply Itoa_digits, comma_is_no_digit).
  apply append_inv_head in E.
  apply split_at in E as [_ E]; try (apply Itoa_digits, comma_is_no_digit).
  apply append_inv_head in E.
  apply appendString_split in E as [E _].
  injection E as E. rewrite !append_assoc in E. cbn [append] in E.
  apply appendLoop_split in E as [_ E]. now apply E.
Qed.

Lemma mockJWT_shape (userID namespace : string) (iat exp : Z) :
  Mock.mockJWT userID namespace iat exp =
  ("eyJhbGciOiJIUzI1NiIsInR5cCI6IkpXVCJ9." ++
   (base64.EncodeToString
      (json.Marshal [("sub", json.AnyString userID); ("namespace", json.AnyString namespace);
                     ("iat", json.AnyInt64 iat); ("exp", json.AnyInt64 exp)])
    ++ ".mock-signature"))%string.
Proof.
  unfold Mock.mockJWT. cbv zeta.
  generalize (json.Marshal [("sub", json.AnyString userID);
                            ("namespace", json.AnyString namespace);
                            ("iat", json.AnyInt64 iat); ("exp", json.AnyInt64 exp)]).
  intros payloadJSON. generalize (base64.EncodeToString payloadJSON). intros payloadB64.
  assert (H : base64.EncodeToString
                (json.Marshal [("alg", json.AnyString "HS256"); ("typ", json.AnyString "JWT")]) =
              "eyJhbGciOiJIUzI1NiIsInR5cCI6IkpXVCJ9") by (vm_compute; reflexivity).
  rewrite H. reflexivity.
Qed.

(** The mock token is one-to-one in a user identifier that is valid UTF-8,
    whatever the namespaces and the times. *)
Lemma mockJWT_inj (u1 u2 ns1 ns2 : string) (iat1 iat2 exp1 exp2 : Z) :
  utf8.ValidString u1 = true -> utf8.ValidString u2 = true ->
  Mock.mockJWT u1 ns1 iat1 exp1 = Mock.mockJWT u2 ns2 iat2 exp2 -> u1 = u2.
Proof.
  intros V1 V2 E.
  rewrite (mockJWT_shape u1 ns1 iat1 exp1), (mockJWT_shape u2 ns2 iat2 exp2) in E.
  apply append_inv_head in E.
  apply append_inv_tail, base64_facts.EncodeToString_inj in E.
  exact (payload_inj V1 V2 E).
Qed.

Lemma synthesizes_mockJWT (env : Env) (w : World) (userID namespace : string) (tok : Token) :
  synthesizes env w userID namespace tok ->
  exists iat exp, tok.(AccessToken) = Mock.mockJWT userID namespace iat exp.
Proof.
  intros [H | (t & H)]; destruct w as [tk tr m ct lrq lrs gs];
    cbn [Mock.NewMockAuthProvider Mock.RefreshToken Mock.generateMockJWT bind call run handle
         fst snd tick set_currentToken currentToken ticks Mock.userID Mock.namespace] in H;
    inversion H; subst; do 2 eexists; reflexivity.
Qed.

(** C7, as stated, on two user identifiers that are not valid UTF-8: the
    identifiers differ, and the providers made for them at the same time hold
    the same access token. *)
Lemma mock_tokens_collide_on_invalid_utf8 :
  let alice := String "255" EmptyString in
  let bob := String "254" EmptyString in
  let holds userID :=
    currentToken (snd (run (offline 900) (Mock.NewMockAuthProvider userID "demo") world0)) in
  alice <> bob /\
  exists t1 t2, holds alice = Some t1 /\ holds bob = Some t2 /\
                t1.(AccessToken) = t2.(AccessToken).
Proof.
  split; [ discriminate | ].
  do 2 eexists. split; [ reflexivity | split; [ reflexivity | ] ].
  vm_compute. reflexivity.
Qed.

(** C7 (amended): mock providers made for two distinct user identifiers
    that are valid UTF-8, with any namespaces and at any times, never
    synthesize equal access-token strings. *)
Theorem mock_tokens_differ_for_distinct_users
        (env1 env2 : Env) (w1 w2 : World) (u1 u2 ns1 ns2 : string) (t1 t2 : Token) :
  utf8.ValidString u1 = true -> utf8.ValidString u2 = true ->
  u1 <> u2 ->
  synthesizes env1 w1 u1 ns1 t1 -> synthesizes env2 w2 u2 ns2 t2 ->
  t1.(AccessToken) <> t2.(AccessToken).
Proof.
  intros V1 V2 Hne S1 S2 E.
  apply synthesizes_mockJWT in S1 as (iat1 & exp1 & E1).
  apply synthesizes_mockJWT in S2 as (iat2 & exp2 & E2).
  rewrite E1, E2 in E. exact (Hne (mockJWT_inj V1 V2 E)).
Qed.

Lemma mock_tokens_differ_for_distinct_users_witness :
  let made userID :=
    mkToken (Mock.mockJWT userID "demo" 0 3600) "Bearer" (time.Add 900 (1 * time.Hour)) "" in
  (made "alice").(AccessToken) <> (made "bob").(AccessToken).
Proof.
  intros made.
  apply (@mock_tokens_differ_for_distinct_users (offline 900) (offline 900) world0 world0
           "alice" "bob" "demo" "demo" (made "alice") (made "bob")).
  - vm_compute. reflexivity.
  - vm_compute. reflexivity.
  - discriminate.
  - left. vm_compute. reflexivity.
  - left. vm_compute. reflexivity.
Defined.

(* ------------------------------------------------------------------ *)
(** * Further properties of the code                                   *)
(* ------------------------------------------------------------------ *)

(* ------------------------------------------------------------------ *)
(** ** Token: the time left and the expiry test                        *)
(* ------------------------------------------------------------------ *)

(** X1: on a token that is there, [ExpiresIn] and [IsExpired] read the
    clock once each and agree: the token is expired exactly when the time
    left is negative.  The time left is the difference of the expiry and the
    clock, cut to the range of a Duration.  On nil they part: a nil token is
    expired, with 0 left. *)
Theorem expires_in_agrees_with_is_expired (env : Env) (w : World) (t : Token) :
  let now := env.(clock) w.(ticks) in
  exists d,
    run env (ExpiresIn (Some t)) w = (Returned d, tick w) /\
    run env (IsExpired (Some t)) w = (Returned (d <? 0), tick w) /\
    time.minDuration <= d <= time.maxDuration /\
    (time.minDuration <= t.(ExpiresAt) - now <= time.maxDuration -> d = t.(ExpiresAt) - now) /\
    run env (ExpiresIn None) w = (Returned 0, w) /\
    run env (IsExpired None) w = (Returned true, w).
Proof.
  intros now. exists (time.Sub t.(ExpiresAt) now).
  split; [ reflexivity | ].
  assert (Hcut : forall x,
             time.Sub t.(ExpiresAt) now = x ->
             (x = time.minDuration /\ t.(ExpiresAt) - now < time.minDuration) \/
             (x = time.maxDuration /\ time.maxDuration < t.(ExpiresAt) - now) \/
             (x = t.(ExpiresAt) - now /\
              time.minDuration <= t.(ExpiresAt) - now <= time.maxDuration)).
  { intros x <-. unfold time.Sub.
    destruct (Z.ltb_spec (ExpiresAt t - now) time.minDuration); [ auto | ].
    destruct (Z.ltb_spec time.maxDuration (ExpiresAt t - now)); auto. }
  specialize (Hcut _ eq_refl). revert Hcut.
  generalize (time.Sub (ExpiresAt t) now). intros d.
  change time.minDuration with (- 9223372036854775808).
  change time.maxDuration with 9223372036854775807.
  intros Hcut.
  split.
  { simpl. fold now. f_equal. f_equal. unfold time.After.
    destruct (Z.ltb_spec (ExpiresAt t) now); symmetry;
      [ apply Z.ltb_lt | apply Z.ltb_ge ]; lia. }
  split; [ lia | ].
  split; [ lia | split; reflexivity ].
Qed.

(* ------------------------------------------------------------------ *)
(** ** The networked providers: what a call leaves behind              *)
(* ------------------------------------------------------------------ *)

Ltac settle :=
  do 3 eexists; split; [ reflexivity | ];
  split; [ unfold settled; simpl; repeat split; solve [ auto | discriminate ] | ];
  unfold asked; simpl; rewrite <- ?app_assoc; simpl;
  first [ split; [ symmetry; apply app_nil_r | ] | split; [ reflexivity | ] ];
  unfold refresh_or_grant; auto 10.

Lemma Client_Authenticate_effect (env : Env) (w : World) (c : Client.ClientAuthProvider) :
  w.(mu) = unlocked ->
  exists r w' new,
    run env (Client.Authenticate c) w = (Returned r, w') /\ settled w w' r /\
    asked w w' new /\ (new = [] \/ new = [ObsIam (clientGrant c)]).
Proof.
  intros Hfree. destruct w as [tk tr m ct lrq lrs gs]. simpl in *. subst m.
  unfold Client.Authenticate. simpl. by_cases_on_answers; settle.
Qed.

Lemma Password_Authenticate_effect (env : Env) (w : World) (p : Password.PasswordAuthProvider) :
  w.(mu) = unlocked ->
  exists r w' new,
    run env (Password.Authenticate p) w = (Returned r, w') /\ settled w w' r /\
    asked w w' new /\ new = [passwordGrant p].
Proof.
  intros Hfree. destruct w as [tk tr m ct lrq lrs gs]. simpl in *. subst m.
  unfold Password.Authenticate. simpl. by_cases_on_answers; settle.
Qed.

Lemma settled_after_log (o : Obs) (w w' : World) (r : TokenResult) :
  settled (log o w) w' r -> settled w w' r.
Proof. destruct w. exact (fun H => H). Qed.

Lemma settled_after_tick (w w' : World) (r : TokenResult) :
  settled (tick w) w' r -> settled w w' r.
Proof. destruct w. exact (fun H => H). Qed.

Lemma asked_after_log (o : Obs) (w w' : World) (new : list Obs) :
  asked (log o w) w' new -> asked w w' (o :: new).
Proof. destruct w. unfold asked. simpl. intros ->. now rewrite <- app_assoc. Qed.

Lemma asked_after_tick (w w' : World) (new : list Obs) :
  asked (tick w) w' new -> asked w w' new.
Proof. destruct w. exact (fun H => H). Qed.

Lemma Client_RefreshToken_effect (env : Env) (w : World) (c : Client.ClientAuthProvider)
      (t : Token) :
  w.(mu) = unlocked ->
  exists r w' new,
    run env (Client.RefreshToken c (Some t)) w = (Returned r, w') /\ settled w w' r /\
    asked w w' new /\
    refresh_or_grant (ObsIam (clientRefresh c t)) (ObsIam (clientGrant c)) new.
Proof.
  intros Hfree. unfold Client.RefreshToken, refresh_or_grant.
  destruct (String.eqb (RefreshToken t) "").
  { destruct (Client_Authenticate_effect env w c Hfree) as (r & w' & new & E & Hs & Ha & Hn).
    exists r, w', new. intuition. }
  cbn -[Client.Authenticate].
  destruct (newRequestErr env _ _); cbn -[Client.Authenticate].
  { destruct w; settle. }
  destruct (iamServer env _ _) as [resp | err]; [ | destruct w; settle ].
  destruct (negb (IamStatusCode resp =? 200)).
  { destruct (Client_Authenticate_effect env (log (ObsIam (clientRefresh c t)) w) c)
      as (r & w' & new & E & Hs & Ha & Hn); [ destruct w; exact Hfree | ].
    exists r, w', (ObsIam (clientRefresh c t) :: new).
    split; [ exact E | ].
    split; [ eapply settled_after_log; exact Hs | ].
    split; [ apply asked_after_log; exact Ha | ].
    destruct Hn as [-> | ->]; auto. }
  destruct w as [tk tr m ct lrq lrs gs]. simpl in *. subst m.
  destruct (Decode_tokenResp (IamBody resp)); simpl; settle.
Qed.

Lemma Password_RefreshToken_effect (env : Env) (w : World) (p : Password.PasswordAuthProvider)
      (t : Token) :
  w.(mu) = unlocked ->
  exists r w' new,
    run env (Password.RefreshToken p (Some t)) w = (Returned r, w') /\ settled w w' r /\
    asked w w' new /\
    refresh_or_grant (passwordRefresh p t) (passwordGrant p) new.
Proof.
  intros Hfree. unfold Password.RefreshToken, refresh_or_grant.
  destruct (String.eqb (RefreshToken t) "").
  { destruct (Password_Authenticate_effect env w p Hfree) as (r & w' & new & E & Hs & Ha & Hn).
    exists r, w', new. intuition. }
  cbn -[Password.Authenticate].
  destruct (sdkServer env _ _ _ _) as [ok [err | ]].
  { destruct (Password_Authenticate_effect env (log (passwordRefresh p t) w) p)
      as (r & w' & new & E & Hs & Ha & Hn); [ destruct w; exact Hfree | ].
    exists r, w', (passwordRefresh p t :: new).
    split; [ exact E | ].
    split; [ eapply settled_after_log; exact Hs | ].
    split; [ apply asked_after_log; exact Ha | ].
    subst new. auto. }
  destruct w as [tk tr m ct lrq lrs gs]. simpl in *. subst m.
  by_cases_on_answers; settle.
Qed.

Ltac current_token_stays Hfree :=
  match goal with
  | w : World |- _ =>
      destruct w as [tk tr m ct lrq lrs gs]; simpl in *; subst m ct;
      unfold settled, asked, refresh_or_grant; simpl; rewrite app_nil_r;
      repeat split; auto; discriminate
  end.

Lemma Client_GetToken_effect (env : Env) (w : World) (c : Client.ClientAuthProvider) :
  w.(mu) = unlocked ->
  GetToken_effect env w c (fun t => ObsIam (clientRefresh c t)) (ObsIam (clientGrant c)).
Proof.
  intros Hfree. unfold GetToken_effect.
  destruct (Client_GetToken_branches env w c Hfree) as (H1 & H2 & H3 & H4).
  destruct (currentToken w) as [t | ] eqn:Hcur.
  - destruct (Z.lt_ge_cases (ExpiresAt t) (clock env (ticks w))) as [Hexp | Hnot].
    + destruct (Client_RefreshToken_effect env (tick w) c t)
        as (r & w' & new & E & Hs & Ha & Hn); [ destruct w; exact Hfree | ].
      exists r, w', new. rewrite (H2 t eq_refl Hexp).
      split; [ exact E | ].
      split; [ apply settled_after_tick; exact Hs | ].
      split; [ apply asked_after_tick; exact Ha | ].
      split; [ exact Hn | lia ].
    + destruct (Z.lt_ge_cases (ExpiresAt t - clock env (S (ticks w))) (5 * time.Minute))
        as [Hsoon | Hlate].
      * eexists _, _, []. split; [ apply (H3 t eq_refl Hnot Hsoon) | ].
        current_token_stays Hfree.
      * eexists _, _, []. split; [ apply (H4 t eq_refl Hnot Hlate) | ].
        current_token_stays Hfree.
  - destruct (Client_Authenticate_effect env w c Hfree) as (r & w' & new & E & Hs & Ha & Hn).
    exists r, w', new. rewrite (H1 eq_refl). auto.
Qed.

Lemma Password_GetToken_effect (env : Env) (w : World) (p : Password.PasswordAuthProvider) :
  w.(mu) = unlocked ->
  GetToken_effect env w p (passwordRefresh p) (passwordGrant p).
Proof.
  intros Hfree. unfold GetToken_effect.
  destruct (Password_GetToken_branches env w p Hfree) as (H1 & H2 & H3 & H4).
  destruct (currentToken w) as [t | ] eqn:Hcur.
  - destruct (Z.lt_ge_cases (ExpiresAt t) (clock env (ticks w))) as [Hexp | Hnot].
    + destruct (Password_RefreshToken_effect env (tick w) p t)
        as (r & w' & new & E & Hs & Ha & Hn); [ destruct w; exact Hfree | ].
      exists r, w', new. rewrite (H2 t eq_refl Hexp).
      split; [ exact E | ].
      split; [ apply settled_after_tick; exact Hs | ].
      split; [ apply asked_after_tick; exact Ha | ].
      split; [ exact Hn | lia ].
    + destruct (Z.lt_ge_cases (ExpiresAt t - clock env (S (ticks w))) (5 * time.Minute))
        as [Hsoon | Hlate].
      * eexists _, _, []. split; [ apply (H3 t eq_refl Hnot Hsoon) | ].
        current_token_stays Hfree.
      * eexists _, _, []. split; [ apply (H4 t eq_refl Hnot Hlate) | ].
        current_token_stays Hfree.
  - destruct (Password_Authenticate_effect env w p Hfree) as (r & w' & new & E & Hs & Ha & Hn).
    exists r, w', new. rewrite (H1 eq_refl). auto.
Qed.

Lemma effect_finishes (env : Env) (w : World) (p : prog TokenResult) (Q : list Obs -> Prop) :
  (exists r w' new, run env p w = (Returned r, w') /\ settled w w' r /\ asked w w' new /\ Q new) ->
  finishes env w p.
Proof. intros (r & w' & new & E & Hs & _). exists r, w'. auto. Qed.

Lemma alone (env : Env) (w v : World) (p : prog TokenResult) (Q : list Obs -> Prop) :
  v.(goroutines) = w.(goroutines) ->
  returns v (run env p v) ->
  (exists r w' new, run env p v = (Returned r, w') /\ settled v w' r /\ asked v w' new /\ Q new) ->
  exists r w' new, run env p v = (Returned r, w') /\ settled v w' r /\ asked v w' new /\ Q new /\
                   started w w' [].
Proof.
  intros Hg (a & w1 & E1 & _ & Hg1) (r & w' & new & E & Hs & Ha & HQ).
  exists r, w', new. repeat (split; [ assumption | ]).
  rewrite E in E1. injection E1 as -> ->.
  unfold started. rewrite app_nil_r. congruence.
Qed.

Lemma GetToken_in_full {P : Type} `{Provider.AuthProvider P}
      (env : Env) (w : World) (p : P) (refresh : Token -> Obs) (grant : Obs) :
  w.(mu) = unlocked ->
  four_branches env w p ->
  (exists r w' new, run env (Provider.Authenticate p) w = (Returned r, w') /\ settled w w' r /\
                    asked w w' new /\ (new = [] \/ new = [grant]) /\ started w w' []) ->
  (forall t, exists r w' new,
     run env (Provider.RefreshToken p (Some t)) (tick w) = (Returned r, w') /\
     settled (tick w) w' r /\ asked (tick w) w' new /\
     refresh_or_grant (refresh t) grant new /\ started w w' []) ->

  exists r w' new,
    run env (Provider.GetToken p) w = (Returned r, w') /\ settled w w' r /\
    asked w w' new /\ started w w' (background env w p) /\
    (background env w p = [] \/
     exists t, r = (Some t, None) /\ background env w p = [refreshing p t]) /\
    match w.(currentToken) with
    | None => new = [] \/ new = [grant]
    | Some t =>
        refresh_or_grant (refresh t) grant new /\
        (env.(clock) w.(ticks) <= t.(ExpiresAt) -> new = [])
    end.
Proof.
  intros lock_free branches authenticates refreshes.
  destruct branches as (H1 & H2 & H3 & H4). unfold background.
  destruct (currentToken w) as [t | ] eqn:Hcur.
  - destruct (Z.lt_ge_cases (ExpiresAt t) (clock env (ticks w))) as [Hexp | Hnot].
    + destruct (refreshes t) as (r & w' & new & E & Hs & Ha & Hn & Hg).
      exists r, w', new. rewrite (H2 t eq_refl Hexp).
      replace (clock env (ticks w) <=? ExpiresAt t) with false
        by (symmetry; apply Z.leb_gt; exact Hexp).
      cbn [andb].
      split; [ exact E | ].
      split; [ apply settled_after_tick; exact Hs | ].
      split; [ apply asked_after_tick; exact Ha | ].
      split; [ exact Hg | ]. split; [ now left | ].
      split; [ exact Hn | lia ].
    + replace (clock env (ticks w) <=? ExpiresAt t) with true
        by (symmetry; apply Z.leb_le; lia).
      cbn [andb].
      destruct (Z.ltb_spec (ExpiresAt t - clock env (S (ticks w))) (5 * time.Minute))
        as [Hsoon | Hlate].
      * eexists _, _, []. split; [ apply (H3 t eq_refl Hnot Hsoon) | ].
        destruct w as [tk tr m ct lrq lrs gs]; simpl in *; subst m ct.
        unfold settled, asked, started, refresh_or_grant; simpl. rewrite app_nil_r.
        repeat split; auto; try discriminate. right. exists t. auto.
      * eexists _, _, []. split; [ apply (H4 t eq_refl Hnot Hlate) | ].
        destruct w as [tk tr m ct lrq lrs gs]; simpl in *; subst m ct.
        unfold settled, asked, started, refresh_or_grant; simpl. rewrite !app_nil_r.
        repeat split; auto; discriminate.
  - destruct authenticates as (r & w' & new & E & Hs & Ha & Hn & Hg).
    exists r, w', new. rewrite (H1 eq_refl). auto 10.
Qed.


Lemma Client_Authenticate_alone (env : Env) (w : World) (c : Client.ClientAuthProvider) :
  w.(mu) = unlocked ->
  exists r w' new, run env (Client.Authenticate c) w = (Returned r, w') /\ settled w w' r /\
                   asked w w' new /\ (new = [] \/ new = [ObsIam (clientGrant c)]) /\
                   started w w' [].
Proof.
  intros Hfree. apply alone; [ reflexivity | | ].
  - now apply Client_Authenticate_returns.
  - now apply Client_Authenticate_effect.
Qed.

Lemma Password_Authenticate_alone (env : Env) (w : World) (p : Password.PasswordAuthProvider) :
  w.(mu) = unlocked ->
  exists r w' new, run env (Password.Authenticate p) w = (Returned r, w') /\ settled w w' r /\
                   asked w w' new /\ (new = [] \/ new = [passwordGrant p]) /\
                   started w w' [].
Proof.
  intros Hfree. apply alone; [ reflexivity | | ].
  - now apply Password_Authenticate_returns.
  - destruct (Password_Authenticate_effect env w p Hfree) as (r & w' & new & E & Hs & Ha & Hn).
    exists r, w', new. auto.
Qed.

Lemma Client_RefreshToken_alone (env : Env) (w v : World) (c : Client.ClientAuthProvider)
      (t : Token) :
  v.(mu) = unlocked -> v.(goroutines) = w.(goroutines) ->
  exists r w' new, run env (Client.RefreshToken c (Some t)) v = (Returned r, w') /\
                   settled v w' r /\ asked v w' new /\
                   refresh_or_grant (ObsIam (clientRefresh c t)) (ObsIam (clientGrant c)) new /\
                   started w w' [].
Proof.
  intros Hfree Hg. apply alone; [ exact Hg | | ].
  - now apply Client_RefreshToken_returns.
  - now apply Client_RefreshToken_effect.
Qed.

Lemma Password_RefreshToken_alone (env : Env) (w v : World) (p : Password.PasswordAuthProvider)
      (t : Token) :
  v.(mu) = unlocked -> v.(goroutines) = w.(goroutines) ->
  exists r w' new, run env (Password.RefreshToken p (Some t)) v = (Returned r, w') /\
                   settled v w' r /\ asked v w' new /\
                   refresh_or_grant (passwordRefresh p t) (passwordGrant p) new /\
                   started w w' [].
Proof.
  intros Hfree Hg. apply alone; [ exact Hg | | ].
  - now apply Password_RefreshToken_returns.
  - now apply Password_RefreshToken_effect.
Qed.

Lemma Client_GetToken_in_full (env : Env) (w : World) (c : Client.ClientAuthProvider) :
  w.(mu) = unlocked ->
  exists r w' new,
    run env (Provider.GetToken c) w = (Returned r, w') /\ settled w w' r /\
    asked w w' new /\ started w w' (background env w c) /\
    (background env w c = [] \/
     exists t, r = (Some t, None) /\ background env w c = [refreshing c t]) /\
    match w.(currentToken) with
    | None => new = [] \/ new = [ObsIam (clientGrant c)]
    | Some t =>
        refresh_or_grant (ObsIam (clientRefresh c t)) (ObsIam (clientGrant c)) new /\
        (env.(clock) w.(ticks) <= t.(ExpiresAt) -> new = [])
    end.
Proof.
  intros Hfree.
  apply (@GetToken_in_full _ _ env w c (fun t => ObsIam (clientRefresh c t))
                           (ObsIam (clientGrant c))).
  - exact Hfree.
  - now apply Client_GetToken_branches.
  - now apply Client_Authenticate_alone.
  - intros t. apply Client_RefreshToken_alone; destruct w; [ exact Hfree | reflexivity ].
Qed.

Lemma Password_GetToken_in_full (env : Env) (w : World) (p : Password.PasswordAuthProvider) :
  w.(mu) = unlocked ->
  exists r w' new,
    run env (Provider.GetToken p) w = (Returned r, w') /\ settled w w' r /\
    asked w w' new /\ started w w' (background env w p) /\
    (background env w p = [] \/
     exists t, r = (Some t, None) /\ background env w p = [refreshing p t]) /\
    match w.(currentToken) with
    | None => new = [] \/ new = [passwordGrant p]
    | Some t =>
        refresh_or_grant (passwordRefresh p t) (passwordGrant p) new /\
        (env.(clock) w.(ticks) <= t.(ExpiresAt) -> new = [])
    end.
Proof.
  intros Hfree.
  apply (@GetToken_in_full _ _ env w p (passwordRefresh p) (passwordGrant p)).
  - exact Hfree.
  - now apply Password_GetToken_branches.
  - now apply Password_Authenticate_alone.
  - intros t. apply Password_RefreshToken_alone; destruct w; [ exact Hfree | reflexivity ].
Qed.

(** X2: called with the lock free, [Authenticate], [RefreshToken] on a token
    that is there and [GetToken] of the two networked providers return with
    the lock free again, and with exactly one of token and error: a failure
    leaves the provider's current token as it was, and a token handed back is
    the provider's current token at the moment the call returns.
    [Authenticate] and [RefreshToken] start no goroutine.  [GetToken] starts
    at most one, the refresh of the token it returns; that refresh, when it
    runs later, is a [RefreshToken] like any other: if it succeeds, the
    token it obtains is the current one from then, in place of the one
    [GetToken] returned. *)
Theorem returned_token_is_current (env : Env) (w : World) :
  w.(mu) = unlocked ->
  (forall c : Client.ClientAuthProvider,
     finishes_alone env w (Client.Authenticate c) /\
     (forall t, finishes_alone env w (Client.RefreshToken c (Some t))) /\
     GetToken_finishes env w c) /\
  (forall p : Password.PasswordAuthProvider,
     finishes_alone env w (Password.Authenticate p) /\
     (forall t, finishes_alone env w (Password.RefreshToken p (Some t))) /\
     GetToken_finishes env w p).
Proof.
  intros Hfree. split.
  - intros c. split; [ | split ].
    + destruct (Client_Authenticate_alone env w c Hfree) as (r & w' & new & E & Hs & _ & _ & Hg).
      exists r, w'. auto.
    + intros t.
      destruct (Client_RefreshToken_alone env w w c t Hfree eq_refl)
        as (r & w' & new & E & Hs & _ & _ & Hg).
      exists r, w'. auto.
    + destruct (Client_GetToken_in_full env w c Hfree) as (r & w' & new & E & Hs & _ & Hg & Hb & _).
      exists r, w'. auto.
  - intros p. split; [ | split ].
    + destruct (Password_Authenticate_alone env w p Hfree) as (r & w' & new & E & Hs & _ & _ & Hg).
      exists r, w'. auto.
    + intros t.
      destruct (Password_RefreshToken_alone env w w p t Hfree eq_refl)
        as (r & w' & new & E & Hs & _ & _ & Hg).
      exists r, w'. auto.
    + destruct (Password_GetToken_in_full env w p Hfree) as (r & w' & new & E & Hs & _ & Hg & Hb & _).
      exists r, w'. auto.
Qed.

Lemma returned_token_is_current_witness :
  let env := scripted 900 (grantingFor 3600) (fun _ => (None, None)) [] in
  (exists w',
     run env (Client.Authenticate aClient) world0 = (Returned (Some granted, None), w') /\
     w'.(currentToken) = Some granted /\ w'.(mu) = unlocked /\ w'.(goroutines) = []) /\
  (exists w',
     run env (Client.GetToken aClient) (holding expiringToken) =
       (Returned (Some expiringToken, None), w') /\
     w'.(currentToken) = Some expiringToken /\
     w'.(goroutines) = [refreshing aClient expiringToken]) /\
  finishes_alone env (holding expiringToken) (Client.RefreshToken aClient (Some expiringToken)).
Proof.
  intros env.
  split; [ | split ].
  - destruct (proj1 (proj1 (returned_token_is_current env world0 eq_refl) aClient))
      as (r & w' & E & (Hmu & Hs) & Hg).
    assert (E0 : fst (run env (Client.Authenticate aClient) world0) =
                 Returned (Some granted, None)) by reflexivity.
    rewrite E in E0. simpl in E0. injection E0 as ->.
    exists w'. simpl in Hs. destruct Hs as (_ & Hcur).
    split; [ exact E | ]. split; [ exact Hcur | ]. split; [ exact Hmu | exact Hg ].
  - destruct (proj2 (proj2 (proj1 (returned_token_is_current env (holding expiringToken)
                                                             eq_refl) aClient)))
      as (r & w' & E & (Hmu & Hs) & Hg & _).
    assert (E0 : fst (run env (Client.GetToken aClient) (holding expiringToken)) =
                 Returned (Some expiringToken, None)) by reflexivity.
    change (Provider.GetToken aClient) with (Client.GetToken aClient) in E.
    rewrite E in E0. simpl in E0. injection E0 as ->.
    exists w'. simpl in Hs. destruct Hs as (_ & Hcur).
    split; [ exact E | ]. split; [ exact Hcur | exact Hg ].
  - exact (proj1 (proj2 (proj1 (returned_token_is_current env (holding expiringToken) eq_refl)
                               aClient)) expiringToken).
Defined.

(** X3: a call of [GetToken] makes itself at most two calls to the identity
    service, and no other call: the grant, or the refresh grant of the token
    it finds, or the refresh grant followed by the grant; nothing when that
    token is not expired.  In that case, if the token has less than five
    minutes left, it starts one background refresh (and no goroutine
    otherwise), which makes up to two calls of its own when it runs: the
    refresh grant, the grant, or the one after the other.  Every call
    carries the provider's own client credentials. *)
Theorem GetToken_asks_at_most_twice (env : Env) (w : World) :
  w.(mu) = unlocked ->
  (forall c : Client.ClientAuthProvider,
     GetToken_traffic env w c (fun t => ObsIam (clientRefresh c t)) (ObsIam (clientGrant c)) /\
     refresh_traffic env w c (fun t => ObsIam (clientRefresh c t)) (ObsIam (clientGrant c))) /\
  (forall p : Password.PasswordAuthProvider,
     GetToken_traffic env w p (passwordRefresh p) (passwordGrant p) /\
     refresh_traffic env w p (passwordRefresh p) (passwordGrant p)).
Proof.
  intros Hfree. split.
  - intros c. split.
    + destruct (Client_GetToken_in_full env w c Hfree)
        as (r & w' & new & E & _ & Ha & Hg & _ & Hn).
      exists r, w', new. auto.
    + intros t.
      destruct (Client_RefreshToken_effect env w c t Hfree) as (r & w' & new & E & _ & Ha & Hn).
      exists w', new. split; [ | auto ].
      unfold run_goroutine, refreshing. rewrite run_bind.
      change (Provider.RefreshToken c (Some t)) with (Client.RefreshToken c (Some t)).
      rewrite E. reflexivity.
  - intros p. split.
    + destruct (Password_GetToken_in_full env w p Hfree)
        as (r & w' & new & E & _ & Ha & Hg & _ & Hn).
      exists r, w', new. auto.
    + intros t.
      destruct (Password_RefreshToken_effect env w p t Hfree) as (r & w' & new & E & _ & Ha & Hn).
      exists w', new. split; [ | auto ].
      unfold run_goroutine, refreshing. rewrite run_bind.
      change (Provider.RefreshToken p (Some t)) with (Password.RefreshToken p (Some t)).
      rewrite E. reflexivity.
Qed.

Lemma GetToken_asks_at_most_twice_witness :
  let env := scripted 900 (grantingFor 3600) (fun _ => (None, None)) [] in
  let after := run env (Client.GetToken aClient) (holding expiringToken) in
  GetToken_traffic env (holding expiringToken) aClient
                    (fun t => ObsIam (clientRefresh aClient t)) (ObsIam (clientGrant aClient)) /\
  (snd after).(trace) = [] /\
  (snd after).(goroutines) = [refreshing aClient expiringToken] /\
  exists w',
    run_goroutine env (refreshing aClient expiringToken) (snd after) = (Returned tt, w') /\
    w'.(trace) = [ObsIam (clientRefresh aClient expiringToken)].
Proof.
  intros env after.
  assert (Hfree : (snd after).(mu) = unlocked) by reflexivity.
  destruct (proj1 (GetToken_asks_at_most_twice env (holding expiringToken) eq_refl) aClient)
    as (Hcall & _).
  destruct (proj1 (GetToken_asks_at_most_twice env (snd after) Hfree) aClient)
    as (_ & Hbg).
  split; [ exact Hcall | ].
  split; [ reflexivity | ]. split; [ reflexivity | ].
  destruct (Hbg expiringToken) as (w' & new & E & Ha & Hn).
  exists w'. split; [ exact E | ].
  assert (E0 : trace (snd (run_goroutine env (refreshing aClient expiringToken) (snd after))) =
               [ObsIam (clientRefresh aClient expiringToken)]) by reflexivity.
  rewrite E in E0. exact E0.
Defined.

Lemma finishes_with (env : Env) (w w1 : World) (p : prog TokenResult) (tok : Token) :
  finishes env w p -> run env p w = (Returned (Some tok, None), w1) ->
  w1.(mu) = unlocked /\ w1.(currentToken) = Some tok.
Proof.
  intros (r & w' & E & Hs) E'. rewrite E in E'. injection E' as -> ->.
  destruct Hs as (Hmu & _ & Hcur). auto.
Qed.

(** X4: a token obtained from [Authenticate] or [RefreshToken] is what the
    next [GetToken] returns, without any call to the identity service and
    without starting a refresh, as long as the token is not expired at the
    first clock reading of that [GetToken] and has five minutes or more left
    at the second. *)
Theorem fresh_token_is_reused (env : Env) (w w1 : World) (tok : Token) :
  w.(mu) = unlocked ->
  env.(clock) w1.(ticks) <= tok.(ExpiresAt) ->
  5 * time.Minute <= tok.(ExpiresAt) - env.(clock) (S w1.(ticks)) ->
  (forall c : Client.ClientAuthProvider,
     (run env (Client.Authenticate c) w = (Returned (Some tok, None), w1) \/
      exists t, run env (Client.RefreshToken c (Some t)) w = (Returned (Some tok, None), w1)) ->
     run env (Client.GetToken c) w1 = (Returned (Some tok, None), tick (tick w1))) /\
  (forall p : Password.PasswordAuthProvider,
     (run env (Password.Authenticate p) w = (Returned (Some tok, None), w1) \/
      exists t, run env (Password.RefreshToken p (Some t)) w = (Returned (Some tok, None), w1)) ->
     run env (Password.GetToken p) w1 = (Returned (Some tok, None), tick (tick w1))).
Proof.
  intros Hfree Hvalid Hlong. split.
  - intros c Hgot.
    assert (Hw1 : w1.(mu) = unlocked /\ w1.(currentToken) = Some tok).
    { destruct Hgot as [E | [t E]].
      - eapply finishes_with; [ | exact E ].
        eapply effect_finishes, Client_Authenticate_effect, Hfree.
      - eapply finishes_with; [ | exact E ].
        eapply effect_finishes, Client_RefreshToken_effect, Hfree. }
    destruct Hw1 as [Hmu Hcur].
    destruct (Client_GetToken_branches env w1 c Hmu) as (_ & _ & _ & H4).
    apply (H4 tok Hcur Hvalid Hlong).
  - intros p Hgot.
    assert (Hw1 : w1.(mu) = unlocked /\ w1.(currentToken) = Some tok).
    { destruct Hgot as [E | [t E]].
      - eapply finishes_with; [ | exact E ].
        eapply effect_finishes, Password_Authenticate_effect, Hfree.
      - eapply finishes_with; [ | exact E ].
        eapply effect_finishes, Password_RefreshToken_effect, Hfree. }
    destruct Hw1 as [Hmu Hcur].
    destruct (Password_GetToken_branches env w1 p Hmu) as (_ & _ & _ & H4).
    apply (H4 tok Hcur Hvalid Hlong).
Qed.

Lemma fresh_token_is_reused_witness :
  let env := scripted 900 (grantingFor 3600) (fun _ => (None, None)) [] in
  let tok := mkToken "t1" "Bearer" 3600000000900 "" in
  let w1 := set_currentToken (Some tok) (tick (log (ObsIam (clientGrant aClient)) world0)) in
  run env (Client.GetToken aClient) w1 = (Returned (Some tok, None), tick (tick w1)).
Proof.
  intros env tok w1.
  refine (proj1 (@fresh_token_is_reused env world0 w1 tok eq_refl _ _) aClient _).
  - vm_compute. discriminate.
  - vm_compute. discriminate.
  - left. reflexivity.
Defined.

Lemma scale_seconds (n : Z) :
  (- 9223372036 <= n <= 9223372036 -> time.scale n time.Second = n * 1000000000) /\
  (9223372036 < n <= 18446744073 -> time.scale n time.Second < 0) /\
  (18446744073 < n <= 27670116110 ->
   time.scale n time.Second = n * 1000000000 - 2 ^ 64 /\ 0 < time.scale n time.Second).
Proof.
  unfold time.scale, GoInt.mul64, GoInt.wrap64.
  change time.Second with 1000000000.
  change (2 ^ 63) with 9223372036854775808.
  change (2 ^ 64) with 18446744073709551616.
  split; [ | split ]; intros Hn.
  - rewrite Z.mod_small by lia. lia.
  - assert (E : (n * 1000000000 + 9223372036854775808) mod 18446744073709551616 =
                n * 1000000000 + 9223372036854775808 - 18446744073709551616).
    { symmetry. apply Z.mod_unique with 1; lia. }
    rewrite E. lia.
  - assert (E : (n * 1000000000 + 9223372036854775808) mod 18446744073709551616 =
                n * 1000000000 + 9223372036854775808 - 18446744073709551616).
    { symmetry. apply Z.mod_unique with 1; lia. }
    rewrite E. lia.
Qed.

(** X5: the expiry of a token that [Authenticate] obtains is the clock
    reading plus the lifetime the service states, in seconds, as long as the
    product with a second fits a Duration: always for the password provider,
    whose lifetime is an int32, and for the client provider up to
    9223372036 s.  Beyond that, and up to 18446744073 s, the product wraps
    to a negative Duration and the token is born with its expiry in the
    past.  From 18446744074 s on, up to 27670116110 s, the product has
    wrapped to a positive Duration again: the token is not born expired,
    but expires 2^64 ns earlier than stated. *)
Theorem token_expiry_from_lifetime (env : Env) (w : World) :
  w.(mu) = unlocked ->
  let now := env.(clock) w.(ticks) in
  (forall c resp r,
     env.(newRequestErr) "POST" (Client.iamURL c ++ "/v3/oauth/token") = None ->
     iamAnswer env w (clientGrant c) = inl resp ->
     resp.(IamStatusCode) = 200 ->
     Decode_tokenResp resp.(IamBody) = inl r ->
     exists tok,
       fst (run env (Client.Authenticate c) w) = Returned (Some tok, None) /\
       (- 9223372036 <= r.(tr_ExpiresIn) <= 9223372036 ->
        tok.(ExpiresAt) = now + r.(tr_ExpiresIn) * 1000000000) /\
       (9223372036 < r.(tr_ExpiresIn) <= 18446744073 -> tok.(ExpiresAt) < now) /\
       (18446744073 < r.(tr_ExpiresIn) <= 27670116110 ->
        tok.(ExpiresAt) = now + r.(tr_ExpiresIn) * 1000000000 - 2 ^ 64 /\
        now < tok.(ExpiresAt))) /\
  (forall p ok payload accessToken tokenType expiresIn,
     sdkAnswer env w (passwordGrant p) = (Some ok, None) ->
     ok.(GetPayload) = Some payload ->
     payload.(pl_AccessToken) = Some accessToken ->
     payload.(pl_TokenType) = Some tokenType ->
     payload.(pl_ExpiresIn) = Some expiresIn ->
     - 2147483648 <= expiresIn <= 2147483647 ->
     exists tok,
       fst (run env (Password.Authenticate p) w) = Returned (Some tok, None) /\
       tok.(ExpiresAt) = now + expiresIn * 1000000000).
Proof.
  intros Hfree now. split.
  - intros c resp r Hnew Hans Hok Hdec.
    exists (Client.tokenOf now r). split.
    + destruct w as [tk tr m ct lrq lrs gs]. simpl in *. subst m.
      unfold iamAnswer, clientGrant, tokenEndpointRequest in Hans. simpl in Hans.
      unfold Client.Authenticate. simpl. rewrite Hnew. simpl.
      unfold Header_Set, SetBasicAuth. simpl. canonical_keys. rewrite Hans, Hok, Hdec. reflexivity.
    + unfold Client.tokenOf, time.Add. simpl.
      destruct (scale_seconds (tr_ExpiresIn r)) as (Hin & Hover & Hback).
      split; [ | split ]; intros Hn;
        [ rewrite (Hin Hn); reflexivity | specialize (Hover Hn); lia
        | destruct (Hback Hn) as [E Hpos]; rewrite E in *; lia ].
  - intros p ok payload a ty n Hans Hpl Ha Hty Hn Hrange.
    exists (Password.tokenOf now a ty n payload.(pl_RefreshToken)). split.
    + destruct w as [tk tr m ct lrq lrs gs]. simpl in *. subst m.
      unfold sdkAnswer, passwordGrant in Hans. simpl in Hans.
      unfold Password.Authenticate. simpl. rewrite Hans, Hpl, Ha, Hty, Hn. reflexivity.
    + unfold Password.tokenOf, time.Add. simpl.
      destruct (scale_seconds n) as (Hin & _). rewrite Hin by lia. reflexivity.
Qed.

Lemma token_expiry_from_lifetime_witness :
  let env := scripted 900 (grantingFor 9223372037) (fun _ => (None, None)) [] in
  exists tok,
    fst (run env (Client.Authenticate aClient) world0) = Returned (Some tok, None) /\
    tok.(ExpiresAt) < 900.
Proof.
  intros env.
  destruct (proj1 (token_expiry_from_lifetime env world0 eq_refl) aClient
              (mkIamResponse 200 (Parsed (JObject [("access_token", JString "t1");
                                                   ("token_type", JString "Bearer");
                                                   ("expires_in", JNumber (IntLit 9223372037))])))
              (mkTokenResp "t1" "Bearer" 9223372037 "")
              eq_refl eq_refl eq_refl eq_refl) as (tok & E & _ & Hover & _).
  exists tok. split; [ exact E | ]. apply Hover. simpl. lia.
Defined.

(* ------------------------------------------------------------------ *)
(** ** createIAMClient: reading the IAM base URL                       *)
(* ------------------------------------------------------------------ *)

Lemma substring_prefix (a b : string) : substring 0 (String.length a) (a ++ b) = a.
Proof.
  induction a as [ | c a IH ]; simpl.
  - destruct b; reflexivity.
  - now rewrite IH.
Qed.

Lemma substring_suffix (a b : string) :
  substring (String.length a) (String.length b) (a ++ b) = b.
Proof.
  induction a as [ | c a IH ]; simpl.
  - induction b as [ | c b IHb ]; simpl; [ reflexivity | now rewrite IHb ].
  - exact IH.
Qed.

Lemma strip_iam (host : string) :
  host <> "" ->
  (if andb (Nat.ltb 4 (String.length (host ++ "/iam")))
           (String.eqb (Password.slice_from (String.length (host ++ "/iam") - 4) (host ++ "/iam"))
                       "/iam")
   then substring 0 (String.length (host ++ "/iam") - 4) (host ++ "/iam")
   else host ++ "/iam") = host.
Proof.
  intros Hne. unfold Password.slice_from.
  rewrite append_length. change (String.length "/iam") with 4%nat.
  replace (String.length host + 4 - 4)%nat with (String.length host) by lia.
  replace (String.length host + 4 - String.length host)%nat with (String.length "/iam")
    by (simpl; lia).
  rewrite substring_suffix, substring_prefix.
  destruct host as [ | c host ]; [ congruence | ].
  simpl String.length.
  replace (Nat.ltb 4 (S (String.length host) + 4)) with true
    by (symmetry; apply Nat.ltb_lt; lia).
  reflexivity.
Qed.

(** X6: [createIAMClient] takes an IAM base URL apart: of scheme://host/iam
    with the scheme https or http and a host that is not empty it keeps the
    scheme and the host, dropping one trailing /iam; a URL that starts with
    neither scheme is taken as a host to reach over https.  The base path is
    always empty. *)
Theorem createIAMClient_splits_url (host : string) :
  host <> "" ->
  Password.createIAMClient ("https://" ++ host ++ "/iam") = mkTransportConfig host "" ["https"] /\
  Password.createIAMClient ("http://" ++ host ++ "/iam") = mkTransportConfig host "" ["http"] /\
  (substring 0 8 (host ++ "/iam") <> "https://" ->
   substring 0 7 (host ++ "/iam") <> "http://" ->
   Password.createIAMClient (host ++ "/iam") = mkTransportConfig host "" ["https"]).
Proof.
  intros Hne. split; [ | split ].
  - unfold Password.createIAMClient.
    assert (Hlen : Nat.ltb 8 (String.length ("https://" ++ host ++ "/iam")) = true).
    { apply Nat.ltb_lt. simpl. rewrite append_length. simpl. lia. }
    rewrite Hlen.
    change ("https://" ++ host ++ "/iam") with ("https://" ++ (host ++ "/iam")).
    change 8%nat with (String.length "https://") at 1.
    rewrite substring_prefix. simpl andb. cbv iota.
    assert (Hrest : Password.slice_from 8 ("https://" ++ (host ++ "/iam")) = host ++ "/iam").
    { unfold Password.slice_from. rewrite append_length.
      replace (String.length "https://" + String.length (host ++ "/iam") - 8)%nat
        with (String.length (host ++ "/iam")) by (simpl; lia).
      change 8%nat with (String.length "https://"). apply substring_suffix. }
    rewrite Hrest. rewrite (strip_iam Hne). reflexivity.
  - unfold Password.createIAMClient.
    destruct host as [ | c host ]; [ congruence | ].
    assert (Hno : String.eqb (substring 0 8 ("http://" ++ String c host ++ "/iam")) "https://"
                  = false) by reflexivity.
    rewrite Hno, andb_false_r.
    assert (Hlen : Nat.ltb 7 (String.length ("http://" ++ String c host ++ "/iam")) = true).
    { apply Nat.ltb_lt. simpl. lia. }
    rewrite Hlen.
    change ("http://" ++ String c host ++ "/iam") with ("http://" ++ (String c host ++ "/iam")).
    change 7%nat with (String.length "http://") at 1.
    rewrite substring_prefix. simpl andb. cbv iota.
    assert (Hrest : Password.slice_from 7 ("http://" ++ (String c host ++ "/iam"))
                    = String c host ++ "/iam").
    { unfold Password.slice_from. rewrite append_length.
      replace (String.length "http://" + String.length (String c host ++ "/iam") - 7)%nat
        with (String.length (String c host ++ "/iam")) by (simpl; lia).
      change 7%nat with (String.length "http://"). apply substring_suffix. }
    rewrite Hrest. rewrite (strip_iam Hne). reflexivity.
  - intros Hs Hp. unfold Password.createIAMClient.
    apply String.eqb_neq in Hs. apply String.eqb_neq in Hp.
    rewrite Hs, Hp, !andb_false_r. rewrite (strip_iam Hne). reflexivity.
Qed.

Lemma createIAMClient_splits_url_witness :
  Password.createIAMClient "https://demo.accelbyte.io/iam" =
    mkTransportConfig "demo.accelbyte.io" "" ["https"] /\
  Password.createIAMClient "http://demo.accelbyte.io/iam" =
    mkTransportConfig "demo.accelbyte.io" "" ["http"].
Proof.
  assert (Hne : "demo.accelbyte.io" <> "") by discriminate.
  destruct (createIAMClient_splits_url Hne) as (H1 & H2 & _).
  split; [ exact H1 | exact H2 ].
Defined.

(* ------------------------------------------------------------------ *)
(** ** The mock provider and its tokens *)
(* ------------------------------------------------------------------ *)

(** X7: the mock provider never fails and never calls out. [RefreshToken]
    returns, whatever token it is given (nil too), a bearer token without
    refresh token that expires one hour after the third clock reading of
    the call, and stores it; [GetToken] always returns the token it leaves
    stored: the current one while it has not expired, a refreshed one
    otherwise; [Authenticate] returns the stored token and changes nothing. *)
Theorem mock_provider_never_fails (env : Env) (w : World) (p : Mock.MockAuthProvider) :
  let now1 := env.(clock) w.(ticks) in
  (forall t, exists tok w',
     run env (Mock.RefreshToken p t) w = (Returned (Some tok, None), w') /\
     w'.(currentToken) = Some tok /\
     w'.(trace) = w.(trace) /\
     tok.(TokenType) = "Bearer" /\ tok.(RefreshToken) = "" /\
     tok.(ExpiresAt) = env.(clock) (S (S w.(ticks))) + 3600000000000) /\
  (exists tok w',
     run env (Mock.GetToken p) w = (Returned (Some tok, None), w') /\
     w'.(currentToken) = Some tok /\
     w'.(trace) = w.(trace)) /\
  (forall t, w.(currentToken) = Some t -> now1 <= t.(ExpiresAt) ->
     run env (Mock.GetToken p) w = (Returned (Some t, None), tick w)) /\
  (forall t, w.(currentToken) = Some t -> t.(ExpiresAt) < now1 ->
     run env (Mock.GetToken p) w = run env (Mock.RefreshToken p (Some t)) (tick w)) /\
  run env (Mock.Authenticate p) w = (Returned (w.(currentToken), None), w).
Proof.
  intros now1. destruct w as [tk tr m ct lrq lrs gs].
  split; [ | split; [ | split; [ | split ] ] ].
  - intros t. do 2 eexists. split; [ reflexivity | ]. simpl. repeat split.
  - unfold Mock.GetToken. destruct ct as [t | ].
    + simpl. destruct (time.After _ _); simpl; do 2 eexists; repeat split.
    + simpl. do 2 eexists; repeat split.
  - intros t Hcur Hle. simpl in Hcur. subst ct now1. simpl in Hle.
    unfold Mock.GetToken. simpl. unfold time.After.
    replace (ExpiresAt t <? clock env tk) with false
      by (symmetry; apply Z.ltb_ge; exact Hle).
    reflexivity.
  - intros t Hcur Hlt. simpl in Hcur. subst ct now1. simpl in Hlt.
    unfold Mock.GetToken. simpl. unfold time.After.
    replace (ExpiresAt t <? clock env tk) with true
      by (symmetry; apply Z.ltb_lt; exact Hlt).
    reflexivity.
  - reflexivity.
Qed.

Lemma to_int_not_nil (z : Z) :
  Z.to_int z <> Decimal.Pos Decimal.Nil /\ Z.to_int z <> Decimal.Neg Decimal.Nil.
Proof.
  split; intros E; pose proof (f_equal Z.of_int E) as E'; rewrite DecimalZ.of_to in E';
    subst z; vm_compute in E; discriminate.
Qed.

Lemma Itoa_inj (a b : Z) : GoInt.Itoa a = GoInt.Itoa b -> a = b.
Proof.
  unfold GoInt.Itoa. intros E.
  apply (f_equal NilZero.int_of_string) in E.
  destruct (to_int_not_nil a) as [Ha1 Ha2]. destruct (to_int_not_nil b) as [Hb1 Hb2].
  rewrite !NilZero.isi in E by assumption.
  injection E as E. now apply DecimalZ.to_int_inj.
Qed.

Lemma payload_claims (u1 u2 ns1 ns2 : string) (iat1 iat2 exp1 exp2 : Z) :
  json.Marshal [("sub", json.AnyString u1); ("namespace", json.AnyString ns1);
                ("iat", json.AnyInt64 iat1); ("exp", json.AnyInt64 exp1)] =
  json.Marshal [("sub", json.AnyString u2); ("namespace", json.AnyString ns2);
                ("iat", json.AnyInt64 iat2); ("exp", json.AnyInt64 exp2)] ->
  iat1 = iat2 /\ exp1 = exp2 /\
  (utf8.ValidString ns1 = true -> utf8.ValidString ns2 = true -> ns1 = ns2) /\
  (utf8.ValidString u1 = true -> utf8.ValidString u2 = true -> u1 = u2).
Proof.
  rewrite !payload_shape. intros E.
  apply append_inv_head, append_inv_head in E.
  apply split_at in E as [Eexp E]; try (apply Itoa_digits, comma_is_no_digit).
  apply append_inv_head in E.
  apply split_at in E as [Eiat E]; try (apply Itoa_digits, comma_is_no_digit).
  apply append_inv_head in E.
  apply appendString_split in E as [E Ens].
  injection E as E. rewrite !append_assoc in E. cbn [append] in E.
  apply appendLoop_split in E as [_ Eu].
  split; [ now apply Itoa_inj | ]. split; [ now apply Itoa_inj | ]. split; assumption.
Qed.

(** X8: the access token of the mock provider determines all four claims
    it was made from, not the user ID alone: two tokens for user IDs and
    namespaces that are valid UTF-8 are equal exactly when user ID,
    namespace, issue time and expiry are. *)
Theorem mock_token_determines_its_claims
        (u1 u2 ns1 ns2 : string) (iat1 iat2 exp1 exp2 : Z) :
  utf8.ValidString u1 = true -> utf8.ValidString u2 = true ->
  utf8.ValidString ns1 = true -> utf8.ValidString ns2 = true ->
  (Mock.mockJWT u1 ns1 iat1 exp1 = Mock.mockJWT u2 ns2 iat2 exp2 <->
   u1 = u2 /\ ns1 = ns2 /\ iat1 = iat2 /\ exp1 = exp2).
Proof.
  intros Hu1 Hu2 Hn1 Hn2. split.
  - intros E.
    rewrite (mockJWT_shape u1 ns1 iat1 exp1), (mockJWT_shape u2 ns2 iat2 exp2) in E.
    apply append_inv_head in E.
    apply append_inv_tail, base64_facts.EncodeToString_inj in E.
    destruct (payload_claims E) as (Hiat & Hexp & Hns & Hu). auto.
  - intros (-> & -> & -> & ->). reflexivity.
Qed.

Lemma mock_token_determines_its_claims_witness :
  Mock.mockJWT "alice" "demo" 0 3600 <> Mock.mockJWT "bob" "demo" 0 3600.
Proof.
  intros E.
  apply (proj1 (@mock_token_determines_its_claims "alice" "bob" "demo" "demo" 0 0 3600 3600
                  eq_refl eq_refl eq_refl eq_refl)) in E.
  destruct E as (E & _). discriminate E.
Defined.

Lemma enc_urlSafe (i : Z) : 0 <= i < 64 -> urlSafe (base64.enc i) = true.
Proof.
  intros Hi.
  assert (H : forallb (fun n => urlSafe (base64.enc (Z.of_nat n))) (seq 0 64) = true)
    by (vm_compute; reflexivity).
  rewrite forallb_forall in H.
  rewrite <- (Z2Nat.id i) by lia. apply H. apply in_seq. lia.
Qed.

Lemma sextet_range (x k : Z) : 0 <= Z.land (Z.shiftr x k) 63 < 64.
Proof.
  rewrite base64_facts.land_63. apply Z.mod_pos_bound. lia.
Qed.

Lemma land_range (x : Z) : 0 <= Z.land x 63 < 64.
Proof. rewrite base64_facts.land_63. apply Z.mod_pos_bound. lia. Qed.

Lemma EncodeToString_urlSafe (s : string) :
  all urlSafe (base64.EncodeToString s) = true /\
  Z.of_nat (String.length (base64.EncodeToString s)) = (4 * Z.of_nat (String.length s) + 2) / 3.
Proof.
  induction s as [ | a | a b | a b c rest [IH1 IH2] ] using base64_facts.string_ind3.
  - split; reflexivity.
  - split; [ | reflexivity ].
    cbn [base64.EncodeToString all]. rewrite !enc_urlSafe by apply sextet_range. reflexivity.
  - split; [ | reflexivity ].
    cbn [base64.EncodeToString all]. rewrite !enc_urlSafe by apply sextet_range. reflexivity.
  - split.
    + cbn [base64.EncodeToString all].
      rewrite !enc_urlSafe by first [ apply sextet_range | apply land_range ].
      exact IH1.
    + cbn [base64.EncodeToString String.length].
      rewrite !Nat2Z.inj_succ, IH2.
      replace (4 * Z.succ (Z.succ (Z.succ (Z.of_nat (String.length rest)))) + 2)
        with ((4 * Z.of_nat (String.length rest) + 2) + 4 * 3) by lia.
      rewrite Z.div_add by lia. lia.
Qed.

Lemma urlSafe_no_dot (s : string) : all urlSafe s = true -> occurs "." s = false.
Proof.
  induction s as [ | c s IH ]; simpl; [ reflexivity | ].
  intros H. apply andb_prop in H as [Hc Hs]. rewrite (IH Hs), orb_false_r.
  destruct (Ascii.eqb_spec c "."); [ subst c; discriminate | reflexivity ].
Qed.

(** X9: an access token of the mock provider is the fixed header, the
    base64url text of the claims and the word mock-signature, joined by two
    dots; no part holds a dot, and the claims part is unpadded, written in
    the URL-safe alphabet only. *)
Theorem mock_token_has_three_parts (userID namespace : string) (iat exp : Z) :
  exists payload,
    Mock.mockJWT userID namespace iat exp =
      "eyJhbGciOiJIUzI1NiIsInR5cCI6IkpXVCJ9" ++ "." ++ payload ++ "." ++ "mock-signature" /\
    payload = base64.EncodeToString
                (json.Marshal [("sub", json.AnyString userID);
                               ("namespace", json.AnyString namespace);
                               ("iat", json.AnyInt64 iat); ("exp", json.AnyInt64 exp)]) /\
    all urlSafe payload = true /\
    occurs "." "eyJhbGciOiJIUzI1NiIsInR5cCI6IkpXVCJ9" = false /\
    occurs "." payload = false /\
    occurs "." "mock-signature" = false.
Proof.
  eexists. split; [ | split; [ reflexivity | ] ].
  - rewrite mockJWT_shape. reflexivity.
  - split; [ apply EncodeToString_urlSafe | ].
    split; [ reflexivity | ]. split; [ | reflexivity ].
    apply urlSafe_no_dot, EncodeToString_urlSafe.
Qed.

(* ------------------------------------------------------------------ *)
(** ** Requests of the API client *)
(* ------------------------------------------------------------------ *)

Lemma retryLoop_returns (env : Env) (req : Request) (left : nat) :
  forall attempt lastErr w,
  exists r w',
    run env (api.retryLoop left attempt req lastErr) w = (Returned r, w') /\
    answered w' r /\
    w'.(lastRequest) = w.(lastRequest) /\
    w'.(currentToken) = w.(currentToken) /\
    w'.(mu) = w.(mu) /\
    w'.(goroutines) = w.(goroutines).
Proof.
  induction left as [ | left IH ]; intros attempt lastErr w.
  - do 2 eexists. split; [ reflexivity | ]. simpl. auto.
  - rewrite retryLoop_attempt. cbv zeta.
    assert (Hs : forall w0, lastRequest (tried req (slept attempt w0)) = lastRequest w0 /\
                            currentToken (tried req (slept attempt w0)) = currentToken w0 /\
                            mu (tried req (slept attempt w0)) = mu w0 /\
                            goroutines (tried req (slept attempt w0)) = goroutines w0).
    { intros [tk tr m ct lrq lrs gs]. unfold tried, slept.
      destruct (0 <? attempt); simpl; auto. }
    destruct (Hs w) as (H1 & H2 & H3 & H4).
    destruct (apiAnswer env (slept attempt w) req) as [resp | err].
    + destruct (Z.leb_spec 500 (StatusCode resp)) as [Hsrv | Hok].
      * destruct (IH (attempt + 1) (Some (Errorf_d "server error: status " (StatusCode resp)))
                     (set_lastResponse (snapshot env resp (slept attempt w))
                                       (tried req (slept attempt w))))
          as (r & w' & E & Ha & L1 & L2 & L3 & L4).
        exists r, w'. split; [ exact E | ]. split; [ exact Ha | ].
        rewrite L1, L2, L3, L4.
        destruct (tried req (slept attempt w)); simpl in *. auto.
      * do 2 eexists. split; [ reflexivity | ].
        split.
        { simpl. split; [ exact Hok | ]. eexists.
          destruct (tried req (slept attempt w)); reflexivity. }
        destruct (tried req (slept attempt w)); simpl in *. auto.
    + destruct (IH (attempt + 1) (Some err) (tried req (slept attempt w)))
        as (r & w' & E & Ha & L1 & L2 & L3 & L4).
      exists r, w'. split; [ exact E | ]. split; [ exact Ha | ].
      rewrite L1, L2, L3, L4. auto.
Qed.

Lemma Header_Get_set (k v : string) (h : list (string * string)) :
  Header_Get k (assoc_set k v h) = Some v.
Proof.
  induction h as [ | [k' v'] h IH ]; simpl.
  - now rewrite String.eqb_refl.
  - destruct (String.eqb k k') eqn:E; simpl.
    + now rewrite String.eqb_refl.
    + rewrite E. exact IH.
Qed.

Lemma Header_Get_set_other (k k' v : string) (h : list (string * string)) :
  String.eqb k k' = false ->
  Header_Get k (assoc_set k' v h) = Header_Get k h.
Proof.
  intros Hne. induction h as [ | [k0 v0] h IH ]; simpl.
  - now rewrite Hne.
  - destruct (String.eqb k' k0) eqn:E; simpl.
    + apply String.eqb_eq in E. subst k0. now rewrite Hne.
    + now rewrite IH.
Qed.

Lemma builtRequest_headers {P : Type} (c : api.HTTPAPIClient P) (method path : string)
      (reqBody : ReqBody) (token : Token) :
  let req := builtRequest c method path reqBody token in
  req.(Method) = method /\ req.(URL) = api.baseURL c ++ path /\
  headed c token req.(Header).
Proof.
  unfold builtRequest, headed, Header_Set.
  destruct (String.eqb (api.userID c) ""); cbn [negb Method URL Header BasicAuth Body];
    canonical_keys; simpl; repeat split; reflexivity.
Qed.

(** [doRequest], step by step up to its loop. *)
Lemma doRequest_steps {P : Type} `{Provider.AuthProvider P} (env : Env) (w : World)
      (c : api.HTTPAPIClient P) (method path : string) (body : option api.GoValue) :
  (exists v err, body = Some v /\ api.json_Marshal v = inr err /\
     run env (api.doRequest c method path body) w =
     (Returned (None, Some (Errorf_w "marshal request body: " err)), w)) \/
  (exists reqBody bodyStr, marshalled body reqBody bodyStr /\
     ((exists err, env.(newRequestErr) method (api.baseURL c ++ path) = Some err /\
         run env (api.doRequest c method path body) w =
         (Returned (None, Some (Errorf_w "create request: " err)), w)) \/
      (env.(newRequestErr) method (api.baseURL c ++ path) = None /\
       run env (api.doRequest c method path body) w =
       andThen (run env (Provider.GetToken (api.authProvider c)) w) (fun r w' =>
         match snd r, fst r with
         | Some err, _ => (Returned (None, Some (Errorf_w "get auth token: " err)), w')
         | None, None => (Panicked nilDeref, w')
         | None, Some token =>
             let req := builtRequest c method path reqBody token in
             run env (api.retryLoop 3 0 req None)
                 (set_lastRequest
                    (mkRequestDebugInfo req.(Method) (env.(urlString) req.(URL))
                                        req.(Header) bodyStr) w')
         end)))).
Proof.
  unfold api.doRequest.
  destruct body as [v | ].
  - destruct (api.json_Marshal v) as [jsonBytes | err] eqn:Hm.
    + right. exists (BytesBody jsonBytes), jsonBytes. split; [ simpl; auto | ].
      rewrite run_bind. cbn [call run handle andThen].
      destruct (newRequestErr env method (api.baseURL c ++ path)) as [err | ].
      * left. exists err. split; reflexivity.
      * right. split; [ reflexivity | ]. cbn [andThen]. rewrite run_bind.
        destruct (run env (Provider.GetToken (api.authProvider c)) w) as [[[tok err] | msg | ] w'];
          cbn [andThen fst snd]; try reflexivity.
        destruct err as [err | ]; [ reflexivity | ].
        destruct tok as [tok | ]; [ | reflexivity ].
        rewrite run_bind. reflexivity.
    + left. exists v, err. repeat split. exact Hm.
  - right. exists NoBody, "". split; [ simpl; auto | ].
    rewrite run_bind. cbn [call run handle andThen].
    destruct (newRequestErr env method (api.baseURL c ++ path)) as [err | ].
    + left. exists err. split; reflexivity.
    + right. split; [ reflexivity | ]. cbn [andThen]. rewrite run_bind.
      destruct (run env (Provider.GetToken (api.authProvider c)) w) as [[[tok err] | msg | ] w'];
        cbn [andThen fst snd]; try reflexivity.
      destruct err as [err | ]; [ reflexivity | ].
      destruct tok as [tok | ]; [ | reflexivity ].
      rewrite run_bind. reflexivity.
Qed.

(** X10: when [doRequest] returns, it returns either an error and no
    response, or a response and no error.  In the second case the status is
    below 500, the response has been recorded as the last response, and the
    last request recorded is the one sent with the token [GetToken] handed
    over: its method, the text [String] gives for the URL parsed from the
    base URL and the path, the body, and the headers, which under their
    canonical keys are the JSON content headers, that token as bearer and
    the mock user ID of a client that has one. *)
Theorem doRequest_hands_back_response_or_error {P : Type} `{Provider.AuthProvider P}
        (env : Env) (w w' : World) (c : api.HTTPAPIClient P) (method path : string)
        (body : option api.GoValue) (r : api.DoResult) :
  run env (api.doRequest c method path body) w = (Returned r, w') ->
  answered w' r /\
  (fst r <> None ->
   exists token w1,
     run env (Provider.GetToken (api.authProvider c)) w = (Returned (Some token, None), w1) /\
     recorded env c method path body token w' /\
     forall reqBody, headed c token (builtRequest c method path reqBody token).(Header)).
Proof.
  intros E.
  destruct (doRequest_steps env w c method path body)
    as [(v & err & _ & _ & E') | (reqBody & bodyStr & Hm & [(err & _ & E') | (Hnew & E')])];
    rewrite E' in E.
  - injection E as <- <-. simpl. split; [ exact I | intros []; reflexivity ].
  - injection E as <- <-. simpl. split; [ exact I | intros []; reflexivity ].
  - destruct (run env (Provider.GetToken (api.authProvider c)) w) as [[[tok err] | msg | ] w1];
      cbn [andThen fst snd] in E; try discriminate.
    destruct err as [err | ].
    { injection E as <- <-. simpl. split; [ exact I | intros []; reflexivity ]. }
    destruct tok as [tok | ]; [ | discriminate ].
    cbv zeta in E.
    destruct (retryLoop_returns env (builtRequest c method path reqBody tok) 3 0 None
                (set_lastRequest
                   (mkRequestDebugInfo (Method (builtRequest c method path reqBody tok))
                                       (urlString env (URL (builtRequest c method path reqBody tok)))
                                       (Header (builtRequest c method path reqBody tok)) bodyStr)
                   w1))
      as (r0 & w0 & E0 & Ha & Hreq & _).
    rewrite E0 in E. injection E as <- <-.
    split; [ exact Ha | ]. intros _.
    exists tok, w1. split; [ reflexivity | ]. split.
    + pose proof (builtRequest_headers c method path reqBody tok) as Hb. cbv zeta in Hb.
      destruct Hb as (Hmeth & Hurl & _).
      exists reqBody, bodyStr. split; [ exact Hm | ].
      rewrite Hreq. unfold set_lastRequest. cbn [lastRequest]. rewrite Hmeth, Hurl.
      reflexivity.
    + intros reqBody'. apply (builtRequest_headers c method path reqBody' tok).
Qed.

Lemma doRequest_hands_back_response_or_error_witness :
  let notFound := mkResponse 404 [] "not found" in
  let env := serving [inl notFound] in
  let after := run env (api.doRequest anApp "GET" "/v1/challenges" None) (holding freshToken) in
  answered (snd after) (Some notFound, None) /\
  exists token w1,
    run env (Client.GetToken aClient) (holding freshToken) = (Returned (Some token, None), w1) /\
    recorded env anApp "GET" "/v1/challenges" None token (snd after) /\
    forall reqBody,
      headed anApp token (builtRequest anApp "GET" "/v1/challenges" reqBody token).(Header).
Proof.
  intros notFound env after.
  assert (E : run env (api.doRequest anApp "GET" "/v1/challenges" None) (holding freshToken) =
              (Returned (Some notFound, None), snd after)) by reflexivity.
  destruct (@doRequest_hands_back_response_or_error _ _ _ _ _ _ _ _ _ _ E) as [Ha Hr].
  split; [ exact Ha | apply Hr; discriminate ].
Defined.

Lemma doRequest_returns_after {P : Type} `{Provider.AuthProvider P} (env : Env) (w : World)
      (c : api.HTTPAPIClient P) (method path : string) (body : option api.GoValue) :
  (exists r w', run env (Provider.GetToken (api.authProvider c)) w = (Returned r, w') /\
                (snd r = None -> fst r <> None)) ->
  exists r w', run env (api.doRequest c method path body) w = (Returned r, w').
Proof.
  intros (r & w1 & Hget & Hsome).
  destruct (doRequest_steps env w c method path body)
    as [(v & err & _ & _ & E') | (reqBody & bodyStr & Hm & [(err & _ & E') | (Hnew & E')])];
    rewrite E'; eauto.
  rewrite Hget. cbn [andThen]. destruct r as [tok err]. cbn [fst snd] in *.
  destruct err as [err | ]; [ eauto | ].
  destruct tok as [tok | ]; [ | now destruct (Hsome eq_refl) ].
  cbv zeta.
  match goal with
  | |- context [run env (api.retryLoop 3 0 ?req None) ?w0] =>
      destruct (retryLoop_returns env req 3 0 None w0) as (r0 & w0' & E0 & _)
  end.
  eauto.
Qed.

(** X11: [doRequest] returns with each of the three providers: it never
    panics on a missing token, since no provider returns neither token nor
    error. (For the two providers with a lock: when the lock is free.) *)
Theorem doRequest_returns_with_every_provider (env : Env) (w : World)
        (method path : string) (body : option api.GoValue) :
  (forall c : api.HTTPAPIClient Mock.MockAuthProvider,
     exists r w', run env (api.doRequest c method path body) w = (Returned r, w')) /\
  (w.(mu) = unlocked ->
   (forall c : api.HTTPAPIClient Client.ClientAuthProvider,
      exists r w', run env (api.doRequest c method path body) w = (Returned r, w')) /\
   (forall c : api.HTTPAPIClient Password.PasswordAuthProvider,
      exists r w', run env (api.doRequest c method path body) w = (Returned r, w'))).
Proof.
  split; [ | intros Hfree; split ].
  - intros c. apply doRequest_returns_after.
    destruct w as [tk tr m ct lrq lrs gs].
    unfold Provider.GetToken, Mock.provider, Mock.GetToken.
    destruct ct as [t | ]; simpl.
    + destruct (time.After _ _); simpl; do 2 eexists; split;
        [ reflexivity | discriminate | reflexivity | discriminate ].
    + do 2 eexists; split; [ reflexivity | discriminate ].
  - intros c. apply doRequest_returns_after.
    destruct (Client_GetToken_effect env w (api.authProvider c) Hfree)
      as (r & w' & new & E & (_ & Hs) & _).
    exists r, w'. split; [ exact E | ]. intros Hnone. rewrite Hnone in Hs. apply Hs.
  - intros c. apply doRequest_returns_after.
    destruct (Password_GetToken_effect env w (api.authProvider c) Hfree)
      as (r & w' & new & E & (_ & Hs) & _).
    exists r, w'. split; [ exact E | ]. intros Hnone. rewrite Hnone in Hs. apply Hs.
Qed.

(** X12: with the mock provider a request that can be built is always sent:
    the token is the one [GetToken] returns, and the call makes one, two or
    three attempts, with the sleeps of the schedule in between. *)
Theorem doRequest_with_mock_is_attempted (env : Env) (w : World)
        (c : api.HTTPAPIClient Mock.MockAuthProvider) (method path : string)
        (body : option api.GoValue) (reqBody : ReqBody) (bodyStr : string) :
  marshalled body reqBody bodyStr ->
  env.(newRequestErr) method (api.baseURL c ++ path) = None ->
  exists token w' k,
    run env (Mock.GetToken (api.authProvider c)) w = (Returned (Some token, None), w') /\
    (k = 1 \/ k = 3 \/ k = 5)%nat /\
    (snd (run env (api.doRequest c method path body) w)).(trace) =
    (w.(trace) ++ firstn k (schedule (builtRequest c method path reqBody token)))%list.
Proof.
  intros Hm Hnew.
  assert (Hget : exists token w',
             run env (Mock.GetToken (api.authProvider c)) w = (Returned (Some token, None), w') /\
             w'.(trace) = w.(trace)).
  { destruct w as [tk tr m ct lrq lrs gs]. unfold Mock.GetToken.
    destruct ct as [t | ]; simpl.
    - destruct (time.After _ _); simpl; do 2 eexists; split; reflexivity.
    - do 2 eexists; split; reflexivity. }
  destruct Hget as (token & w' & Hget & Htr).
  set (req := builtRequest c method path reqBody token).
  set (w1 := set_lastRequest (mkRequestDebugInfo req.(Method) (env.(urlString) req.(URL))
                                                 req.(Header) bodyStr) w').
  assert (Hreach : reaches_loop env w c method path body req w1).
  { exists reqBody, bodyStr, token, w'. repeat split; assumption. }
  exists token, w'. 
  rewrite (doRequest_enters_loop Hreach).
  destruct (retryLoop_three env req w1) as (L1 & L2 & L3 & L4).
  assert (Htrace : trace w1 = trace w) by (subst w1; destruct w'; exact Htr).
  rewrite <- Htrace.
  destruct (answer_cases (apiServer env (count isApi (trace w1)) req)) as [R0 | (r0 & E0 & S0)].
  - destruct (answer_cases (apiServer env (S (count isApi (trace w1))) req))
      as [R1 | (r1 & E1 & S1)].
    + destruct (answer_cases (apiServer env (S (S (count isApi (trace w1)))) req))
        as [R2 | (r2 & E2 & S2)].
      * exists 5%nat. split; [ exact Hget | split; [ auto | apply (L4 R0 R1 R2) ] ].
      * exists 5%nat. split; [ exact Hget | split; [ auto | apply (L3 r2 R0 R1 E2 S2) ] ].
    + exists 3%nat. split; [ exact Hget | split; [ auto | apply (L2 r1 R0 E1 S1) ] ].
  - exists 1%nat. split; [ exact Hget | split; [ auto | apply (L1 r0 E0 S0) ] ].
Qed.

Lemma doRequest_with_mock_is_attempted_witness :
  let env := serving [inr unreachable; inl (mkResponse 200 [] "{}")] in
  exists token w' k,
    run env (Mock.GetToken (api.authProvider aMockApp)) world0 =
      (Returned (Some token, None), w') /\
    (k = 1 \/ k = 3 \/ k = 5)%nat /\
    (snd (run env (api.doRequest aMockApp "GET" "/v1/challenges" None) world0)).(trace) =
    (world0.(trace) ++
     firstn k (schedule (builtRequest aMockApp "GET" "/v1/challenges" NoBody token)))%list.
Proof.
  intros env.
  apply (@doRequest_with_mock_is_attempted env world0 aMockApp "GET" "/v1/challenges" None
                                           NoBody "").
  - split; reflexivity.
  - reflexivity.
Defined.

Section EndpointFacts.

Import endpoint.

Context {P : Type} `{Provider.AuthProvider P}.
Context `{api.Decoder api.GetChallengesResponse} `{api.Decoder api.Challenge}
        `{api.Decoder api.ClaimResult} `{api.Decoder api.InitializeResponse}
        `{api.Decoder api.SetGoalActiveResponse} `{api.Decoder api.BatchSelectResponse}
        `{api.Decoder api.RandomSelectResponse}.

Lemma invoke_finish {T : Type} (e : Endpoint T) (c : api.HTTPAPIClient P)
      (env : Env) (w : World) :
  run env (invoke e c) w =
  andThen (run env (api.doRequest c (method e) (path e) (body e)) w)
          (fun r w' => run env (finish e r) w').
Proof.
  destruct e; try destruct activeOnly;
    cbn [invoke method path body sent option_map];
    unfold api.ListChallenges, api.ListChallengesWithFilter, api.GetChallenge, api.ClaimReward,
           api.InitializePlayer, api.SetGoalActive, api.BatchSelectGoals, api.RandomSelectGoals;
    cbv zeta; rewrite run_bind;
    match goal with
    | |- andThen ?x _ = andThen ?y _ =>
        change y with x; destruct x as [[[resp err] | msg | ] w']
    end; cbn [andThen]; try reflexivity;
    unfold finish; destruct err as [err | ]; try reflexivity;
    destruct resp as [resp | ]; try reflexivity;
    destruct (api.checkStatusCode resp); try reflexivity;
    cbn [decoded];
    match goal with
    | |- context [api.Decode ?b] => destruct (api.Decode b); reflexivity
    end.
Qed.

(** X13: the eight endpoints of the client treat the answer alike. A status
    200..299 is decoded (a body that does not decode gives the error
    decode response); a status below 200 or in 300..499 gives, after a single
    attempt, the error HTTP status: body and a nil result; three answers
    worth a retry give a nil result and an error that names the endpoint
    and wraps the exhaustion error around the last cause. *)
Theorem endpoint_outcomes {T : Type} (e : Endpoint T) (c : api.HTTPAPIClient P)
        (env : Env) (w w1 : World) (req : Request) :
  reaches_loop env w c (method e) (path e) (body e) req w1 ->
  let n := count isApi w1.(trace) in
  let a0 := env.(apiServer) n req in
  let a1 := env.(apiServer) (S n) req in
  let a2 := env.(apiServer) (S (S n)) req in
  let after := run env (invoke e c) w in
  (forall resp, a0 = inl resp -> 200 <= resp.(StatusCode) < 300 ->
     fst after = Returned (match decoded e resp.(RespBody) with
                           | inl v => (v, None)
                           | inr err => (nothing e, Some (Errorf_w "decode response: " err))
                           end) /\
     (snd after).(trace) = (w1.(trace) ++ [ObsApi req])%list) /\
  (forall resp, a0 = inl resp ->
     resp.(StatusCode) < 200 \/ 300 <= resp.(StatusCode) < 500 ->
     fst after = Returned (nothing e, Some (httpError resp)) /\
     (snd after).(trace) = (w1.(trace) ++ [ObsApi req])%list) /\
  (retryable a0 -> retryable a1 -> retryable a2 ->
     (snd after).(trace) = (w1.(trace) ++ schedule req)%list /\
     exists err,
       fst after = Returned (nothing e, Some err) /\
       Error err = prefix e ++ "request failed after 3 attempts: " ++ Error (cause a2) /\
       Unwrap err = Some (api.exhausted (Some (cause a2)))).
Proof.
  intros Hreach n a0 a1 a2 after. subst after.
  rewrite invoke_finish, (doRequest_enters_loop Hreach).
  destruct (retryLoop_three env req w1) as (L1 & _ & _ & L4).
  fold n a0 a1 a2 in L1, L4.
  split; [ | split ].
  - intros resp E0 Hst. destruct (L1 resp E0) as [Hres Htr]; [ lia | ].
    destruct (run env (api.retryLoop 3 0 req None) w1) as [r w']. simpl in Hres, Htr.
    subst r. cbn [andThen finish]. unfold api.checkStatusCode.
    replace (andb (200 <=? StatusCode resp) (StatusCode resp <? 300)) with true
      by (symmetry; apply andb_true_intro; split; [ apply Z.leb_le | apply Z.ltb_lt ]; lia).
    destruct (decoded e (RespBody resp)); simpl; auto.
  - intros resp E0 Hst. destruct (L1 resp E0) as [Hres Htr]; [ lia | ].
    destruct (run env (api.retryLoop 3 0 req None) w1) as [r w']. simpl in Hres, Htr.
    subst r. cbn [andThen finish]. unfold api.checkStatusCode.
    replace (andb (200 <=? StatusCode resp) (StatusCode resp <? 300)) with false.
    + simpl. auto.
    + symmetry. apply andb_false_iff.
      destruct Hst as [Hlow | Hhigh];
        [ left; apply Z.leb_gt; lia | right; apply Z.ltb_ge; lia ].
  - intros R0 R1 R2. destruct (L4 R0 R1 R2) as [Hres Htr].
    destruct (run env (api.retryLoop 3 0 req None) w1) as [r w']. simpl in Hres, Htr.
    subst r. cbn [andThen finish]. simpl. split; [ exact Htr | ].
    eexists. split; [ reflexivity | ]. split; [ | reflexivity ].
    simpl. reflexivity.
Qed.

End EndpointFacts.

#[local] Existing Instance rejecting.

Lemma endpoint_outcomes_witness :
  let gone := mkResponse 404 [] "not found" in
  let env := serving [inl gone] in
  let after := run env (endpoint.invoke EListChallenges anApp) (holding freshToken) in
  fst after = Returned ([], Some (endpoint.httpError gone)) /\
  (snd after).(trace) = (ready.(trace) ++ [ObsApi getChallenges])%list.
Proof.
  intros gone env after.
  destruct (@endpoint_outcomes _ _ _ _ _ _ _ _ _ _ EListChallenges anApp env
              (holding freshToken) ready getChallenges (anApp_reaches_loop [inl gone]))
    as (_ & H & _).
  apply (H gone).
  - reflexivity.
  - right. simpl. lia.
Defined.


(* ------------------------------------------------------------------ *)
(** ** The reward verifier of the platform *)
(* ------------------------------------------------------------------ *)

Lemma substring_at (before substr after : string) :
  substring (String.length before) (String.length substr) (before ++ substr ++ after) = substr.
Proof.
  induction before as [ | c before IH ]; simpl.
  - apply substring_prefix.
  - exact IH.
Qed.

Lemma substring_is_prefix (substr : string) :
  forall s, substring 0 (String.length substr) s = substr -> exists after, s = substr ++ after.
Proof.
  induction substr as [ | c substr IH ]; intros s E.
  - exists s. reflexivity.
  - destruct s as [ | c' s ]; simpl in E; [ discriminate | ].
    injection E as -> E. destruct (IH s E) as (after & ->). exists after. reflexivity.
Qed.

Lemma substring_found (substr : string) (j : nat) :
  substr <> "" ->
  forall s, substring j (String.length substr) s = substr ->
  exists before after, s = before ++ substr ++ after /\ String.length before = j.
Proof.
  intros Hne. induction j as [ | j IH ]; intros s E.
  - apply substring_is_prefix in E as (after & ->). exists "", after. auto.
  - destruct s as [ | c s ]; simpl in E.
    + destruct substr; [ congruence | discriminate ].
    + destruct (IH s E) as (before & after & -> & Hlen).
      exists (String c before), after. simpl. auto.
Qed.

Lemma containsLoop_spec (s substr : string) (left : nat) :
  forall i,
    ags.containsLoop left i s substr = true <->
    exists j, (i <= j < i + left)%nat /\ substring j (String.length substr) s = substr.
Proof.
  induction left as [ | left IH ]; intros i; simpl.
  - split; [ discriminate | intros (j & Hj & _); lia ].
  - destruct (String.eqb_spec (substring i (String.length substr) s) substr) as [E | N].
    + split; [ intros _ | reflexivity ]. exists i. split; [ lia | exact E ].
    + rewrite IH. split.
      * intros (j & Hj & E). exists j. split; [ lia | exact E ].
      * intros (j & Hj & E). exists j. split; [ | exact E ].
        destruct (Nat.eq_dec j i) as [-> | ]; [ contradiction | lia ].
Qed.

(** X14: [contains] is the substring test, but for one case: the empty
    fragment is found in the empty text only. *)
Theorem contains_is_substring_test (s substr : string) :
  ags.contains s substr = true <->
  s = substr \/ (substr <> "" /\ exists before after, s = before ++ substr ++ after).
Proof.
  unfold ags.contains, ags.containsImpl, len. split.
  - intros H. apply andb_prop in H as [Hlen H]. apply orb_prop in H as [H | H].
    + left. now apply String.eqb_eq.
    + right. apply andb_prop in H as [Hpos H].
      assert (Hne : substr <> "") by (intros ->; discriminate).
      split; [ exact Hne | ].
      apply containsLoop_spec in H as (j & _ & E).
      apply (@substring_found substr j Hne) in E as (before & after & -> & _). eauto.
  - intros [-> | (Hne & before & after & ->)].
    + rewrite Z.leb_refl, String.eqb_refl. reflexivity.
    + rewrite !append_length.
      apply andb_true_intro. split; [ apply Z.leb_le; lia | ].
      apply orb_true_intro. right. apply andb_true_intro. split.
      * apply Z.ltb_lt. destruct substr; [ congruence | simpl; lia ].
      * apply containsLoop_spec. exists (String.length before). split.
        -- rewrite !Nat2Z.inj_add. lia.
        -- apply substring_at.
Qed.

Lemma isRetryable_fragments (e : error) :
  ags.isRetryable (Some e) = existsb (ags.contains (Error e)) fragments.
Proof.
  unfold ags.isRetryable, fragments. cbn [existsb].
  repeat match goal with
         | |- context [ags.contains ?s ?p] => destruct (ags.contains s p); simpl; try reflexivity
         end.
Qed.

Lemma append_nil_r (s : string) : s ++ "" = s.
Proof. induction s as [ | c s IH ]; simpl; [ reflexivity | now rewrite IH ]. Qed.

Lemma within_contains (s substr : string) :
  substr <> "" -> (ags.contains s substr = true <-> within s substr).
Proof.
  intros Hne. rewrite contains_is_substring_test. unfold within. split.
  - intros [-> | (_ & H)]; [ | exact H ].
    exists "", "". simpl. now rewrite append_nil_r.
  - intros H. right. auto.
Qed.

Lemma within_after_prefix (prefix s substr : string) :
  within s substr -> within (prefix ++ s) substr.
Proof.
  intros (before & after & ->). exists (prefix ++ before), after.
  now rewrite append_assoc.
Qed.

Lemma fragments_not_empty (p : string) : In p fragments -> p <> "".
Proof.
  intros Hin ->. revert Hin. unfold fragments. simpl.
  intuition discriminate.
Qed.

Lemma isRetryable_within (e : error) :
  ags.isRetryable (Some e) = true <-> exists p, In p fragments /\ within (Error e) p.
Proof.
  rewrite isRetryable_fragments, existsb_exists. split.
  - intros (p & Hin & Hc). exists p. split; [ exact Hin | ].
    now apply within_contains; [ apply fragments_not_empty | ].
  - intros (p & Hin & Hw). exists p. split; [ exact Hin | ].
    now apply within_contains; [ apply fragments_not_empty | ].
Qed.

Lemma substring_in_left (a b : string) :
  forall j m, (j + m <= String.length a)%nat -> substring j m (a ++ b) = substring j m a.
Proof.
  induction a as [ | c a IH ]; intros j m Hle; simpl in Hle.
  - assert (j = 0 /\ m = 0)%nat as [-> ->] by lia. simpl. destruct b; reflexivity.
  - destruct j as [ | j ]; simpl.
    + destruct m as [ | m ]; [ reflexivity | ]. f_equal. apply IH. lia.
    + apply IH. lia.
Qed.

Lemma substring_skip (a b : string) (m : nat) :
  substring (String.length a) m (a ++ b) = substring 0 m b.
Proof. induction a as [ | c a IH ]; simpl; [ reflexivity | exact IH ]. Qed.

Lemma split_longer (a : string) :
  forall b c d, a ++ b = c ++ d -> (String.length a <= String.length c)%nat ->
  exists c', c = a ++ c' /\ b = c' ++ d.
Proof.
  induction a as [ | x a IH ]; intros b c d E Hle.
  - exists c. auto.
  - destruct c as [ | y c ]; simpl in Hle; [ lia | ].
    simpl in E. injection E as -> E.
    destruct (IH b c d E) as (c' & -> & ->); [ lia | ].
    exists c'. auto.
Qed.

Lemma within_under_prefix (prefix s substr : string) :
  clear_of prefix substr = true ->
  within (prefix ++ s) substr -> within s substr.
Proof.
  intros Hclear (before & after & E).
  destruct (Nat.le_gt_cases (String.length prefix) (String.length before)) as [Hle | Hlt].
  - destruct (split_longer _ _ _ _ E Hle) as (c' & _ & ->). exists c', after. reflexivity.
  - exfalso. unfold clear_of in Hclear. rewrite forallb_forall in Hclear.
    specialize (Hclear (String.length before)).
    rewrite in_seq in Hclear. specialize (Hclear (conj (Nat.le_0_l _) Hlt)).
    unfold differs_at in Hclear. apply negb_true_iff, String.eqb_neq in Hclear.
    apply Hclear. clear Hclear.
    set (m := Nat.min (String.length substr) (String.length prefix - String.length before)).
    rewrite <- (substring_in_left prefix s) by lia.
    rewrite E, substring_skip.
    apply substring_in_left. lia.
Qed.

Lemma isRetryable_wrapped (prefix : string) (e : error) :
  forallb (clear_of prefix) fragments = true ->
  ags.isRetryable (Some (Errorf_w prefix e)) = ags.isRetryable (Some e).
Proof.
  intros Hclear. rewrite forallb_forall in Hclear.
  apply eq_true_iff_eq. rewrite !isRetryable_within. simpl.
  split; intros (p & Hin & Hw); exists p; (split; [ exact Hin | ]).
  - now apply within_under_prefix with prefix; [ apply Hclear | ].
  - now apply within_after_prefix.
Qed.

Lemma isRetryable_queryFailed (sdkErr : error) :
  ags.isRetryable (Some (Errorf_w "query wallets failed: " sdkErr)) =
  ags.isRetryable (Some sdkErr).
Proof. apply isRetryable_wrapped. vm_compute. reflexivity. Qed.

(** X15: [isRetryable] goes by the message alone: nil is not retryable, an
    error is retryable exactly when its message holds one of the ten
    fragments, wrapping a retryable error keeps it retryable, and the prefix
    of doQueryUserWallets does not change the verdict. *)
Theorem retryable_by_message (err : error) :
  ags.isRetryable None = false /\
  (ags.isRetryable (Some err) = true <-> exists p, In p fragments /\ within (Error err) p) /\
  (forall prefix,
     ags.isRetryable (Some err) = true ->
     ags.isRetryable (Some (Errorf_w prefix err)) = true) /\
  ags.isRetryable (Some (Errorf_w "query wallets failed: " err)) = ags.isRetryable (Some err).
Proof.
  split; [ reflexivity | ]. split; [ apply isRetryable_within | ]. split.
  - intros prefix. rewrite !isRetryable_within. simpl.
    intros (p & Hin & Hw). exists p. split; [ exact Hin | now apply within_after_prefix ].
  - apply isRetryable_queryFailed.
Qed.

Lemma queries_snoc (log : list ags.Obs) (o : ags.Obs) :
  ags.queries (log ++ [o]) = (ags.queries log + (if ags.isQuery o then 1 else 0))%nat.
Proof.
  unfold ags.queries. rewrite filter_app, length_app. simpl.
  destruct (ags.isQuery o); reflexivity.
Qed.

Lemma exec_bind (platform : ags.Platform) {A B : Type} (p : ags.io A) (f : A -> ags.io B)
      (log : list ags.Obs) :
  ags.exec platform (ags.bind p f) log =
  (let '(a, log') := ags.exec platform p log in ags.exec platform (f a) log').
Proof.
  revert f log. induction p as [A a | A X e k IH]; intros f log; simpl.
  - reflexivity.
  - destruct (ags.handle platform e log) as [x log']. apply IH.
Qed.

Lemma exec_doQueryUserWallets (platform : ags.Platform) (v : ags.AGSRewardVerifier)
      (log : list ags.Obs) :
  ags.exec platform (ags.doQueryUserWallets v) log =
  (match platform (ags.queries log) v.(ags.namespace) v.(ags.userID) with
   | (_, Some sdkErr) => ([], Some (queryFailed sdkErr))
   | (resp, None) => (ags.toWallets v resp, None)
   end,
   (log ++ [ags.ObsQuery v.(ags.namespace) v.(ags.userID)])%list).
Proof.
  unfold ags.doQueryUserWallets. simpl.
  destruct (platform _ _ _) as [resp [sdkErr | ]]; reflexivity.
Qed.

Lemma exec_doGetUserWallet (platform : ags.Platform) (v : ags.AGSRewardVerifier)
      (currencyCode : string) (log : list ags.Obs) :
  ags.exec platform (ags.doGetUserWallet v currencyCode) log =
  (match platform (ags.queries log) v.(ags.namespace) v.(ags.userID) with
   | (_, Some sdkErr) => (None, Some (getFailed sdkErr))
   | (resp, None) =>
       match find (fun w => String.eqb w.(ags.CurrencyCode) currencyCode) (ags.toWallets v resp) with
       | Some w => (Some w, None)
       | None => (None, Some (notFound currencyCode))
       end
   end,
   (log ++ [ags.ObsQuery v.(ags.namespace) v.(ags.userID)])%list).
Proof.
  unfold ags.doGetUserWallet. rewrite exec_bind, exec_doQueryUserWallets.
  destruct (platform _ _ _) as [resp [sdkErr | ]]; [ reflexivity | ].
  destruct (find _ _); reflexivity.
Qed.

Lemma queries_rested (attempt : Z) (d : time.Duration) (log : list ags.Obs) :
  ags.queries (rested attempt d log) = ags.queries log.
Proof.
  unfold rested. destruct (0 <? attempt); [ | reflexivity ].
  rewrite queries_snoc. simpl. lia.
Qed.

Lemma queryUserWalletsLoop_turn (platform : ags.Platform) (v : ags.AGSRewardVerifier)
      (left : nat) (attempt : Z) (retryDelay : time.Duration) (lastErr : option error)
      (log : list ags.Obs) :
  let log1 := rested attempt retryDelay log in
  let log2 := (log1 ++ [ags.ObsQuery v.(ags.namespace) v.(ags.userID)])%list in
  ags.exec platform (ags.queryUserWalletsLoop (S left) v attempt retryDelay lastErr) log =
  match platform (ags.queries log) v.(ags.namespace) v.(ags.userID) with
  | (_, Some sdkErr) =>
      if ags.isRetryable (Some sdkErr)
      then ags.exec platform
             (ags.queryUserWalletsLoop left v (attempt + 1) (nextDelay attempt retryDelay)
                                       (Some (queryFailed sdkErr))) log2
      else (([], Some (queryFailed sdkErr)), log2)
  | (resp, None) => ((ags.toWallets v resp, None), log2)
  end.
Proof.
  cbv zeta. cbn [ags.queryUserWalletsLoop]. rewrite exec_bind.
  assert (Hb : ags.exec platform (ags.backoff attempt retryDelay) log =
               (nextDelay attempt retryDelay, rested attempt retryDelay log)).
  { unfold ags.backoff, nextDelay, rested. destruct (0 <? attempt); reflexivity. }
  rewrite Hb. rewrite exec_bind, exec_doQueryUserWallets, queries_rested.
  destruct (platform _ _ _) as [resp [sdkErr | ]]; [ | reflexivity ].
  unfold queryFailed. rewrite isRetryable_queryFailed.
  destruct (ags.isRetryable (Some sdkErr)); reflexivity.
Qed.

Lemma getUserWalletLoop_turn (platform : ags.Platform) (v : ags.AGSRewardVerifier)
      (currencyCode : string)
      (left : nat) (attempt : Z) (retryDelay : time.Duration) (lastErr : option error)
      (log : list ags.Obs) :
  let log1 := rested attempt retryDelay log in
  let log2 := (log1 ++ [ags.ObsQuery v.(ags.namespace) v.(ags.userID)])%list in
  let again e :=
    ags.exec platform
      (ags.getUserWalletLoop left v currencyCode (attempt + 1) (nextDelay attempt retryDelay)
                             (Some e)) log2 in
  ags.exec platform (ags.getUserWalletLoop (S left) v currencyCode attempt retryDelay lastErr) log =
  match platform (ags.queries log) v.(ags.namespace) v.(ags.userID) with
  | (_, Some sdkErr) =>
      if ags.isRetryable (Some sdkErr) then again (getFailed sdkErr)
      else ((None, Some (getFailed sdkErr)), log2)
  | (resp, None) =>
      match find (fun w => String.eqb w.(ags.CurrencyCode) currencyCode) (ags.toWallets v resp) with
      | Some w => ((Some w, None), log2)
      | None =>
          if ags.isRetryable (Some (notFound currencyCode)) then again (notFound currencyCode)
          else ((None, Some (notFound currencyCode)), log2)
      end
  end.
Proof.
  cbv zeta. cbn [ags.getUserWalletLoop]. rewrite exec_bind.
  assert (Hb : ags.exec platform (ags.backoff attempt retryDelay) log =
               (nextDelay attempt retryDelay, rested attempt retryDelay log)).
  { unfold ags.backoff, nextDelay, rested. destruct (0 <? attempt); reflexivity. }
  rewrite Hb. rewrite exec_bind, exec_doGetUserWallet, queries_rested.
  destruct (platform _ _ _) as [resp [sdkErr | ]].
  - unfold getFailed, queryFailed. rewrite !isRetryable_queryFailed.
    destruct (ags.isRetryable (Some sdkErr)); reflexivity.
  - destruct (find _ _); [ reflexivity | ].
    destruct (ags.isRetryable (Some (notFound currencyCode))); reflexivity.
Qed.

Ltac next_turn :=
  first [ rewrite queryUserWalletsLoop_turn | rewrite getUserWalletLoop_turn ];
  cbv zeta; cbn [ags.namespace ags.userID ags.NewAGSRewardVerifier];
  repeat first [ rewrite queries_snoc | rewrite queries_rested ];
  cbn [ags.isQuery];
  rewrite ?Nat.add_0_r, <- ?Nat.add_assoc; cbn [Nat.add].

(** X16: [QueryUserWallets] of the platform verifier, with the default
    settings, makes up to four queries, sleeping 500 ms, 1 s and 2 s in
    between: after three failures worth a retry a fourth failure gives the
    error failed after 3 retries around it, and a fourth answer is
    returned as the wallets. *)
Theorem queryUserWallets_retry_schedule (platform : ags.Platform) (log : list ags.Obs)
        (userID namespace : string) (e0 e1 e2 : error) :
  let v := ags.NewAGSRewardVerifier userID namespace in
  let after := ags.exec platform (ags.AGS_QueryUserWallets v) log in
  fails platform log namespace userID 0 e0 ->
  fails platform log namespace userID 1 e1 ->
  fails platform log namespace userID 2 e2 ->
  (forall e3, fails platform log namespace userID 3 e3 ->
     after = (([], Some (ags.failedAfter 3 (Some (queryFailed e3)))),
              (log ++ tries namespace userID)%list) /\
     Error (ags.failedAfter 3 (Some (queryFailed e3))) =
       "failed after 3 retries: query wallets failed: " ++ Error e3) /\
  (forall resp, answer platform log namespace userID 3 = (resp, None) ->
     after = ((ags.toWallets v resp, None), (log ++ tries namespace userID)%list)).
Proof.
  intros v after [A0 R0] [A1 R1] [A2 R2]. subst after v.
  unfold ags.AGS_QueryUserWallets, ags.queryUserWalletsWithRetry, answer in *.
  cbn [ags.maxRetries ags.initialRetryDelay ags.NewAGSRewardVerifier].
  change (Z.to_nat (3 + 1)) with 4%nat.
  rewrite Nat.add_0_r in A0.
  split.
  - intros e3 [A3 R3]. unfold answer in A3. split; [ | reflexivity ].
    next_turn. destruct (platform (ags.queries log) namespace userID) as [r0 x0].
    simpl in A0. subst x0. rewrite R0.
    next_turn. destruct (platform (ags.queries log + 1)%nat namespace userID) as [r1 x1].
    simpl in A1. subst x1. rewrite R1.
    next_turn. destruct (platform (ags.queries log + 2)%nat namespace userID) as [r2 x2].
    simpl in A2. subst x2. rewrite R2.
    next_turn. destruct (platform (ags.queries log + 3)%nat namespace userID) as [r3 x3].
    simpl in A3. subst x3. rewrite R3.
    cbn [ags.exec ags.queryUserWalletsLoop ags.maxRetries].
    unfold tries, rested, nextDelay. simpl. rewrite <- !app_assoc. reflexivity.
  - intros resp A3. unfold answer in A3.
    next_turn. destruct (platform (ags.queries log) namespace userID) as [r0 x0].
    simpl in A0. subst x0. rewrite R0.
    next_turn. destruct (platform (ags.queries log + 1)%nat namespace userID) as [r1 x1].
    simpl in A1. subst x1. rewrite R1.
    next_turn. destruct (platform (ags.queries log + 2)%nat namespace userID) as [r2 x2].
    simpl in A2. subst x2. rewrite R2.
    next_turn. rewrite A3.
    unfold tries, rested, nextDelay. simpl. rewrite <- !app_assoc. reflexivity.
Qed.

Lemma reverse_append (a b : string) : reverse (a ++ b) = reverse b ++ reverse a.
Proof.
  induction a as [ | c a IH ]; simpl.
  - now rewrite append_nil_r.
  - now rewrite IH, append_assoc.
Qed.

Lemma reverse_involutive (s : string) : reverse (reverse s) = s.
Proof.
  induction s as [ | c s IH ]; simpl; [ reflexivity | ].
  now rewrite reverse_append, IH.
Qed.

Lemma within_reverse (s p : string) : within s p -> within (reverse s) (reverse p).
Proof.
  intros (before & after & ->). exists (reverse after), (reverse before).
  now rewrite !reverse_append, append_assoc.
Qed.

Lemma within_before_suffix (s suffix p : string) :
  clear_of (reverse suffix) (reverse p) = true ->
  within (s ++ suffix) p -> within s p.
Proof.
  intros Hclear Hw. apply within_reverse in Hw. rewrite reverse_append in Hw.
  apply within_under_prefix in Hw; [ | exact Hclear ].
  apply within_reverse in Hw. now rewrite !reverse_involutive in Hw.
Qed.

Lemma notFound_retryable (currencyCode : string) :
  ags.isRetryable (Some (notFound currencyCode)) = true <->
  exists p, In p fragments /\ within currencyCode p.
Proof.
  rewrite isRetryable_within. unfold notFound. cbn [Error].
  assert (Hl : forallb (clear_of "wallet with currency code ") fragments = true)
    by (vm_compute; reflexivity).
  assert (Hr : forallb (fun p => clear_of (reverse " not found") (reverse p)) fragments = true)
    by (vm_compute; reflexivity).
  rewrite forallb_forall in Hl, Hr.
  split; intros (p & Hin & Hw); exists p; (split; [ exact Hin | ]).
  - apply within_under_prefix in Hw; [ | apply Hl, Hin ].
    apply within_before_suffix in Hw; [ exact Hw | apply Hr, Hin ].
  - destruct Hw as (before & after & ->).
    exists ("wallet with currency code " ++ before), (after ++ " not found").
    now rewrite !append_assoc.
Qed.

Ltac failed_turn A R :=
  next_turn;
  match goal with
  | |- context [match ?platform ?n ?ns ?uid with pair _ _ => _ end] =>
      destruct (platform n ns uid) as [? ?]
  end;
  cbn [snd] in A; subst; rewrite R.

Ltac read_log :=
  unfold tries, rested, nextDelay; simpl; rewrite <- ?app_assoc; reflexivity.

Lemma first_turns (platform : ags.Platform) (log : list ags.Obs) (userID namespace : string)
      (k : nat) :
  (forall i, (i < k)%nat -> exists e, fails platform log namespace userID i e) ->
  forall i, (i < k)%nat ->
  exists e, snd (platform (ags.queries log + i)%nat namespace userID) = Some e /\
            ags.isRetryable (Some e) = true.
Proof. intros H i Hi. destruct (H i Hi) as (e & A & R). exists e. split; assumption. Qed.

(** X17: [GetUserWallet] of the platform verifier stops at the first query
    (of at most four) that does not fail with an error worth a retry: it
    returns the wallet of the currency if the answer lists one, the error
    as it is if the failure is final, and the not-found error if the
    currency is missing and its code holds none of the fragments; nothing
    is queried after that. *)
Theorem getUserWallet_stops_at_first_final_answer
        (platform : ags.Platform) (log : list ags.Obs)
        (userID namespace currencyCode : string) (k : nat) :
  let v := ags.NewAGSRewardVerifier userID namespace in
  let after := ags.exec platform (ags.AGS_GetUserWallet v currencyCode) log in
  let made := (log ++ firstn (2 * k + 1) (tries namespace userID))%list in
  let held resp := find (fun w => String.eqb w.(ags.CurrencyCode) currencyCode)
                        (ags.toWallets v resp) in
  (k <= 3)%nat ->
  (forall i, (i < k)%nat -> exists e, fails platform log namespace userID i e) ->
  (forall resp w,
     answer platform log namespace userID k = (resp, None) -> held resp = Some w ->
     after = ((Some w, None), made)) /\
  (forall resp sdkErr,
     answer platform log namespace userID k = (resp, Some sdkErr) ->
     ags.isRetryable (Some sdkErr) = false ->
     after = ((None, Some (getFailed sdkErr)), made)) /\
  (forall resp,
     answer platform log namespace userID k = (resp, None) -> held resp = None ->
     (forall p, In p fragments -> ~ within currencyCode p) ->
     after = ((None, Some (notFound currencyCode)), made)).
Proof.
  intros v after made held Hk Hfails. subst after made held v.
  pose proof (first_turns Hfails) as Hf. clear Hfails.
  unfold ags.AGS_GetUserWallet, ags.getUserWalletWithRetry, answer.
  cbn [ags.maxRetries ags.initialRetryDelay ags.NewAGSRewardVerifier].
  change (Z.to_nat (3 + 1)) with 4%nat.
  assert (Hmiss : (forall p, In p fragments -> ~ within currencyCode p) ->
                  ags.isRetryable (Some (notFound currencyCode)) = false).
  { intros Hno. apply not_true_is_false. intros Hr.
    apply notFound_retryable in Hr as (p & Hin & Hw). exact (Hno p Hin Hw). }
  destruct k as [ | [ | [ | [ | k ] ] ] ]; [ | | | | lia ].
  - rewrite Nat.add_0_r.
    split; [ | split ].
    + intros resp w A Hw. next_turn. rewrite A. cbn [ags.toWallets]. 
      cbv zeta in Hw. rewrite Hw. read_log.
    + intros resp sdkErr A R. next_turn. rewrite A, R. read_log.
    + intros resp A Hw Hno. next_turn. rewrite A. cbv zeta in Hw. rewrite Hw.
      rewrite (Hmiss Hno). read_log.
  - destruct (Hf 0%nat) as (e0 & A0 & R0); [ lia | ]. rewrite Nat.add_0_r in A0.
    split; [ | split ].
    + intros resp w A Hw. failed_turn A0 R0. next_turn. rewrite A.
      cbv zeta in Hw. rewrite Hw. read_log.
    + intros resp sdkErr A R. failed_turn A0 R0. next_turn. rewrite A, R. read_log.
    + intros resp A Hw Hno. failed_turn A0 R0. next_turn. rewrite A.
      cbv zeta in Hw. rewrite Hw. rewrite (Hmiss Hno). read_log.
  - destruct (Hf 0%nat) as (e0 & A0 & R0); [ lia | ]. rewrite Nat.add_0_r in A0.
    destruct (Hf 1%nat) as (e1 & A1 & R1); [ lia | ].
    split; [ | split ].
    + intros resp w A Hw. failed_turn A0 R0. failed_turn A1 R1. next_turn. rewrite A.
      cbv zeta in Hw. rewrite Hw. read_log.
    + intros resp sdkErr A R. failed_turn A0 R0. failed_turn A1 R1.
      next_turn. rewrite A, R. read_log.
    + intros resp A Hw Hno. failed_turn A0 R0. failed_turn A1 R1. next_turn. rewrite A.
      cbv zeta in Hw. rewrite Hw. rewrite (Hmiss Hno). read_log.
  - destruct (Hf 0%nat) as (e0 & A0 & R0); [ lia | ]. rewrite Nat.add_0_r in A0.
    destruct (Hf 1%nat) as (e1 & A1 & R1); [ lia | ].
    destruct (Hf 2%nat) as (e2 & A2 & R2); [ lia | ].
    split; [ | split ].
    + intros resp w A Hw. failed_turn A0 R0. failed_turn A1 R1. failed_turn A2 R2.
      next_turn. rewrite A. cbv zeta in Hw. rewrite Hw. read_log.
    + intros resp sdkErr A R. failed_turn A0 R0. failed_turn A1 R1. failed_turn A2 R2.
      next_turn. rewrite A, R. read_log.
    + intros resp A Hw Hno. failed_turn A0 R0. failed_turn A1 R1. failed_turn A2 R2.
      next_turn. rewrite A. cbv zeta in Hw. rewrite Hw. rewrite (Hmiss Hno). read_log.
Qed.

Lemma queryUserWallets_retry_schedule_witness :
  let v := ags.NewAGSRewardVerifier "alice" "demo" in
  let cause := errorString "context deadline exceeded" in
  ags.exec timingOut (ags.AGS_QueryUserWallets v) [] =
    (([], Some (ags.failedAfter 3 (Some (queryFailed cause)))), tries "demo" "alice") /\
  Error (ags.failedAfter 3 (Some (queryFailed cause))) =
    "failed after 3 retries: query wallets failed: context deadline exceeded".
Proof.
  intros v cause.
  assert (F : forall k, fails timingOut [] "demo" "alice" k cause)
    by (intros k; split; reflexivity).
  exact (proj1 (@queryUserWallets_retry_schedule timingOut [] "alice" "demo" cause cause cause
                  (F 0%nat) (F 1%nat) (F 2%nat)) cause (F 3%nat)).
Defined.

Lemma getUserWallet_stops_at_first_final_answer_witness :
  let v := ags.NewAGSRewardVerifier "alice" "demo" in
  ags.exec (listing [None; Some gold]) (ags.AGS_GetUserWallet v "GOLD") [] =
    ((Some (ags.mkWallet "w-1" "GOLD" "demo" 150 "ACTIVE"), None), [ags.ObsQuery "demo" "alice"]).
Proof.
  intros v.
  refine (proj1 (@getUserWallet_stops_at_first_final_answer (listing [None; Some gold]) []
                   "alice" "demo" "GOLD" 0 _ _) [None; Some gold] _ eq_refl eq_refl).
  - lia.
  - intros i Hi. lia.
Defined.

(** X18: a missing wallet whose currency code holds one of the fragments
    (500 in COIN500) counts as a failure worth a retry: the verifier queries
    four times, sleeping in between, and reports failed after 3 retries. *)
Theorem missing_wallet_is_looked_up_again_by_its_code
        (platform : ags.Platform) (log : list ags.Obs)
        (userID namespace currencyCode p : string) :
  let v := ags.NewAGSRewardVerifier userID namespace in
  In p fragments -> within currencyCode p ->
  (forall i, (i <= 3)%nat ->
     exists resp, answer platform log namespace userID i = (resp, None) /\
                  find (fun w => String.eqb w.(ags.CurrencyCode) currencyCode)
                       (ags.toWallets v resp) = None) ->
  ags.exec platform (ags.AGS_GetUserWallet v currencyCode) log =
    ((None, Some (ags.failedAfter 3 (Some (notFound currencyCode)))),
     (log ++ tries namespace userID)%list) /\
  Error (ags.failedAfter 3 (Some (notFound currencyCode))) =
    "failed after 3 retries: wallet with currency code " ++ currencyCode ++ " not found".
Proof.
  intros v Hin Hw Hmiss. subst v. split; [ | reflexivity ].
  assert (Hr : ags.isRetryable (Some (notFound currencyCode)) = true)
    by (apply notFound_retryable; eauto).
  unfold ags.AGS_GetUserWallet, ags.getUserWalletWithRetry, answer in *.
  cbn [ags.maxRetries ags.initialRetryDelay ags.NewAGSRewardVerifier].
  change (Z.to_nat (3 + 1)) with 4%nat.
  destruct (Hmiss 0%nat) as (r0 & A0 & F0); [ lia | ]. rewrite Nat.add_0_r in A0.
  destruct (Hmiss 1%nat) as (r1 & A1 & F1); [ lia | ].
  destruct (Hmiss 2%nat) as (r2 & A2 & F2); [ lia | ].
  destruct (Hmiss 3%nat) as (r3 & A3 & F3); [ lia | ].
  next_turn. rewrite A0, F0, Hr.
  next_turn. rewrite A1, F1, Hr.
  next_turn. rewrite A2, F2, Hr.
  next_turn. rewrite A3, F3, Hr.
  cbn [ags.exec ags.getUserWalletLoop ags.maxRetries].
  read_log.
Qed.

Lemma missing_wallet_is_looked_up_again_by_its_code_witness :
  let v := ags.NewAGSRewardVerifier "alice" "demo" in
  ags.exec (listing [Some gold]) (ags.AGS_GetUserWallet v "COIN500") [] =
    ((None, Some (ags.failedAfter 3 (Some (notFound "COIN500")))), tries "demo" "alice").
Proof.
  intros v.
  refine (proj1 (@missing_wallet_is_looked_up_again_by_its_code (listing [Some gold]) []
                   "alice" "demo" "COIN500" "500" _ _ _)).
  - simpl. auto 10.
  - exists "COIN", "". reflexivity.
  - intros i _. exists [Some gold]. split; reflexivity.
Defined.

Lemma toWallets_present (v : ags.AGSRewardVerifier) (resp : list (option ags.CurrencyWallet)) :
  ags.toWallets v resp = map (ags.toWallet v) (present resp).
Proof.
  induction resp as [ | [w | ] resp IH ]; simpl; [ reflexivity | now rewrite IH | exact IH ].
Qed.

(** X19: [QueryUserWallets] of the platform verifier returns, after a
    single query that succeeds, one wallet per entry of the answer that is
    not nil, in order: with the namespace of the verifier, the currency
    code and balance of the entry (empty and 0 where nil) and the ID of its
    first wallet info (empty if there is none). *)
Theorem wallets_as_the_platform_lists_them
        (platform : ags.Platform) (log : list ags.Obs) (userID namespace : string)
        (resp : list (option ags.CurrencyWallet)) :
  let v := ags.NewAGSRewardVerifier userID namespace in
  let wallets := ags.toWallets v resp in
  let firstInfo (w : ags.CurrencyWallet) :=
    match w.(ags.WalletInfos) with Some info :: _ => Some info | _ => None end in
  answer platform log namespace userID 0 = (resp, None) ->
  ags.exec platform (ags.AGS_QueryUserWallets v) log =
    ((wallets, None), (log ++ [ags.ObsQuery namespace userID])%list) /\
  List.length wallets = List.length (present resp) /\
  Forall (fun w => w.(ags.wal_Namespace) = namespace) wallets /\
  map ags.CurrencyCode wallets =
    map (fun w => match w.(ags.cw_CurrencyCode) with Some c => c | None => "" end)
        (present resp) /\
  map ags.Balance wallets =
    map (fun w => match w.(ags.cw_Balance) with Some b => b | None => 0 end) (present resp) /\
  map ags.WalletID wallets =
    map (fun w => match firstInfo w with
                  | Some info => match info.(ags.wi_ID) with Some id => id | None => "" end
                  | None => ""
                  end) (present resp).
Proof.
  intros v wallets firstInfo A. subst wallets v firstInfo.
  unfold answer in A. rewrite Nat.add_0_r in A.
  split; [ | split; [ | split; [ | split; [ | split ] ] ] ].
  - unfold ags.AGS_QueryUserWallets, ags.queryUserWalletsWithRetry.
    cbn [ags.maxRetries ags.initialRetryDelay ags.NewAGSRewardVerifier].
    change (Z.to_nat (3 + 1)) with 4%nat.
    next_turn. rewrite A. reflexivity.
  - rewrite toWallets_present. apply length_map.
  - rewrite toWallets_present. apply Forall_map. apply Forall_forall. intros w _.
    unfold ags.toWallet. destruct (ags.WalletInfos w) as [ | [info | ] infos ]; reflexivity.
  - rewrite toWallets_present, map_map. apply map_ext. intros w.
    unfold ags.toWallet. destruct (ags.WalletInfos w) as [ | [info | ] infos ]; reflexivity.
  - rewrite toWallets_present, map_map. apply map_ext. intros w.
    unfold ags.toWallet. destruct (ags.WalletInfos w) as [ | [info | ] infos ]; reflexivity.
  - rewrite toWallets_present, map_map. apply map_ext. intros w.
    unfold ags.toWallet. destruct (ags.WalletInfos w) as [ | [info | ] infos ]; reflexivity.
Qed.

Lemma wallets_as_the_platform_lists_them_witness :
  let v := ags.NewAGSRewardVerifier "alice" "demo" in
  ags.exec (listing [None; Some gold]) (ags.AGS_QueryUserWallets v) [] =
    (([ags.mkWallet "w-1" "GOLD" "demo" 150 "ACTIVE"], None), [ags.ObsQuery "demo" "alice"]).
Proof.
  intros v.
  exact (proj1 (@wallets_as_the_platform_lists_them (listing [None; Some gold]) []
                  "alice" "demo" [None; Some gold] eq_refl)).
Defined.

Lemma findEntitlement_first (itemID : string) (l : list (option ags.Entitlement)) :
  ags.findEntitlement itemID l =
  match find (fun ent => String.eqb ent.(ags.ItemID) itemID) (before_nil l) with
  | Some ent => Returned (Some ent)
  | None => if has_nil l then Panicked nilDeref else Returned None
  end.
Proof.
  induction l as [ | [e | ] l IH ]; simpl; try reflexivity.
  destruct (String.eqb (ags.ItemID e) itemID); [ reflexivity | exact IH ].
Qed.

Lemma findWallet_first (currencyCode : string) (l : list (option ags.Wallet)) :
  ags.findWallet currencyCode l =
  match find (fun w => String.eqb w.(ags.CurrencyCode) currencyCode) (before_nil l) with
  | Some w => Returned (Some w)
  | None => if has_nil l then Panicked nilDeref else Returned None
  end.
Proof.
  induction l as [ | [e | ] l IH ]; simpl; try reflexivity.
  destruct (String.eqb (ags.CurrencyCode e) currencyCode); [ reflexivity | exact IH ].
Qed.

Lemma filterByStatus_all (status : string) (l : list (option ags.Entitlement)) :
  ags.filterByStatus status l =
  if has_nil l then Panicked nilDeref
  else Returned (map Some (filter (fun ent => String.eqb ent.(ags.ent_Status) status)
                                  (present l))).
Proof.
  induction l as [ | [e | ] l IH ]; simpl; try reflexivity.
  rewrite IH. destruct (has_nil l); simpl; [ reflexivity | ].
  destruct (String.eqb (ags.ent_Status e) status); reflexivity.
Qed.

Lemma before_nil_present {A : Type} (l : list (option A)) :
  has_nil l = false -> before_nil l = present l.
Proof.
  induction l as [ | [a | ] l IH ]; simpl; intros Hn; try reflexivity; try discriminate.
  now rewrite IH.
Qed.

(** X20: the mock verifier answers from its two lists. With an error set,
    every call returns that error and no data. Without, a lookup returns the
    first entry with the item ID or currency code asked for, and the
    not-found error naming it if there is none; a query without status
    filter returns the whole list, a query with one the entries of that
    status, in order.  A nil entry makes a lookup panic unless an entry
    before it matches, and makes a filtered query panic. *)
Theorem mock_verifier_answers_from_its_lists (m : ags.MockRewardVerifier) :
  (forall err, m.(ags.mock_Error) = Some err ->
     (forall itemID, ags.GetUserEntitlement m itemID = Returned (None, Some err)) /\
     (forall filters, ags.QueryUserEntitlements m filters = Returned ([], Some err)) /\
     (forall currencyCode, ags.GetUserWallet m currencyCode = Returned (None, Some err)) /\
     ags.QueryUserWallets m = ([], Some err)) /\
  (m.(ags.mock_Error) = None ->
     (forall itemID,
        ags.GetUserEntitlement m itemID =
        match find (fun ent => String.eqb ent.(ags.ItemID) itemID)
                   (before_nil m.(ags.Entitlements)) with
        | Some ent => Returned (Some ent, None)
        | None =>
            if has_nil m.(ags.Entitlements) then Panicked nilDeref
            else Returned (None, Some (errorString ("entitlement not found for item: " ++ itemID)))
        end) /\
     (forall currencyCode,
        ags.GetUserWallet m currencyCode =
        match find (fun w => String.eqb w.(ags.CurrencyCode) currencyCode)
                   (before_nil m.(ags.Wallets)) with
        | Some w => Returned (Some w, None)
        | None =>
            if has_nil m.(ags.Wallets) then Panicked nilDeref
            else Returned (None, Some (errorString ("wallet not found for currency: " ++
                                                    currencyCode)))
        end) /\
     (forall filters,
        ags.lookup "status" filters = None ->
        ags.QueryUserEntitlements m filters = Returned (m.(ags.Entitlements), None)) /\
     (forall filters status,
        ags.lookup "status" filters = Some status ->
        ags.QueryUserEntitlements m filters =
        if has_nil m.(ags.Entitlements) then Panicked nilDeref
        else Returned (map Some (filter (fun ent => String.eqb ent.(ags.ent_Status) status)
                                        (present m.(ags.Entitlements))), None)) /\
     ags.QueryUserWallets m = (m.(ags.Wallets), None) /\
     (has_nil m.(ags.Entitlements) = false ->
      before_nil m.(ags.Entitlements) = present m.(ags.Entitlements) /\
      m.(ags.Entitlements) = map Some (present m.(ags.Entitlements)))).
Proof.
  destruct m as [ents ws merr]. cbn [ags.mock_Error ags.Entitlements ags.Wallets].
  split.
  - intros err ->. repeat split.
  - intros ->. unfold ags.GetUserEntitlement, ags.GetUserWallet, ags.QueryUserEntitlements,
                 ags.QueryUserWallets.
    cbn [ags.mock_Error ags.Entitlements ags.Wallets].
    split; [ | split; [ | split; [ | split; [ | split ] ] ] ].
    + intros itemID. rewrite findEntitlement_first.
      destruct (find _ _); [ reflexivity | ]. destruct (has_nil ents); reflexivity.
    + intros code. rewrite findWallet_first.
      destruct (find _ _); [ reflexivity | ]. destruct (has_nil ws); reflexivity.
    + intros filters ->. reflexivity.
    + intros filters status ->. rewrite filterByStatus_all.
      destruct (has_nil ents); reflexivity.
    + reflexivity.
    + intros Hn. split; [ now apply before_nil_present | ].
      induction ents as [ | [e | ] ents IH ]; simpl in *; try discriminate; try reflexivity.
      now rewrite <- IH.
Qed.

(* ------------------------------------------------------------------ *)
(** ** The terminal interface *)
(* ------------------------------------------------------------------ *)

Lemma take_length (s : string) : forall n, String.length (take n s) = Nat.min n (String.length s).
Proof.
  induction s as [ | c s IH ]; intros [ | n ]; simpl; try reflexivity.
  now rewrite IH.
Qed.

Lemma take_all (s : string) : forall n, (String.length s <= n)%nat -> take n s = s.
Proof.
  induction s as [ | c s IH ]; intros [ | n ] H; simpl in *; try reflexivity; try lia.
  rewrite IH by lia. reflexivity.
Qed.

(** X21: [truncate] with a limit that is not negative returns a text of at
    most that many bytes: the text itself if it fits, else its first bytes,
    the last three replaced by dots when the limit is above 3. With a
    negative limit it panics. *)
Theorem truncate_fits (s : string) (maxLen : Z) :
  (0 <= maxLen ->
   exists out,
     commands.truncate s maxLen = Returned out /\
     len out = Z.min (len s) maxLen /\
     (len s <= maxLen -> out = s) /\
     (maxLen < len s -> maxLen <= 3 -> out = take (Z.to_nat maxLen) s) /\
     (maxLen < len s -> 3 < maxLen -> out = take (Z.to_nat (maxLen - 3)) s ++ "...")) /\
  (maxLen < 0 -> commands.truncate s maxLen = Panicked "slice bounds out of range").
Proof.
  unfold commands.truncate, slice_to, len. split.
  - intros Hpos.
    destruct (Z.leb_spec (Z.of_nat (String.length s)) maxLen) as [Hfit | Hlong].
    + exists s. split; [ reflexivity | ]. split; [ unfold len; lia | ].
      split; [ reflexivity | split; intros; lia ].
    + destruct (Z.leb_spec maxLen 3) as [Hsmall | Hbig].
      * replace (andb (0 <=? maxLen) (maxLen <=? Z.of_nat (String.length s))) with true
          by (symmetry; apply andb_true_intro; split; apply Z.leb_le; lia).
        eexists. split; [ reflexivity | ].
        split; [ unfold len; rewrite take_length; lia | ].
        split; [ intros; lia | split; [ reflexivity | intros; lia ] ].
      * replace (andb (0 <=? maxLen - 3) (maxLen - 3 <=? Z.of_nat (String.length s))) with true
          by (symmetry; apply andb_true_intro; split; apply Z.leb_le; lia).
        eexists. split; [ reflexivity | ].
        split; [ unfold len; rewrite append_length, take_length; simpl; lia | ].
        split; [ intros; lia | split; [ intros; lia | reflexivity ] ].
  - intros Hneg.
    replace (Z.of_nat (String.length s) <=? maxLen) with false by (symmetry; apply Z.leb_gt; lia).
    replace (maxLen <=? 3) with true by (symmetry; apply Z.leb_le; lia).
    replace (0 <=? maxLen) with false by (symmetry; apply Z.leb_gt; lia).
    reflexivity.
Qed.

Lemma wrap64_small (z : Z) : - 2 ^ 63 <= z < 2 ^ 63 -> GoInt.wrap64 z = z.
Proof.
  intros Hz. unfold GoInt.wrap64. rewrite Z.mod_small; lia.
Qed.

Lemma Repeat_cells (s : string) (count : Z) :
  String.length s = 3%nat -> 0 <= count < 2 ^ 32 ->
  strings.Repeat s count = Returned (replicate (Z.to_nat count) s).
Proof.
  intros Hs Hc. unfold strings.Repeat, len. rewrite Hs.
  replace (count <? 0) with false by (symmetry; apply Z.ltb_ge; lia).
  replace (GoInt.maxInt64 <? Z.of_nat 3 * count) with false; [ reflexivity | ].
  symmetry. apply Z.ltb_ge. unfold GoInt.maxInt64.
  change (2 ^ 63) with 9223372036854775808. change (2 ^ 32) with 4294967296 in Hc. lia.
Qed.

Lemma Repeat_negative (s : string) (count : Z) :
  count < 0 -> strings.Repeat s count = Panicked "strings: negative Repeat count".
Proof.
  intros Hc. unfold strings.Repeat.
  replace (count <? 0) with true by (symmetry; apply Z.ltb_lt; lia). reflexivity.
Qed.

Lemma quot_abs_le (a b : Z) : b <> 0 -> Z.abs (Z.quot a b) <= Z.abs a.
Proof.
  intros Hb. rewrite <- Z.quot_abs by exact Hb.
  rewrite Z.quot_div_nonneg by lia.
  apply Z.div_le_upper_bound; [ lia | nia ].
Qed.

(** X22: for arguments in the int32 range and a width that is not
    negative, the progress bar has [width] cells between its brackets. For
    a target of 0 all are empty; otherwise, if the quotient
    current * width / target (rounded toward zero) is not negative, the
    first that many cells, at most [width], are full.  For a progress that
    is not negative, a positive target and a positive width these are all
    cells exactly from current = target on.  A negative width or a negative
    quotient makes [strings.Repeat] panic. *)
Theorem progress_bar_cells (current target width : Z) :
  - 2 ^ 31 <= current < 2 ^ 31 -> - 2 ^ 31 <= target < 2 ^ 31 -> - 2 ^ 31 <= width < 2 ^ 31 ->
  let q := Z.quot (current * width) target in
  (0 <= width -> target = 0 -> tui.renderProgressBar current target width = Returned (bar 0 width)) /\
  (0 <= width -> target <> 0 -> 0 <= q ->
   tui.renderProgressBar current target width = Returned (bar (Z.min width q) width)) /\
  (0 <= width -> 0 <= current -> 0 < target ->
   q = current * width / target /\ 0 <= q /\ (0 < width -> (Z.min width q = width <-> target <= current))) /\
  (target <> 0 -> q < 0 ->
   tui.renderProgressBar current target width = Panicked "strings: negative Repeat count") /\
  (width < 0 ->
   tui.renderProgressBar current target width = Panicked "strings: negative Repeat count").
Proof.
  intros Hc Ht Hw q.
  change (2 ^ 31) with 2147483648 in *.
  assert (Hprod : - 4611686018427387904 <= current * width <= 4611686018427387904) by nia.
  assert (Hmul : GoInt.mul64 current width = current * width).
  { unfold GoInt.mul64. apply wrap64_small.
    change (2 ^ 63) with 9223372036854775808. lia. }
  assert (Hq : target <> 0 -> Z.abs q <= 4611686018427387904).
  { intros Hne. pose proof (quot_abs_le (current * width) Hne). subst q. lia. }
  assert (Hquot : target <> 0 -> quot64 (GoInt.mul64 current width) target = q).
  { intros Hne. unfold quot64. rewrite Hmul. apply wrap64_small.
    change (2 ^ 63) with 9223372036854775808. specialize (Hq Hne). fold q. lia. }
  assert (Hsmall : forall z, - 4294967296 < z < 4294967296 -> GoInt.wrap64 z = z).
  { intros z Hz. apply wrap64_small. change (2 ^ 63) with 9223372036854775808. lia. }
  unfold tui.renderProgressBar.
  split; [ | split; [ | split; [ | split ] ] ].
  - intros Hpos Hzero. subst target. simpl.
    rewrite Repeat_cells; [ | reflexivity | change (2 ^ 32) with 4294967296; lia ].
    unfold bar, bindOutcome. simpl. rewrite Z.sub_0_r. reflexivity.
  - intros Hpos Hne Hqpos.
    replace (target =? 0) with false by (symmetry; apply Z.eqb_neq; exact Hne).
    cbv zeta. rewrite (Hquot Hne).
    replace (if width <? q then width else q) with (Z.min width q)
      by (destruct (Z.ltb_spec width q); lia).
    rewrite Repeat_cells; [ | reflexivity | change (2 ^ 32) with 4294967296; lia ].
    rewrite Hsmall by lia.
    cbn [bindOutcome].
    rewrite Repeat_cells; [ | reflexivity | change (2 ^ 32) with 4294967296; lia ].
    reflexivity.
  - intros Hpos Hcur Htar.
    assert (Hdiv : q = current * width / target).
    { subst q. apply Z.quot_div_nonneg; nia. }
    split; [ exact Hdiv | ].
    assert (Hqpos : 0 <= q) by (rewrite Hdiv; apply Z.div_pos; nia).
    split; [ exact Hqpos | ].
    intros Hwide. rewrite Hdiv. split.
    + intros Hfull.
      assert (Hle : width <= current * width / target) by lia.
      destruct (Z.le_gt_cases target current) as [ Hdone | Hless ]; [ exact Hdone | exfalso ].
      assert (current * width / target < width).
      { apply Z.div_lt_upper_bound; [ lia | nia ]. }
      lia.
    + intros Hdone.
      assert (width <= current * width / target).
      { apply Z.div_le_lower_bound; [ lia | nia ]. }
      lia.
  - intros Hne Hneg.
    replace (target =? 0) with false by (symmetry; apply Z.eqb_neq; exact Hne).
    cbv zeta. rewrite (Hquot Hne).
    rewrite Repeat_negative; [ reflexivity | ].
    destruct (Z.ltb_spec width q); lia.
  - intros Hneg.
    destruct (Z.eqb_spec target 0) as [ Hzero | Hne ].
    + rewrite Repeat_negative by exact Hneg. reflexivity.
    + cbv zeta. rewrite (Hquot Hne).
      rewrite Repeat_negative; [ reflexivity | ].
      destruct (Z.ltb_spec width q); lia.
Qed.

Lemma progress_bar_cells_witness :
  tui.renderProgressBar 5 10 20 = Returned (bar 10 20).
Proof.
  assert (Hin : forall z, - 100 <= z <= 100 -> - 2 ^ 31 <= z < 2 ^ 31)
    by (intros z Hz; change (2 ^ 31) with 2147483648; lia).
  destruct (@progress_bar_cells 5 10 20 (Hin 5 ltac:(lia)) (Hin 10 ltac:(lia))
                                (Hin 20 ltac:(lia))) as (_ & H & _).
  apply H.
  - lia.
  - discriminate.
  - discriminate.
Defined.

Lemma replicate_length (s : string) (n : nat) :
  String.length (replicate n s) = (n * String.length s)%nat.
Proof.
  induction n as [ | n IH ]; simpl; [ reflexivity | ].
  rewrite append_length, IH. reflexivity.
Qed.

Lemma index_in_range (A : Type) (l : list A) (i : Z) :
  0 <= i < Z.of_nat (List.length l) ->
  exists a, index l i = Returned a /\ nth_error l (Z.to_nat i) = Some a.
Proof.
  intros Hi. unfold index.
  replace (andb (0 <=? i) (i <? Z.of_nat (List.length l))) with true
    by (symmetry; apply andb_true_intro; split; [ apply Z.leb_le | apply Z.ltb_lt ]; lia).
  destruct (nth_error l (Z.to_nat i)) as [ a | ] eqn:E.
  - exists a. split; reflexivity.
  - apply nth_error_None in E. lia.
Qed.

Ltac split_if :=
  match goal with
  | |- context [ if ?b then _ else _ ] => destruct b eqn:?
  end.

Lemma Update_steady (m : tui.DashboardModel) (msg : tui.Msg) :
  steady m -> exists m' cmd, tui.Update m msg = Returned (m', cmd) /\ steady m'.
Proof.
  intros (Hc & Hg & Hin). unfold steady.
  destruct m as [chs vm cc gc ld cl sm em]. simpl in *.
  destruct msg as [ key | loaded [ err | ] | result [ err | ] | ]; simpl.
  - repeat split_if;
      try (eexists; eexists; split; [ reflexivity | simpl ];
           repeat match goal with
                  | H : (_ <? _) = true |- _ => apply Z.ltb_lt in H
                  | H : (_ <? _) = false |- _ => apply Z.ltb_ge in H
                  end; lia).
    all: repeat match goal with
                | H : (_ <? _) = true |- _ => apply Z.ltb_lt in H
                | H : (_ <? _) = false |- _ => apply Z.ltb_ge in H
                | H : andb _ _ = true |- _ => apply andb_prop in H; destruct H
                end.
    all: try (destruct (@index_in_range _ chs cc ltac:(lia)) as (challenge & -> & _);
              cbn [bindOutcome]).
    all: repeat split_if;
      try (eexists; eexists; split; [ reflexivity | simpl ];
           repeat match goal with
                  | H : (_ <? _) = true |- _ => apply Z.ltb_lt in H
                  | H : (_ <? _) = false |- _ => apply Z.ltb_ge in H
                  end; lia).
    all: repeat match goal with
                | H : (_ <? _) = true |- _ => apply Z.ltb_lt in H
                end.
    all: try (destruct (@index_in_range _ (api.ch_Goals challenge) gc ltac:(lia)) as (goal & -> & _);
              cbn [bindOutcome]).
    all: repeat split_if; eexists; eexists; (split; [ reflexivity | simpl; lia ]).
  - eexists; eexists; split; [ reflexivity | simpl; lia ].
  - eexists; eexists; split; [ reflexivity | simpl ].
    destruct (Z.leb_spec (Z.of_nat (List.length loaded)) cc); lia.
  - eexists; eexists; split; [ reflexivity | simpl; lia ].
  - eexists; eexists; split; [ reflexivity | simpl; lia ].
  - eexists; eexists; split; [ reflexivity | simpl; lia ].
Qed.

Lemma play_steady (msgs : list tui.Msg) :
  forall m, steady m -> exists m', play m msgs = Returned m' /\ steady m'.
Proof.
  induction msgs as [ | msg rest IH ]; intros m Hm; simpl.
  - exists m. split; [ reflexivity | exact Hm ].
  - destruct (Update_steady msg Hm) as (m1 & cmd & -> & Hm1). simpl.
    apply IH. exact Hm1.
Qed.

(** X23: the dashboard never indexes out of range. From the new model on,
    [Update] returns for every message, and after every sequence of
    messages no cursor is negative and the challenge cursor points into the
    list of challenges or is 0. *)
Theorem dashboard_cursors_stay_in_bounds :
  steady tui.NewDashboardModel /\
  (forall m msg, steady m ->
     exists m' cmd, tui.Update m msg = Returned (m', cmd) /\ steady m') /\
  (forall msgs, exists m,
     play (fst (tui.Init tui.NewDashboardModel)) msgs = Returned m /\ steady m).
Proof.
  split; [ unfold steady; simpl; lia | ].
  split; [ intros m msg; apply Update_steady | ].
  intros msgs. apply play_steady. unfold steady. simpl. lia.
Qed.

Lemma selected_index (m : tui.DashboardModel) :
  steady m ->
  forall challenge goal,
    selected m = Some (challenge, goal) <->
    (m.(tui.challengeCursor) <? Z.of_nat (List.length m.(tui.challenges))) = true /\
    index m.(tui.challenges) m.(tui.challengeCursor) = Returned challenge /\
    (m.(tui.goalCursor) <? Z.of_nat (List.length challenge.(api.ch_Goals))) = true /\
    index challenge.(api.ch_Goals) m.(tui.goalCursor) = Returned goal.
Proof.
  intros (Hc & Hg & _) challenge goal. unfold selected. split.
  - destruct (nth_error (tui.challenges m) _) as [ ch | ] eqn:E1; [ | discriminate ].
    destruct (nth_error (api.ch_Goals ch) _) as [ g | ] eqn:E2; [ | discriminate ].
    intros H. injection H as -> ->.
    assert (H1 : (Z.to_nat (tui.challengeCursor m) < List.length (tui.challenges m))%nat)
      by (apply nth_error_Some; congruence).
    assert (H2 : (Z.to_nat (tui.goalCursor m) < List.length (api.ch_Goals challenge))%nat)
      by (apply nth_error_Some; congruence).
    destruct (@index_in_range _ (tui.challenges m) (tui.challengeCursor m) ltac:(lia))
      as (a & Ha & Ha').
    destruct (@index_in_range _ (api.ch_Goals challenge) (tui.goalCursor m) ltac:(lia))
      as (b & Hb & Hb').
    rewrite Ha, Hb. split; [ apply Z.ltb_lt; lia | ].
    split; [ congruence | ]. split; [ apply Z.ltb_lt; lia | congruence ].
  - intros (H1 & I1 & H2 & I2). apply Z.ltb_lt in H1, H2.
    destruct (@index_in_range _ (tui.challenges m) (tui.challengeCursor m) ltac:(lia))
      as (a & Ha & ->).
    assert (a = challenge) by congruence. subst a.
    destruct (@index_in_range _ (api.ch_Goals challenge) (tui.goalCursor m) ltac:(lia))
      as (b & Hb & ->).
    congruence.
Qed.

(** X24: the dashboard starts a claim exactly when the key c is pressed in
    the detail view with the cursors on a goal whose status is completed;
    the claim is for that challenge and goal, and it sets the claiming flag
    and clears both messages. A claim already under way does not stop it. *)
Theorem claim_only_for_a_completed_goal
        (m m' : tui.DashboardModel) (msg : tui.Msg) (challengeID goalID : string) :
  steady m ->
  (tui.Update m msg = Returned (m', Some (tui.claimGoalCmd challengeID goalID)) <->
   msg = tui.KeyMsg "c" /\ m.(tui.viewMode) = tui.ViewModeDetail /\
   exists challenge goal,
     selected m = Some (challenge, goal) /\
     goal.(api.goal_Status) = "completed" /\
     challengeID = challenge.(api.ch_ID) /\ goalID = goal.(api.goal_ID) /\
     m' = claimingOf m).
Proof.
  intros Hm. split.
  - destruct msg as [ key | loaded [ err | ] | result [ err | ] | ]; simpl;
      try discriminate.
    destruct (orb (String.eqb key "up") (String.eqb key "k"));
      [ destruct (tui.isList (tui.viewMode m)); discriminate | ].
    destruct (orb (String.eqb key "down") (String.eqb key "j")).
    { destruct (tui.isList (tui.viewMode m)); [ discriminate | ].
      destruct (tui.challengeCursor m <? _); [ | discriminate ].
      destruct (index _ _); simpl; [ | discriminate .. ].
      intros H; injection H as _ H; discriminate. }
    destruct (String.eqb key "enter"); [ destruct (andb _ _); discriminate | ].
    destruct (String.eqb key "esc");
      [ destruct (tui.isList (tui.viewMode m)); discriminate | ].
    destruct (String.eqb key "r"); [ discriminate | ].
    destruct (String.eqb key "c") eqn:Ekey; [ | discriminate ].
    apply String.eqb_eq in Ekey. subst key.
    destruct (tui.viewMode m) eqn:Eview; simpl; [ discriminate | ].
    destruct (tui.challengeCursor m <? _) eqn:E1; [ | discriminate ].
    destruct (index (tui.challenges m) _) as [ challenge | | ] eqn:I1; simpl;
      [ | discriminate .. ].
    destruct (tui.goalCursor m <? _) eqn:E2; [ | discriminate ].
    destruct (index (api.ch_Goals challenge) _) as [ goal | | ] eqn:I2; simpl;
      [ | discriminate .. ].
    destruct (String.eqb (api.goal_Status goal) "completed") eqn:Edone; [ | discriminate ].
    intros H. injection H as <- <- <-.
    split; [ reflexivity | ]. split; [ reflexivity | ].
    exists challenge, goal. split; [ apply selected_index; auto | ].
    apply String.eqb_eq in Edone. unfold claimingOf. rewrite Eview. auto.
  - intros (-> & Eview & challenge & goal & Hsel & Hdone & -> & -> & ->).
    apply selected_index in Hsel; [ | exact Hm ].
    destruct Hsel as (E1 & I1 & E2 & I2).
    simpl. rewrite Eview. simpl. rewrite E1, I1. simpl. rewrite E2, I2. simpl.
    rewrite Hdone. simpl. unfold claimingOf. rewrite Eview. reflexivity.
Qed.

Lemma claim_only_for_a_completed_goal_witness :
  steady aDashboard /\
  tui.Update aDashboard (tui.KeyMsg "c") =
  Returned (claimingOf aDashboard, Some (tui.claimGoalCmd "daily" "g2")).
Proof.
  assert (Hm : steady aDashboard) by (unfold steady; simpl; lia).
  split; [ exact Hm | ].
  apply (proj2 (@claim_only_for_a_completed_goal aDashboard (claimingOf aDashboard)
                  (tui.KeyMsg "c") "daily" "g2" Hm)).
  split; [ reflexivity | ]. split; [ reflexivity | ].
  eexists. eexists. split; [ reflexivity | ].
  simpl. repeat split; reflexivity.
Defined.
